(** * Component generation for the AI Platform SDK: a shallow embedding

    This development embeds
    [components/google-cloud/google_cloud_components/aiplatform/utils.py]
    and states its specification as theorems.

    Python objects are represented by the observations the module makes
    on them: an annotation by what [inspect.isclass], [issubclass],
    [isinstance(_, str)], [__origin__] and [__args__] show; a call-time
    value by [is None], [isinstance(_, PipelineParam)], [json.dumps] and
    [str()].  Exceptions are results of type [result]. *)

From Stdlib Require Import String Ascii ZArith List Bool Lia Sorted.
From Stdlib Require DecimalString DecimalFacts DecimalPos DecimalZ.
From stdpp Require Import gmap strings list.

Local Open Scope string_scope.
Local Open Scope list_scope.
Set Warnings "-register-all".

(** ** Exceptions *)

Inductive exn : Type :=
| TypeError
| ValueError
| KeyError
| IndexError.

Inductive result (A : Type) : Type :=
| Ok (a : A)
| Raise (e : exn).

Arguments Ok {A} a.
Arguments Raise {A} e.

Definition bind_result {A B : Type} (r : result A) (k : A -> result B) : result B :=
  match r with
  | Ok a => k a
  | Raise e => Raise e
  end.

Notation "'let?' x ':=' r 'in' k" := (bind_result r (fun x => k))
  (at level 10, x pattern, r at level 100, k at level 200, only parsing).

Definition is_ok {A : Type} (r : result A) : bool :=
  match r with Ok _ => true | Raise _ => false end.

(** ** Strings *)

(** [sep.join(parts)] *)
Definition join (sep : string) (parts : list string) : string :=
  String.concat sep parts.

(** [s.endswith(suffix)] *)
Definition endswith (s suffix : string) : bool :=
  (String.length suffix <=? String.length s)%nat &&
  String.eqb
    (substring (String.length s - String.length suffix) (String.length suffix) s)
    suffix.

(** [s.startswith(prefix)] *)
Definition startswith (s pre : string) : bool := String.prefix pre s.

(** [s[:-n]] for [n > 0] *)
Definition drop_last (n : nat) (s : string) : string :=
  substring 0 (String.length s - n) s.

(** [s[1:]] *)
Definition drop_first (s : string) : string :=
  match s with
  | EmptyString => EmptyString
  | String _ rest => rest
  end.

(** [str.lower] on one character (the class names are ASCII). *)
Definition lower_char (c : ascii) : ascii :=
  let n := nat_of_ascii c in
  if ((65 <=? n) && (n <=? 90))%nat then ascii_of_nat (n + 32) else c.

Fixpoint lower (s : string) : string :=
  match s with
  | EmptyString => EmptyString
  | String c rest => String (lower_char c) (lower rest)
  end.

(** [s.split('.')[-1]]: the text after the last dot. *)
Fixpoint last_dot_segment_from (acc s : string) : string :=
  match s with
  | EmptyString => acc
  | String c rest =>
      if Ascii.eqb c "."%char
      then last_dot_segment_from EmptyString rest
      else last_dot_segment_from (acc +:+ String c EmptyString) rest
  end.

Definition last_dot_segment (s : string) : string :=
  last_dot_segment_from EmptyString s.

(** ** Classes and annotations *)

(** A class object: its identity (the module-qualified name), its
    [__name__], and the identities of its proper ancestors ([__mro__[1:]]). *)
Record pyclass : Type := mkClass {
  class_id : string;
  class_name : string;
  class_ancestors : list string
}.

(** [issubclass(c, k)] *)
Definition issubclass (c k : pyclass) : bool :=
  String.eqb (class_id c) (class_id k) ||
  existsb (String.eqb (class_id k)) (class_ancestors c).

(** [c is k] on class objects *)
Definition same_class (c k : pyclass) : bool :=
  String.eqb (class_id c) (class_id k).

(** [__origin__] of a subscripted generic other than [Union]. *)
Inductive origin : Type :=
| ODict                         (* dict *)
| OList                         (* list *)
| OSequence                     (* collections.abc.Sequence *)
| OOtherOrigin (name : string). (* tuple, set, Callable, ... *)

(** The objects that occur as annotations, or as attributes of the
    [aiplatform] module. *)
Inductive annotation : Type :=
| AClass (c : pyclass)
| ANone
| AStr (s : string)
| AForwardRef (arg : string)                        (* typing.ForwardRef(arg) *)
| AUnion (first : annotation) (rest : list annotation)
                                                    (* Union[first, rest...], Optional[first] *)
| AGeneric (o : origin) (args : list annotation)    (* List[...], Dict[...], ... *)
| AOther (descr : string).                          (* a module, a function, typing.Any, ... *)

(** [bool(a)]: [None] and the empty string are false, every other
    annotation object is true. *)
Definition truthy (a : annotation) : bool :=
  match a with
  | ANone => false
  | AStr s => negb (String.eqb s "")
  | _ => true
  end.

(** The classes the module names.  The classes of the SDK are no part
    of this repository: of their ancestors the model records the one the
    module tests for, [AiPlatformResourceNoun]. *)
Definition inspect_empty : pyclass :=
  mkClass "inspect._empty" "_empty" ["builtins.object"].

Definition str_class : pyclass :=
  mkClass "builtins.str" "str" ["builtins.object"].

Definition AiPlatformResourceNoun : pyclass :=
  mkClass "google.cloud.aiplatform.base.AiPlatformResourceNoun"
          "AiPlatformResourceNoun" ["builtins.object"].

Definition noun_ancestors : list string :=
  [class_id AiPlatformResourceNoun; "builtins.object"].

Definition Dataset_class : pyclass :=
  mkClass "google.cloud.aiplatform.datasets.dataset._Dataset" "_Dataset" noun_ancestors.

Definition Model_class : pyclass :=
  mkClass "google.cloud.aiplatform.models.Model" "Model" noun_ancestors.

Definition Endpoint_class : pyclass :=
  mkClass "google.cloud.aiplatform.models.Endpoint" "Endpoint" noun_ancestors.

Definition BatchPredictionJob_class : pyclass :=
  mkClass "google.cloud.aiplatform.jobs.BatchPredictionJob" "BatchPredictionJob"
          noun_ancestors.

(** prefix for keyword arguments to separate constructor and method args *)
Definition INIT_KEY : string := "init".
Definition METHOD_KEY : string := "method".

Definition DEFAULT_CONTAINER_IMAGE : string :=
  "gcr.io/sashaproject-1/aiplatform_component:latest".

(** map of MB SDK type to Metadata type, in the order of the dict literal *)
Definition RESOURCE_TO_METADATA_TYPE : list (pyclass * string) :=
  [ (Dataset_class, "Dataset");
    (Model_class, "Model");
    (Endpoint_class, "Artifact");
    (BatchPredictionJob_class, "Artifact") ].

(** [inspect.isclass(a)] followed by [issubclass(a, k)] *)
Definition is_subclass_of (a : annotation) (k : pyclass) : bool :=
  match a with
  | AClass c => issubclass c k
  | _ => false
  end.

Section Resolution.

(** [getattr(aiplatform, name, None)]: the attributes of the SDK's
    top-level module, [ANone] where there is none. *)
Variable aiplatform_getattr : string -> annotation.

Definition get_aiplatform_class_by_name (a : annotation) : annotation :=
  match a with
  | AStr s => aiplatform_getattr s
  | _ => ANone
  end.

Definition get_forward_reference (a : annotation) : annotation :=
  let ai_platform_class := get_aiplatform_class_by_name a in
  if truthy ai_platform_class then ai_platform_class
  else
    match a with
    | AForwardRef forward_arg =>
        let ai_platform_class := get_aiplatform_class_by_name (AStr forward_arg) in
        if truthy ai_platform_class then ai_platform_class else ANone
    | _ => ANone
    end.

Definition is_inspect_empty (a : annotation) : bool :=
  match a with
  | AClass c => same_class c inspect_empty
  | _ => false
  end.

Definition resolve_annotation (a : annotation) : annotation :=
  if is_subclass_of a AiPlatformResourceNoun then a
  else
    let resolved_annotation := get_forward_reference a in
    if truthy resolved_annotation then resolved_annotation
    else
      match a with
      | AUnion first _ =>
          let resolved_annotation := get_forward_reference first in
          if truthy resolved_annotation then resolved_annotation else first
      | _ => if is_inspect_empty a then ANone else a
      end.

End Resolution.

Definition is_serializable_to_json (a : annotation) : bool :=
  match a with
  | AGeneric ODict _ | AGeneric OList _ | AGeneric OSequence _ => true
  | _ => false
  end.

Definition is_mb_sdk_resource_noun_type (mb_sdk_type : annotation) : bool :=
  is_subclass_of mb_sdk_type AiPlatformResourceNoun.

(** [key.__name__.split('.')[-1].lower()], without a leading underscore *)
Definition parameter_name_of (key : pyclass) : string :=
  let parameter_name := lower (last_dot_segment (class_name key)) in
  if startswith parameter_name "_" then drop_first parameter_name else parameter_name.

(** The [for key in RESOURCE_TO_METADATA_TYPE.keys()] loop of
    [map_resource_to_metadata_type]: the first key that is a superclass. *)
Fixpoint first_matching_key (c : pyclass) (table : list (pyclass * string))
  : option (string * string) :=
  match table with
  | [] => None
  | (key, label) :: table' =>
      if issubclass c key then Some (parameter_name_of key, label)
      else first_matching_key c table'
  end.

Definition is_str_equal (a : annotation) (s : string) : bool :=
  match a with
  | AStr s' => String.eqb s' s
  | _ => false
  end.

(** [None] stands for the function falling off its end. *)
Definition map_resource_to_metadata_type (mb_sdk_type : annotation)
  : option (string * string) :=
  let in_table :=
    match mb_sdk_type with
    | AClass c =>
        if is_mb_sdk_resource_noun_type mb_sdk_type
        then first_matching_key c RESOURCE_TO_METADATA_TYPE
        else None
    | _ => None
    end in
  match in_table with
  | Some r => Some r
  | None =>
      if is_serializable_to_json mb_sdk_type then Some ("exported_dataset", "JsonArray")
      else if is_str_equal mb_sdk_type "_Dataset" then Some ("dataset", "Dataset")
      else None
  end.


(** ** Call-time values *)

(** The data [json.dumps] writes: Python's [None], [bool], [int], [str],
    [list], [dict] (keys are strings, in insertion order) and [tuple].
    A string is a sequence of code points U+0000..U+00FF.  A [float], and
    a [dict] with a key that is no string, are no values of this model. *)
Inductive json : Type :=
| JNull
| JBool (b : bool)
| JInt (z : Z)
| JStr (s : string)
| JList (items : list json)
| JDict (pairs : list (string * json))
| JTuple (items : list json).

(** A value passed to the generated wrapper, or the default of a parameter. *)
Inductive value : Type :=
| VData (j : json)                (* None, bool, int, str, list, dict, tuple *)
| VPipelineParam (name : string)  (* kfp.dsl._pipeline_param.PipelineParam *)
| VObject (descr : string).       (* an object json.dumps has no text for *)

Definition VNone : value := VData JNull.
Definition VStr (s : string) : value := VData (JStr s).

(** [v is None] *)
Definition is_None (v : value) : bool :=
  match v with
  | VData JNull => true
  | _ => false
  end.

(** [isinstance(v, kfp.dsl._pipeline_param.PipelineParam)] *)
Definition is_PipelineParam (v : value) : bool :=
  match v with
  | VPipelineParam _ => true
  | _ => false
  end.

(** A [dict] with string keys, in insertion order. *)
Definition dict (V : Type) : Type := list (string * V).

(** [d[k] = v]: an existing key keeps its place. *)
Fixpoint dict_set {V : Type} (d : dict V) (k : string) (v : V) : dict V :=
  match d with
  | [] => [(k, v)]
  | (k', v') :: d' =>
      if String.eqb k' k then (k, v) :: d' else (k', v') :: dict_set d' k v
  end.

(** [d.get(k)] *)
Fixpoint dict_get {V : Type} (d : dict V) (k : string) : option V :=
  match d with
  | [] => None
  | (k', v') :: d' => if String.eqb k' k then Some v' else dict_get d' k
  end.

(** [d.pop(k)]: the value and the remaining dict, [None] for a [KeyError]. *)
Fixpoint dict_pop {V : Type} (d : dict V) (k : string) : option (V * dict V) :=
  match d with
  | [] => None
  | (k', v') :: d' =>
      if String.eqb k' k then Some (v', d')
      else match dict_pop d' k with
           | Some (v, d'') => Some (v, (k', v') :: d'')
           | None => None
           end
  end.

Definition dict_keys {V : Type} (d : dict V) : list string := map fst d.

(** ** Signatures ([inspect.Parameter], [inspect.Signature]) *)

Inductive kind : Type :=
| POSITIONAL_ONLY
| POSITIONAL_OR_KEYWORD
| VAR_POSITIONAL
| KEYWORD_ONLY
| VAR_KEYWORD.

Definition kind_rank (k : kind) : nat :=
  match k with
  | POSITIONAL_ONLY => 0
  | POSITIONAL_OR_KEYWORD => 1
  | VAR_POSITIONAL => 2
  | KEYWORD_ONLY => 3
  | VAR_KEYWORD => 4
  end.

Definition kind_eqb (k1 k2 : kind) : bool := (kind_rank k1 =? kind_rank k2)%nat.

(** [param_default = None] is [inspect._empty]: the parameter is required. *)
Record Param : Type := mkParameter {
  param_name : string;
  param_kind : kind;
  param_default : option value;
  param_annotation : annotation
}.

Record Signature : Type := mkSignature {
  parameters : list Param;
  return_annotation : annotation
}.

Definition is_variadic (k : kind) : bool :=
  match k with
  | VAR_POSITIONAL | VAR_KEYWORD => true
  | _ => false
  end.

Definition is_positional (k : kind) : bool :=
  match k with
  | POSITIONAL_ONLY | POSITIONAL_OR_KEYWORD => true
  | _ => false
  end.

(** [keyword.kwlist] (CPython 3.7 to 3.11) *)
Definition kwlist : list string :=
  [ "False"; "None"; "True"; "and"; "as"; "assert"; "async"; "await"; "break";
    "class"; "continue"; "def"; "del"; "elif"; "else"; "except"; "finally";
    "for"; "from"; "global"; "if"; "import"; "in"; "is"; "lambda"; "nonlocal";
    "not"; "or"; "pass"; "raise"; "return"; "try"; "while"; "with"; "yield" ].

(** [keyword.iskeyword(name)] *)
Definition iskeyword (name : string) : bool := existsb (String.eqb name) kwlist.

(** The characters of [XID_Start] and of [XID_Continue] up to U+00FF. *)
Definition is_xid_start (c : ascii) : bool :=
  let n := nat_of_ascii c in
  (((65 <=? n) && (n <=? 90)) || ((97 <=? n) && (n <=? 122))
   || (n =? 170) || (n =? 181) || (n =? 186)
   || ((192 <=? n) && (n <=? 214)) || ((216 <=? n) && (n <=? 246))
   || ((248 <=? n) && (n <=? 255)))%nat.

Definition is_xid_continue (c : ascii) : bool :=
  let n := nat_of_ascii c in
  is_xid_start c || (((48 <=? n) && (n <=? 57)) || (n =? 95) || (n =? 183))%nat.

(** [name.isidentifier()] *)
Definition isidentifier (name : string) : bool :=
  match name with
  | EmptyString => false
  | String c rest =>
      (is_xid_start c || Ascii.eqb c "_"%char)
      && forallb is_xid_continue (list_ascii_of_string rest)
  end.

(** [s.isdigit()]: the decimal digits and the superscripts one, two and
    three. *)
Definition isdigit (s : string) : bool :=
  match s with
  | EmptyString => false
  | _ =>
      forallb (fun c => let n := nat_of_ascii c in
                        (((48 <=? n) && (n <=? 57))
                         || (n =? 178) || (n =? 179) || (n =? 185))%nat)
              (list_ascii_of_string s)
  end.

(** [inspect.Parameter(name=..., kind=..., default=..., annotation=...)]:
    a variadic parameter has no default; [name[0]] is read; a name of
    the form [.N], an implicit argument, turns into [implicitN],
    positional only; the name is an identifier and, unless the parameter
    is positional only, no keyword. *)
Definition new_Parameter (name : string) (k : kind) (default : option value)
    (ann : annotation) : result Param :=
  if is_variadic k && bool_decide (default <> None) then Raise ValueError
  else
    match name with
    | EmptyString => Raise IndexError
    | String c rest =>
        let? (k, name) :=
          (if Ascii.eqb c "."%char && isdigit rest then
             if kind_eqb k POSITIONAL_OR_KEYWORD
             then Ok (POSITIONAL_ONLY, "implicit" +:+ rest)
             else Raise ValueError
           else Ok (k, name)) in
        if (iskeyword name && negb (kind_eqb k POSITIONAL_ONLY)) || negb (isidentifier name)
        then Raise ValueError
        else Ok (mkParameter name k default ann)
    end.

(** The checks of [inspect.Signature(parameters=...)], in its loop:
    kinds do not decrease, within a positional kind no required
    parameter follows one with a default, and no name occurs twice. *)
Fixpoint validate_parameters (top_kind : kind) (kind_defaults : bool)
    (seen : list string) (params : list Param) : result unit :=
  match params with
  | [] => Ok tt
  | param :: params' =>
      let k := param_kind param in
      if (kind_rank k <? kind_rank top_kind)%nat then Raise ValueError
      else
        let kind_defaults :=
          if (kind_rank top_kind <? kind_rank k)%nat then false else kind_defaults in
        let top_kind := k in
        if is_positional k && bool_decide (param_default param = None) && kind_defaults
        then Raise ValueError
        else
          let kind_defaults :=
            if is_positional k && bool_decide (param_default param <> None)
            then true else kind_defaults in
          if existsb (String.eqb (param_name param)) seen then Raise ValueError
          else validate_parameters top_kind kind_defaults
                 (param_name param :: seen) params'
  end.

Definition new_Signature (params : list Param) (ret : annotation)
  : result Signature :=
  let? _ := validate_parameters POSITIONAL_ONLY false [] params in
  Ok (mkSignature params ret).

(** [Signature.bind] called with keyword arguments only (CPython 3.7
    to 3.11).  The second loop of [_bind]: every parameter takes its
    keyword argument out of [kwargs]. *)
Fixpoint bind_keywords (params : list Param) (kwargs : dict value)
    (kwargs_param : bool) : result (dict value * bool) :=
  match params with
  | [] => Ok (kwargs, kwargs_param)
  | param :: params' =>
      match param_kind param with
      | VAR_KEYWORD => bind_keywords params' kwargs true
      | VAR_POSITIONAL => bind_keywords params' kwargs kwargs_param
      | k =>
          match dict_pop kwargs (param_name param) with
          | None =>
              if bool_decide (param_default param = None)
              then Raise TypeError          (* missing a required argument *)
              else bind_keywords params' kwargs kwargs_param
          | Some (_, kwargs') =>
              if kind_eqb k POSITIONAL_ONLY
              then Raise TypeError          (* positional only, passed as keyword *)
              else bind_keywords params' kwargs' kwargs_param
          end
      end
  end.

(** The first loop of [_bind] meets no positional argument: it looks at
    the first parameter and hands the rest to the second loop. *)
Definition bind_first (params : list Param) (kwargs : dict value)
  : result (list Param) :=
  match params with
  | [] => Ok []
  | param :: params' =>
      if kind_eqb (param_kind param) VAR_POSITIONAL then Ok params'
      else if bool_decide (dict_get kwargs (param_name param) <> None) then
        if kind_eqb (param_kind param) POSITIONAL_ONLY then Raise TypeError
        else Ok (param :: params')
      else if kind_eqb (param_kind param) VAR_KEYWORD
              || bool_decide (param_default param <> None)
      then Ok (param :: params')
      else Raise TypeError                  (* missing a required argument *)
  end.

Definition Signature_bind (sig : Signature) (kwargs : dict value) : result unit :=
  let? params := bind_first (parameters sig) kwargs in
  let? (unbound, kwargs_param) := bind_keywords params kwargs false in
  match unbound with
  | [] => Ok tt
  | _ :: _ =>
      if kwargs_param then Ok tt
      else Raise TypeError                  (* unexpected keyword argument *)
  end.

(** [signature.parameters[key]] *)
Definition lookup_parameter (sig : Signature) (key : string) : result Param :=
  match find (fun p => String.eqb (param_name p) key) (parameters sig) with
  | Some p => Ok p
  | None => Raise KeyError
  end.

(** ** Signature filter and merger *)

Definition is_resource_name_parameter_name (param_name : string) : bool :=
  negb (String.eqb param_name "display_name") &&
  negb (endswith param_name "encryption_spec_key_name") &&
  endswith param_name "_name".

(** These parameters are filtered from MB SDK methods *)
Definition PARAMS_TO_REMOVE : gset string := {[ "self"; "credentials"; "sync" ]}.

(** The loop of [filter_signature].  [names] is the dict
    [component_param_name_to_mb_sdk_param_name], [None] when the caller
    leaves it out. *)
Fixpoint filter_parameters (params : list Param) (is_init_signature : bool)
    (self_type : annotation) (names : option (gmap string string))
  : result (list Param * option (gmap string string)) :=
  match params with
  | [] => Ok ([], names)
  | param :: params' =>
      if bool_decide (param_name param ∈ PARAMS_TO_REMOVE)
      then filter_parameters params' is_init_signature self_type names
      else if is_init_signature && is_resource_name_parameter_name (param_name param)
      then
        let new_name := drop_last (String.length "_name") (param_name param) in
        let? new_param := new_Parameter new_name (param_kind param)
                      (param_default param) self_type in
        let? names := match names with
                | Some m => Ok (Some (<[new_name := param_name param]> m))
                | None => Raise TypeError   (* None[new_name] = ... *)
                end in
        let? (new_params, names) :=
          filter_parameters params' is_init_signature self_type names in
        Ok (new_param :: new_params, names)
      else
        let? (new_params, names) :=
          filter_parameters params' is_init_signature self_type names in
        Ok (param :: new_params, names)
  end.

Definition filter_signature (sig : Signature) (is_init_signature : bool)
    (self_type : annotation) (names : option (gmap string string))
  : result (Signature * option (gmap string string)) :=
  let? (new_params, names) :=
    filter_parameters (parameters sig) is_init_signature self_type names in
  let? new_sig := new_Signature new_params (return_annotation sig) in
  Ok (new_sig, names).

(** The [key] of [signatures_union]: parameters without defaults first. *)
Definition union_key (param : Param) : Z :=
  match param_default param with
  | None => (-1)%Z
  | Some _ => 1%Z
  end.

(** [list.sort(key=...)] is stable: an element goes before the first
    of the elements that followed it whose key is not smaller. *)
Fixpoint insert_by_key {A : Type} (key : A -> Z) (x : A) (sorted : list A) : list A :=
  match sorted with
  | [] => [x]
  | y :: sorted' =>
      if (key x <=? key y)%Z then x :: y :: sorted'
      else y :: insert_by_key key x sorted'
  end.

Fixpoint sort_by_key {A : Type} (key : A -> Z) (l : list A) : list A :=
  match l with
  | [] => []
  | x :: l' => insert_by_key key x (sort_by_key key l')
  end.

Definition signatures_union (init_sig method_sig : Signature) : result Signature :=
  let params := sort_by_key union_key (parameters init_sig ++ parameters method_sig) in
  new_Signature params (return_annotation method_sig).

(** ** JSON text ([json.dumps] and [json.loads] with their defaults) *)

Module Json.

(** What reading a text gives: a value; the [ValueError] of a text that
    is no JSON; or nothing, where the value read is none of this model (a
    [float], a character above U+00FF). *)
Inductive reading (A : Type) : Type :=
| Read (a : A)
| Invalid
| Beyond.

Arguments Read {A} a.
Arguments Invalid {A}.
Arguments Beyond {A}.

Definition bind_reading {A B : Type} (r : reading A) (k : A -> reading B) : reading B :=
  match r with
  | Read a => k a
  | Invalid => Invalid
  | Beyond => Beyond
  end.

Notation "'let!' x ':=' r 'in' k" := (bind_reading r (fun x => k))
  (at level 10, x pattern, r at level 100, k at level 200, only parsing).

Definition quote : ascii := "034"%char.
Definition backslash : ascii := "092"%char.
Definition newline : ascii := "010"%char.

Definition str1 (c : ascii) : string := String c EmptyString.

(** One lower-case hexadecimal digit. *)
Definition hex_digit (n : nat) : ascii :=
  if (n <? 10)%nat then ascii_of_nat (48 + n) else ascii_of_nat (87 + n).

(** [ESCAPE_DCT] and the [\uXXXX] form of [encode_basestring_ascii]:
    everything outside the printable ASCII range is escaped. *)
Definition escape_char (c : ascii) : string :=
  let n := nat_of_ascii c in
  if (n =? 34)%nat then String backslash (str1 quote)
  else if (n =? 92)%nat then String backslash (str1 backslash)
  else if (n =? 8)%nat then String backslash "b"
  else if (n =? 12)%nat then String backslash "f"
  else if (n =? 10)%nat then String backslash "n"
  else if (n =? 13)%nat then String backslash "r"
  else if (n =? 9)%nat then String backslash "t"
  else if ((n <? 32) || (126 <? n))%nat
  then String backslash
         (String "u" (String "0" (String "0"
            (String (hex_digit (n / 16)) (str1 (hex_digit (n mod 16)))))))
  else str1 c.

Fixpoint escape_chars (s : string) : string :=
  match s with
  | EmptyString => EmptyString
  | String c rest => escape_char c +:+ escape_chars rest
  end.

Definition encode_string (s : string) : string :=
  String quote (escape_chars s +:+ str1 quote).

(** [str(z)] for an [int] *)
Definition string_of_Z (z : Z) : string :=
  DecimalString.NilZero.string_of_int (Z.to_int z).

(** [json.dumps(j)]: item separator [", "], key separator [": "]. *)
Fixpoint dumps (j : json) : string :=
  match j with
  | JNull => "null"
  | JBool true => "true"
  | JBool false => "false"
  | JInt z => string_of_Z z
  | JStr s => encode_string s
  | JList items | JTuple items => "[" +:+ join ", " (map dumps items) +:+ "]"
  | JDict pairs =>
      "{" +:+
      join ", " (map (fun kv => encode_string (fst kv) +:+ ": " +:+ dumps (snd kv)) pairs)
      +:+ "}"
  end.

(** *** Reading JSON text *)

(** The whitespace of [json.decoder]: space, tab, newline, carriage return. *)
Definition is_ws (c : ascii) : bool :=
  let n := nat_of_ascii c in
  ((n =? 32) || (n =? 9) || (n =? 10) || (n =? 13))%nat.

Fixpoint skip_ws (s : string) : string :=
  match s with
  | EmptyString => EmptyString
  | String c rest => if is_ws c then skip_ws rest else s
  end.

Definition is_digit (c : ascii) : bool :=
  let n := nat_of_ascii c in ((48 <=? n) && (n <=? 57))%nat.

Definition digit_of_char (c : ascii) : option (Decimal.uint -> Decimal.uint) :=
  match nat_of_ascii c - 48 with
  | 0 => if is_digit c then Some Decimal.D0 else None
  | 1 => Some Decimal.D1
  | 2 => Some Decimal.D2
  | 3 => Some Decimal.D3
  | 4 => Some Decimal.D4
  | 5 => Some Decimal.D5
  | 6 => Some Decimal.D6
  | 7 => Some Decimal.D7
  | 8 => Some Decimal.D8
  | 9 => Some Decimal.D9
  | _ => None
  end.

(** The longest run of digits at the head of [s], and what follows it. *)
Fixpoint scan_digits (s : string) : Decimal.uint * string :=
  match s with
  | EmptyString => (Decimal.Nil, EmptyString)
  | String c rest =>
      match digit_of_char c with
      | Some d => let (ds, rest') := scan_digits rest in (d ds, rest')
      | None => (Decimal.Nil, s)
      end
  end.

Definition starts_with_digit (s : string) : bool :=
  match s with
  | String c _ => is_digit c
  | EmptyString => false
  end.

(** Does a fraction or an exponent follow the integer part?  Then the
    number is a [float]. *)
Definition float_follows (s : string) : bool :=
  match s with
  | String c rest =>
      if Ascii.eqb c "."%char then starts_with_digit rest
      else if Ascii.eqb c "e"%char || Ascii.eqb c "E"%char then
        match rest with
        | String sign rest' =>
            if Ascii.eqb sign "+"%char || Ascii.eqb sign "-"%char
            then starts_with_digit rest'
            else is_digit sign
        | EmptyString => false
        end
      else false
  | EmptyString => false
  end.

(** [NUMBER_RE]: an optional sign, then [0] or a run of digits that does
    not begin with [0].  With a fraction or an exponent the number is a
    [float]. *)
Definition parse_number (s : string) : reading (json * string) :=
  let (negative, s1) :=
    match s with
    | String c rest => if Ascii.eqb c "-"%char then (true, rest) else (false, s)
    | EmptyString => (false, s)
    end in
  let finish (d : Decimal.uint) (rest : string) : reading (json * string) :=
    if float_follows rest then Beyond
    else Read (JInt (Z.of_int (if negative then Decimal.Neg d else Decimal.Pos d)), rest) in
  match s1 with
  | String c rest =>
      if Ascii.eqb c "0"%char then finish (Decimal.D0 Decimal.Nil) rest
      else if is_digit c then let (d, rest') := scan_digits s1 in finish d rest'
      else Invalid
  | EmptyString => Invalid
  end.

Definition hex_value (c : ascii) : option nat :=
  let n := nat_of_ascii c in
  if ((48 <=? n) && (n <=? 57))%nat then Some (n - 48)
  else if ((97 <=? n) && (n <=? 102))%nat then Some (n - 87)
  else if ((65 <=? n) && (n <=? 70))%nat then Some (n - 55)
  else None.

Definition hex4 (h1 h2 h3 h4 : ascii) : option nat :=
  match hex_value h1, hex_value h2, hex_value h3, hex_value h4 with
  | Some a, Some b, Some c, Some d => Some (((a * 16 + b) * 16 + c) * 16 + d)
  | _, _, _, _ => None
  end.

(** [BACKSLASH] of [json.decoder] *)
Definition unescape (c : ascii) : option ascii :=
  let n := nat_of_ascii c in
  if (n =? 34)%nat then Some quote
  else if (n =? 92)%nat then Some backslash
  else if (n =? 47)%nat then Some "/"%char
  else if (n =? 98)%nat then Some "008"%char
  else if (n =? 102)%nat then Some "012"%char
  else if (n =? 110)%nat then Some "010"%char
  else if (n =? 114)%nat then Some "013"%char
  else if (n =? 116)%nat then Some "009"%char
  else None.

(** [scanstring] in strict mode, from just after the opening quote.  A
    four-digit escape above [00ff] is a character of no string of this
    model. *)
Fixpoint scanstring (s : string) : reading (string * string) :=
  match s with
  | EmptyString => Invalid                 (* unterminated string *)
  | String c rest =>
      if Ascii.eqb c quote then Read (EmptyString, rest)
      else if Ascii.eqb c backslash then
        match rest with
        | EmptyString => Invalid
        | String esc rest1 =>
            if Ascii.eqb esc "u"%char then
              match rest1 with
              | String h1 (String h2 (String h3 (String h4 rest2))) =>
                  match hex4 h1 h2 h3 h4 with
                  | Some n =>
                      if (n <? 256)%nat then
                        let! (chars, rest') := scanstring rest2 in
                        Read (String (ascii_of_nat n) chars, rest')
                      else Beyond
                  | None => Invalid          (* invalid \uXXXX escape *)
                  end
              | _ => Invalid
              end
            else
              match unescape esc with
              | Some ch =>
                  let! (chars, rest') := scanstring rest1 in
                  Read (String ch chars, rest')
              | None => Invalid              (* invalid \escape *)
              end
        end
      else if (nat_of_ascii c <? 32)%nat then Invalid  (* control character *)
      else
        let! (chars, rest') := scanstring rest in
        Read (String c chars, rest')
  end.

(** [dict(pairs)]: a repeated key keeps its first place and its last value. *)
Definition dict_of_pairs (pairs : list (string * json)) : list (string * json) :=
  fold_left (fun d kv => dict_set d (fst kv) (snd kv)) pairs [].

(** [s[len(word):]] when [s] starts with [word] *)
Fixpoint strip_word (word s : string) : option string :=
  match word with
  | EmptyString => Some s
  | String w word' =>
      match s with
      | String c s' => if Ascii.eqb w c then strip_word word' s' else None
      | EmptyString => None
      end
  end.

(** [scan_once], [JSONArray] and [JSONObject]; [fuel] bounds the number
    of calls. *)
Fixpoint scan_once (fuel : nat) (s : string) : reading (json * string) :=
  match fuel with
  | 0 => Invalid
  | S fuel =>
      match s with
      | EmptyString => Invalid               (* expecting value *)
      | String c rest =>
          if Ascii.eqb c quote then
            let! (chars, rest') := scanstring rest in Read (JStr chars, rest')
          else if Ascii.eqb c "{"%char then
            match skip_ws rest with
            | String c' rest' =>
                if Ascii.eqb c' "}"%char then Read (JDict [], rest')
                else if Ascii.eqb c' quote then
                  let! (pairs, rest'') := object_items fuel rest' in
                  Read (JDict (dict_of_pairs pairs), rest'')
                else Invalid
            | EmptyString => Invalid
            end
          else if Ascii.eqb c "["%char then
            match skip_ws rest with
            | String c' rest' =>
                if Ascii.eqb c' "]"%char then Read (JList [], rest')
                else
                  let! (items, rest'') := array_items fuel (String c' rest') in
                  Read (JList items, rest'')
            | EmptyString => Invalid
            end
          else
            match strip_word "null" s, strip_word "true" s, strip_word "false" s with
            | Some rest', _, _ => Read (JNull, rest')
            | _, Some rest', _ => Read (JBool true, rest')
            | _, _, Some rest' => Read (JBool false, rest')
            | None, None, None =>
                (* [NUMBER_RE] matches none of the three constants, which
                   [parse_constant] reads as floats *)
                match strip_word "NaN" s, strip_word "Infinity" s,
                      strip_word "-Infinity" s with
                | None, None, None => parse_number s
                | _, _, _ => Beyond
                end
            end
      end
  end

with array_items (fuel : nat) (s : string) : reading (list json * string) :=
  match fuel with
  | 0 => Invalid
  | S fuel =>
      let! (item, s1) := scan_once fuel s in
      match skip_ws s1 with
      | String c rest =>
          if Ascii.eqb c "]"%char then Read ([item], rest)
          else if Ascii.eqb c ","%char then
            let! (items, rest') := array_items fuel (skip_ws rest) in
            Read (item :: items, rest')
          else Invalid                       (* expecting ',' delimiter *)
      | EmptyString => Invalid
      end
  end

with object_items (fuel : nat) (s : string) : reading (list (string * json) * string) :=
  match fuel with
  | 0 => Invalid
  | S fuel =>
      let! (key, s1) := scanstring s in
      match skip_ws s1 with
      | String c rest =>
          if Ascii.eqb c ":"%char then
            let! (item, s2) := scan_once fuel (skip_ws rest) in
            match skip_ws s2 with
            | String c' rest' =>
                if Ascii.eqb c' "}"%char then Read ([(key, item)], rest')
                else if Ascii.eqb c' ","%char then
                  match skip_ws rest' with
                  | String c'' rest'' =>
                      if Ascii.eqb c'' quote then
                        let! (pairs, rest3) := object_items fuel rest'' in
                        Read ((key, item) :: pairs, rest3)
                      else Invalid           (* expecting property name *)
                  | EmptyString => Invalid
                  end
                else Invalid                 (* expecting ',' delimiter *)
            | EmptyString => Invalid
            end
          else Invalid                       (* expecting ':' delimiter *)
      | EmptyString => Invalid
      end
  end.

(** [json.loads(s)]: one value, with whitespace around it and nothing else. *)
Definition loads (s : string) : reading json :=
  let! (j, rest) := scan_once (String.length s) (skip_ws s) in
  match skip_ws rest with
  | EmptyString => Read j
  | String _ _ => Invalid                    (* extra data *)
  end.

(** The values [json.loads] gives back: no tuple occurs in them; the
    keys of a [dict] are pairwise distinct, as in every [dict]. *)
Fixpoint wf (j : json) : Prop :=
  match j with
  | JList items =>
      (fix wf_items (l : list json) : Prop :=
         match l with
         | [] => True
         | x :: l' => wf x /\ wf_items l'
         end) items
  | JDict pairs =>
      List.NoDup (dict_keys pairs) /\
      (fix wf_pairs (l : list (string * json)) : Prop :=
         match l with
         | [] => True
         | kv :: l' => wf (snd kv) /\ wf_pairs l'
         end) pairs
  | JTuple _ => False
  | _ => True
  end.

(** The number of calls [scan_once] needs to read the text of a value. *)
Fixpoint cost (j : json) : nat :=
  match j with
  | JList items =>
      S ((fix cost_items (l : list json) : nat :=
            match l with
            | [] => 0
            | x :: l' => S (cost x) + cost_items l'
            end) items)
  | JDict pairs =>
      S ((fix cost_pairs (l : list (string * json)) : nat :=
            match l with
            | [] => 0
            | kv :: l' => S (cost (snd kv)) + cost_pairs l'
            end) pairs)
  | _ => 1
  end.

(** *** Notions for the round trip *)

(** What may follow a value in a JSON text that [dumps] writes. *)
Definition delimited (rest : string) : Prop :=
  match rest with
  | EmptyString => True
  | String c _ => c = ","%char \/ c = "]"%char \/ c = "}"%char
  end.

Definition cost_items (l : list json) : nat :=
  fold_right (fun x n => S (cost x) + n)%nat 0%nat l.

Definition cost_pairs (l : list (string * json)) : nat :=
  fold_right (fun kv n => S (cost (snd kv)) + n)%nat 0%nat l.

(** The text of a value begins with a character that is no whitespace
    and does not close an array. *)
Definition head_ok (s : string) : Prop :=
  match s with
  | String c _ => is_ws c = false /\ Ascii.eqb c "]"%char = false
  | EmptyString => False
  end.

(** Reading back the text of [j], with anything that may follow a value
    behind it. *)
Definition reads_back (j : json) : Prop :=
  wf j ->
  forall fuel rest,
    (cost j <= fuel)%nat ->
    delimited rest ->
    scan_once fuel (dumps j +:+ rest) = Read (j, rest).

(** The text of the pairs of an object, from just after the quote that
    opens the first key. *)
Fixpoint pairs_text (pairs : list (string * json)) (rest : string) : string :=
  match pairs with
  | [] => EmptyString
  | kv :: pairs' =>
      escape_chars (fst kv) +:+
      String quote
        (String ":" (String " "
           (dumps (snd kv) +:+
            match pairs' with
            | [] => String "}" rest
            | _ :: _ => String "," (String " " (String quote (pairs_text pairs' rest)))
            end)))
  end.

Definition pair_text (kv : string * json) : string :=
  encode_string (fst kv) +:+ ": " +:+ dumps (snd kv).

End Json.

(** [json.dumps(v)]: a [TypeError] for an object it has no text for. *)
Definition json_dumps (v : value) : result value :=
  match v with
  | VData j => Ok (VStr (Json.dumps j))
  | _ => Raise TypeError
  end.

(** [json.loads(v)]: the argument is a [str].  [None] where the value
    read is none of this model. *)
Definition json_loads (v : value) : option (result value) :=
  match v with
  | VData (JStr s) =>
      match Json.loads s with
      | Json.Read j => Some (Ok (VData j))
      | Json.Invalid => Some (Raise ValueError)
      | Json.Beyond => None
      end
  | _ => Some (Raise TypeError)
  end.

Definition get_serializer (a : annotation) : option (value -> result value) :=
  if is_serializable_to_json a then Some json_dumps else None.

Definition get_deserializer (a : annotation)
  : option (value -> option (result value)) :=
  if is_serializable_to_json a then Some json_loads else None.

(** ** The component wrapper *)

(** What [convert_method_to_component] reads of its arguments: of [cls]
    its class object and [inspect.signature(cls.__init__)]; of [method]
    its [__name__], [inspect.signature(method)] and
    [inspect.isfunction(method)]. *)
Record sdk_class : Type := mkSdkClass {
  class_object : pyclass;
  class_init_signature : Signature
}.

Record sdk_method : Type := mkSdkMethod {
  method_object_name : string;
  method_object_signature : Signature;
  method_isfunction : bool
}.

(** The variables [component_yaml_generator] closes over, and the
    [__signature__] it is given. *)
Record component : Type := mkComponent {
  cls_name : string;
  method_name : string;
  init_signature : Signature;
  method_signature : Signature;
  should_serialize_init : bool;
  component_param_name_to_mb_sdk_param_name : gmap string string;
  init_arg_names : gset string;
  outputs : string;
  output_args : string;
  component_signature : Signature
}.

(** The local variables of one call of [component_yaml_generator];
    [serialized_init] and [serialized_method] are
    [serialized_args[INIT_KEY]] and [serialized_args[METHOD_KEY]]. *)
Record generator_state : Type := mkState {
  inputs : list string;
  input_args : list string;
  input_kwargs : dict value;
  serialized_init : dict value;
  serialized_method : dict value;
  init_kwargs : dict value;
  method_kwargs : dict value
}.

Definition initial_state : generator_state :=
  mkState ["inputs:"] [] [] [] [] [] [].

(** What a call that raises nothing does: it prints [component_text],
    loads it and calls the loaded component with [input_kwargs]. *)
Record manifest : Type := mkManifest {
  component_text : string;
  loaded_with : dict value
}.

Definition nl : string := Json.str1 Json.newline.

Section Generator.

Variable aiplatform_getattr : string -> annotation.

(** [str(v)], as an f-string interpolates a value. *)
Variable py_str : value -> string.

Definition output_declaration (output_type : annotation) : result (string * string) :=
  if truthy output_type then
    match map_resource_to_metadata_type output_type with
    | Some (output_metadata_name, output_metadata_type) =>
        Ok (join nl [ "outputs:";
                      "- {name: " +:+ output_metadata_name +:+ ", type: "
                        +:+ output_metadata_type +:+ "}" ],
            join nl [ "    - --resource_name_output_artifact_path";
                      "    - {outputPath: " +:+ output_metadata_name +:+ "}" ])
    | None => Raise TypeError     (* cannot unpack non-iterable NoneType object *)
    end
  else Ok ("", "").

(** [convert_method_to_component] up to the wrapper's [__signature__];
    the docstring it attaches afterwards is not part of this model. *)
Definition convert_method_to_component (cls : sdk_class) (method : sdk_method)
  : result component :=
  let should_serialize_init := method_isfunction method in
  let? (method_signature, _) :=
    filter_signature (method_object_signature method) false ANone None in
  let? (init_signature, names) :=
    filter_signature (class_init_signature cls) true (AClass (class_object cls))
      (Some ∅) in
  let init_arg_names : gset string :=
    if should_serialize_init
    then list_to_set (map param_name (parameters init_signature))
    else ∅ in
  let output_type :=
    resolve_annotation aiplatform_getattr (return_annotation method_signature) in
  let? (outputs, output_args) := output_declaration output_type in
  let? sig := (if should_serialize_init
               then signatures_union init_signature method_signature
               else Ok method_signature) in
  Ok (mkComponent (class_name (class_object cls)) (method_object_name method)
        init_signature method_signature should_serialize_init
        (default ∅ names) init_arg_names outputs output_args sig).

Definition make_args_lines (key : string) (args : dict value) : list string :=
  map (fun kv => "    - --" +:+ key +:+ "." +:+ fst kv +:+ "=" +:+ py_str (snd kv)) args.

Definition make_args (serialized_init serialized_method : dict value) : string :=
  join nl (make_args_lines INIT_KEY serialized_init
           ++ make_args_lines METHOD_KEY serialized_method).

Section Wrapper.

Variable c : component.

(** The type and the binding of a parameter that becomes an input. *)
Definition input_type_and_binding (param_type : annotation) : result (string * string) :=
  if is_mb_sdk_resource_noun_type param_type then
    match map_resource_to_metadata_type param_type with
    | Some (_, metadata_type) => Ok (metadata_type, "inputPath")
    | None => Raise TypeError     (* 'NoneType' object is not subscriptable *)
    end
  else Ok ("String", "inputValue").

(** One turn of the loop [for key, value in kwargs.items()]. *)
Definition process_kwarg (st : generator_state) (key : string) (value : value)
  : result generator_state :=
  let is_init := bool_decide (key ∈ init_arg_names c) in
  let prefix_key := if is_init then INIT_KEY else METHOD_KEY in
  let st :=
    if is_init
    then mkState (inputs st) (input_args st) (input_kwargs st)
           (serialized_init st) (serialized_method st)
           (dict_set (init_kwargs st) key value) (method_kwargs st)
    else mkState (inputs st) (input_args st) (input_kwargs st)
           (serialized_init st) (serialized_method st)
           (init_kwargs st) (dict_set (method_kwargs st) key value) in
  let sig := if is_init then init_signature c else method_signature c in
  if is_None value then Ok st
  else
    let? param := lookup_parameter sig key in
    let param_type := resolve_annotation aiplatform_getattr (param_annotation param) in
    let serializer := get_serializer param_type in
    let? (param_type, value) :=
      match serializer with
      | Some serialize =>
          let? value := serialize value in Ok (AClass str_class, value)
      | None => Ok (param_type, value)
      end in
    let component_param_name :=
      default key (component_param_name_to_mb_sdk_param_name c !! key) in
    if is_PipelineParam value || bool_decide (serializer <> None) then
      let? (component_param_type, component_type) :=
        input_type_and_binding param_type in
      Ok (mkState
            (inputs st ++ ["- {name: " +:+ key +:+ ", type: "
                             +:+ component_param_type +:+ "}"])
            (input_args st ++
               [join nl [ "    - --" +:+ prefix_key +:+ "." +:+ component_param_name;
                          "    - {" +:+ component_type +:+ ": " +:+ key +:+ "}" ]])
            (dict_set (input_kwargs st) key value)
            (serialized_init st) (serialized_method st)
            (init_kwargs st) (method_kwargs st))
    else if is_init then
      Ok (mkState (inputs st) (input_args st) (input_kwargs st)
            (dict_set (serialized_init st) component_param_name value)
            (serialized_method st) (init_kwargs st) (method_kwargs st))
    else
      Ok (mkState (inputs st) (input_args st) (input_kwargs st)
            (serialized_init st)
            (dict_set (serialized_method st) component_param_name value)
            (init_kwargs st) (method_kwargs st)).

Fixpoint process_kwargs (st : generator_state) (kwargs : dict value)
  : result generator_state :=
  match kwargs with
  | [] => Ok st
  | (key, value) :: kwargs' =>
      let? st := process_kwarg st key value in
      process_kwargs st kwargs'
  end.

(** validate parameters *)
Definition validate (st : generator_state) : result unit :=
  let? _ := (if should_serialize_init c
             then Signature_bind (init_signature c) (init_kwargs st)
             else Ok tt) in
  Signature_bind (method_signature c) (method_kwargs st).

Definition render (st : generator_state) : string :=
  let inputs :=
    if (1 <? length (inputs st))%nat then join nl (inputs st) else "" in
  let input_args :=
    match input_args st with
    | [] => ""
    | _ => join nl (input_args st)
    end in
  join nl
    [ "name: " +:+ cls_name c +:+ "-" +:+ method_name c;
      inputs;
      outputs c;
      "implementation:";
      "  container:";
      "    image: " +:+ DEFAULT_CONTAINER_IMAGE;
      "    command:";
      "    - python3";
      "    - -m";
      "    - google_cloud_components.aiplatform.remote_runner";
      "    - --cls_name=" +:+ cls_name c;
      "    - --method_name=" +:+ method_name c;
      make_args (serialized_init st) (serialized_method st);
      "    args:";
      output_args c;
      input_args ].

Definition component_yaml_generator (kwargs : dict value) : result manifest :=
  let? st := process_kwargs initial_state kwargs in
  let? _ := validate st in
  Ok (mkManifest (render st) (input_kwargs st)).

End Wrapper.

End Generator.

(** ** The metadata-type test *)

Definition should_be_metadata_type (mb_sdk_type : annotation) : bool :=
  match mb_sdk_type with
  | AClass c => issubclass c AiPlatformResourceNoun     (* inspect.isclass *)
  | _ => false
  end.

(** ** Docstrings ([docstring_parser]) *)

(** What the module reads of a parsed docstring.  A description may be
    [None]. *)
Record DocstringParam : Type := mkDocstringParam {
  arg_name : string;
  param_description : option string
}.

Record DocstringReturns : Type := mkDocstringReturns {
  returns_description : option string
}.

Record DocstringRaises : Type := mkDocstringRaises {
  type_name : option string;
  raises_description : option string
}.

Record Docstring : Type := mkDocstring {
  short_description : option string;
  long_description : option string;
  docstring_params : list DocstringParam;
  docstring_returns : option DocstringReturns;
  docstring_raises : list DocstringRaises
}.

(** What [generate_docstring] raises: the exceptions of the parser other
    than [ValueError], and the [AttributeError] of [None.replace]. *)
Inductive docstring_exn : Type :=
| ParserRaised (e : exn)
| AttributeError.

(** [str(s)] in an f-string, for an optional string *)
Definition str_of_optional (s : option string) : string := default "None" s.

(** [bool(s)] for an optional string *)
Definition truthy_str (s : option string) : bool :=
  match s with
  | Some s => negb (String.eqb s "")
  | None => false
  end.

(** [s.replace("\n", "\n        ")] *)
Fixpoint indent_continuation (s : string) : string :=
  match s with
  | EmptyString => EmptyString
  | String c rest =>
      if Ascii.eqb c Json.newline
      then String c ("        " +:+ indent_continuation rest)
      else String c (indent_continuation rest)
  end.

(** [{p.arg_name: p.description for p in parsed_docstring.params}] *)
Definition args_dict_of (parsed : Docstring) : dict (option string) :=
  fold_left (fun d p => dict_set d (arg_name p) (param_description p))
            (docstring_params parsed) [].

(** The loop of [filter_docstring_args]. *)
Fixpoint filter_docstring_params (params : list Param) (is_init_signature : bool)
    (args_dict : dict (option string)) (new_args_dict : dict string) : dict string :=
  match params with
  | [] => new_args_dict
  | param :: params' =>
      if bool_decide (param_name param ∈ PARAMS_TO_REMOVE)
      then filter_docstring_params params' is_init_signature args_dict new_args_dict
      else
        let new_arg_name :=
          if is_init_signature && is_resource_name_parameter_name (param_name param)
          then drop_last (String.length "_name") (param_name param)
          else param_name param in
        match dict_get args_dict (param_name param) with
        | Some (Some description) =>
            if String.eqb description ""
            then filter_docstring_params params' is_init_signature args_dict new_args_dict
            else filter_docstring_params params' is_init_signature args_dict
                   (dict_set new_args_dict new_arg_name description)
        | _ => filter_docstring_params params' is_init_signature args_dict new_args_dict
        end
  end.

(** One entry of the Args section, and the entries appended to [doc]. *)
Definition docstring_entry (kv : string * string) : string :=
  "    " +:+ fst kv +:+ ":" +:+ nl +:+ "        " +:+ indent_continuation (snd kv) +:+ nl.

Definition add_entries (doc : string) (args_dict : dict string) : string :=
  fold_left (fun doc kv => doc +:+ docstring_entry kv) args_dict doc.

Section Docstrings.

(** [docstring_parser.parse], on what [inspect.getdoc] returns. *)
Variable docstring_parser_parse : option string -> result Docstring.

Definition filter_docstring_args (signature : Signature) (docstring : option string)
    (is_init_signature : bool) : result (dict string) :=
  match docstring_parser_parse docstring with
  | Raise ValueError => Ok []
  | Raise e => Raise e
  | Ok parsed_docstring =>
      Ok (filter_docstring_params (parameters signature) is_init_signature
            (args_dict_of parsed_docstring) [])
  end.

Definition generate_docstring (args_dict : dict string) (signature : Signature)
    (method_docstring : option string) : option string + docstring_exn :=
  match docstring_parser_parse method_docstring with
  | Raise ValueError => inl method_docstring
  | Raise e => inr (ParserRaised e)
  | Ok parsed_docstring =>
      let doc := str_of_optional (short_description parsed_docstring) +:+ nl in
      let doc :=
        if truthy_str (long_description parsed_docstring)
        then doc +:+ str_of_optional (long_description parsed_docstring) +:+ nl
        else doc in
      let doc :=
        match args_dict with
        | [] => doc
        | _ :: _ => add_entries (doc +:+ "Args:" +:+ nl) args_dict
        end in
      match
        match docstring_returns parsed_docstring with
        | Some returns =>
            match returns_description returns with
            | Some description =>
                inl (doc +:+ "Returns:" +:+ nl
                         +:+ "        " +:+ indent_continuation description +:+ nl)
            | None => inr AttributeError
            end
        | None => inl doc
        end
      with
      | inr e => inr e
      | inl doc =>
          match docstring_raises parsed_docstring with
          | [] => inl (Some doc)
          | _ :: _ => inl (Some (add_entries (doc +:+ "Raises:" +:+ nl) args_dict))
          end
      end
  end.

End Docstrings.

(** ** Sample SDK data *)

(** The attributes of the [aiplatform] module this repository names:
    the classes of [RESOURCE_TO_METADATA_TYPE] that are reached as
    [aiplatform.X], and the submodules [aiplatform.base] and
    [aiplatform.datasets]. *)
Definition sample_getattr (name : string) : annotation :=
  if String.eqb name "Model" then AClass Model_class
  else if String.eqb name "Endpoint" then AClass Endpoint_class
  else if String.eqb name "BatchPredictionJob" then AClass BatchPredictionJob_class
  else if String.eqb name "base" then AOther "module google.cloud.aiplatform.base"
  else if String.eqb name "datasets" then AOther "module google.cloud.aiplatform.datasets"
  else ANone.

(** [repr(c)] inside a string in the quotes [quote_char]: the quote and
    the backslash are escaped, and what is not printable is written as
    [\t], [\n], [\r] or [\xNN]. *)
Definition repr_char (quote_char c : ascii) : string :=
  let n := nat_of_ascii c in
  if Ascii.eqb c quote_char || Ascii.eqb c Json.backslash
  then String Json.backslash (Json.str1 c)
  else if (n =? 9)%nat then String Json.backslash "t"
  else if (n =? 10)%nat then String Json.backslash "n"
  else if (n =? 13)%nat then String Json.backslash "r"
  else if ((n <? 32) || (n =? 127) || ((128 <=? n) && (n <=? 160)) || (n =? 173))%nat
  then String Json.backslash
         (String "x" (String (Json.hex_digit (n / 16)) (Json.str1 (Json.hex_digit (n mod 16)))))
  else Json.str1 c.

Fixpoint repr_chars (quote_char : ascii) (s : string) : string :=
  match s with
  | EmptyString => EmptyString
  | String c rest => repr_char quote_char c +:+ repr_chars quote_char rest
  end.

(** [repr(s)]: in single quotes, in double quotes when the string holds
    a single quote and no double quote. *)
Definition repr_str (s : string) : string :=
  let chars := list_ascii_of_string s in
  let quote_char :=
    if existsb (Ascii.eqb "'"%char) chars && negb (existsb (Ascii.eqb Json.quote) chars)
    then Json.quote else "'"%char in
  String quote_char (repr_chars quote_char s +:+ Json.str1 quote_char).

(** [repr(j)] *)
Fixpoint py_repr (j : json) : string :=
  match j with
  | JNull => "None"
  | JBool true => "True"
  | JBool false => "False"
  | JInt z => Json.string_of_Z z
  | JStr s => repr_str s
  | JList items => "[" +:+ join ", " (map py_repr items) +:+ "]"
  | JDict pairs =>
      "{" +:+
      join ", " (map (fun kv => repr_str (fst kv) +:+ ": " +:+ py_repr (snd kv)) pairs)
      +:+ "}"
  | JTuple items =>
      match items with
      | [item] => "(" +:+ py_repr item +:+ ",)"
      | _ => "(" +:+ join ", " (map py_repr items) +:+ ")"
      end
  end.

(** [str(v)] for the sample calls: a string is its own text, other data
    is written as [repr] writes it, a pipeline parameter as its
    placeholder, another object as its description. *)
Definition sample_str (v : value) : string :=
  match v with
  | VData (JStr s) => s
  | VData j => py_repr j
  | VPipelineParam name => "{{pipelineparam:op=;name=" +:+ name +:+ "}}"
  | VObject descr => descr
  end.

Definition Optional (a : annotation) : annotation := AUnion a [ANone].

Definition required (name : string) (ann : annotation) : Param :=
  mkParameter name POSITIONAL_OR_KEYWORD None ann.

Definition optional (name : string) (ann : annotation) (default : value) : Param :=
  mkParameter name POSITIONAL_OR_KEYWORD (Some default) ann.

(** [aiplatform.Model.__init__(self, model_name, project, location, credentials)] *)
Definition sample_Model : sdk_class :=
  mkSdkClass Model_class
    (mkSignature
       [ required "self" (AClass inspect_empty);
         required "model_name" (AClass str_class);
         optional "project" (Optional (AClass str_class)) VNone;
         optional "location" (Optional (AClass str_class)) VNone;
         optional "credentials" (Optional (AOther "Credentials")) VNone ]
       (AClass inspect_empty)).

(** A [deploy] method in the shape of the example of the docstring of
    [convert_method_to_component]. *)
Definition sample_deploy : sdk_method :=
  mkSdkMethod "deploy"
    (mkSignature
       [ required "self" (AClass inspect_empty);
         optional "endpoint" (Optional (AStr "Endpoint")) VNone;
         optional "deployed_model_display_name" (Optional (AClass str_class)) VNone;
         optional "machine_type" (Optional (AClass str_class)) VNone;
         optional "labels"
           (Optional (AGeneric ODict [AClass str_class; AClass str_class])) VNone;
         optional "sync" (AClass (mkClass "builtins.bool" "bool" ["builtins.int"; "builtins.object"]))
           (VData (JBool true)) ]
       (AClass Endpoint_class))
    true.

Definition sample_deploy_kwargs : dict value :=
  [ ("project", VPipelineParam "project");
    ("endpoint", VPipelineParam "endpoint");
    ("model", VPipelineParam "model");
    ("deployed_model_display_name", VStr "my-deployed-model");
    ("machine_type", VStr "n1-standard-4") ].

(** A constructor and a method that both take [project]. *)
Definition sample_init_with_project : Signature :=
  mkSignature [ required "model" (AClass Model_class);
                optional "project" (Optional (AClass str_class)) VNone ]
              (AClass inspect_empty).

Definition sample_method_with_project : Signature :=
  mkSignature [ required "instances" (AGeneric OList [AOther "typing.Any"]);
                optional "project" (Optional (AClass str_class)) VNone ]
              (AClass inspect_empty).

(** A constructor and a method with distinct parameter names. *)
Definition sample_init_filtered : Signature :=
  mkSignature [ required "model" (AClass Model_class);
                optional "project" (Optional (AClass str_class)) VNone;
                optional "location" (Optional (AClass str_class)) VNone ]
              (AClass inspect_empty).

Definition sample_method_filtered : Signature :=
  mkSignature [ optional "endpoint" (Optional (AStr "Endpoint")) VNone;
                required "traffic_percentage" (AClass (mkClass "builtins.int" "int" ["builtins.object"]));
                optional "machine_type" (Optional (AClass str_class)) VNone ]
              (AClass Endpoint_class).

(** A constructor that takes a model and, besides, the name of one. *)
Definition sample_init_model_twice : Signature :=
  mkSignature [ required "self" (AClass inspect_empty);
                required "model" (AClass Model_class);
                required "model_name" (AClass str_class) ]
              (AClass inspect_empty).

(** A constructor that takes the name of a class,
    [__init__(self, class_name: str)]. *)
Definition sample_init_class_name : Signature :=
  mkSignature [ required "self" (AClass inspect_empty);
                required "class_name" (AClass str_class) ]
              (AClass inspect_empty).

(** The wrapper generated for the sample [Model.deploy]. *)
Definition empty_component : component :=
  mkComponent "" "" (mkSignature [] ANone) (mkSignature [] ANone) false ∅ ∅ "" ""
    (mkSignature [] ANone).

Definition sample_component : component :=
  match convert_method_to_component sample_getattr sample_Model sample_deploy with
  | Ok c => c
  | Raise _ => empty_component
  end.

(** A class method that takes any keyword, [export(cls, **kwargs)];
    the signature of the bound method leaves [cls] out. *)
Definition sample_export : sdk_method :=
  mkSdkMethod "export"
    (mkSignature
       [ mkParameter "kwargs" VAR_KEYWORD None (AClass inspect_empty) ]
       (AClass inspect_empty))
    false.

Definition sample_export_component : component :=
  match convert_method_to_component sample_getattr sample_Model sample_export with
  | Ok c => c
  | Raise _ => empty_component
  end.

(** [aiplatform.Endpoint] with a [predict] that returns a [Prediction],
    a named tuple. *)
Definition sample_Endpoint : sdk_class :=
  mkSdkClass Endpoint_class
    (mkSignature
       [ required "self" (AClass inspect_empty);
         required "endpoint_name" (AClass str_class);
         optional "project" (Optional (AClass str_class)) VNone;
         optional "location" (Optional (AClass str_class)) VNone;
         optional "credentials" (Optional (AOther "Credentials")) VNone ]
       (AClass inspect_empty)).

Definition Prediction_class : pyclass :=
  mkClass "google.cloud.aiplatform.models.Prediction" "Prediction"
          ["builtins.tuple"; "builtins.object"].

Definition sample_predict : sdk_method :=
  mkSdkMethod "predict"
    (mkSignature
       [ required "self" (AClass inspect_empty);
         required "instances" (AGeneric OList [AOther "typing.Any"]);
         optional "parameters"
           (Optional (AGeneric ODict [AClass str_class; AOther "typing.Any"])) VNone ]
       (AClass Prediction_class))
    true.

(** The same method without a return annotation. *)
Definition sample_predict_unannotated : sdk_method :=
  mkSdkMethod "predict"
    (mkSignature (parameters (method_object_signature sample_predict))
                 (AClass inspect_empty))
    true.

(** ** The statements of the specification, as functions *)

(** The annotation resolver as the specification words it: a string or
    a [ForwardRef] counts when it names a resource-noun class. *)
Definition named_resource_noun (getattr : string -> annotation) (a : annotation)
  : option annotation :=
  match a with
  | AStr s | AForwardRef s =>
      if is_mb_sdk_resource_noun_type (getattr s) then Some (getattr s) else None
  | _ => None
  end.

Definition resolve_annotation_spec (getattr : string -> annotation) (a : annotation)
  : annotation :=
  if is_mb_sdk_resource_noun_type a then a
  else
    match named_resource_noun getattr a with
    | Some noun => noun
    | None =>
        match a with
        | AUnion first _ => default first (named_resource_noun getattr first)
        | _ => if is_inspect_empty a then ANone else a
        end
    end.

(** What the resolver computes: any attribute of the module that is
    true as a condition takes the place of the resource-noun class. *)
Definition named_attribute (getattr : string -> annotation) (a : annotation)
  : option annotation :=
  match a with
  | AStr s | AForwardRef s => if truthy (getattr s) then Some (getattr s) else None
  | _ => None
  end.

Definition resolve_annotation_by_attribute (getattr : string -> annotation) (a : annotation)
  : annotation :=
  if is_mb_sdk_resource_noun_type a then a
  else
    match named_attribute getattr a with
    | Some attr => attr
    | None =>
        match a with
        | AUnion first _ => default first (named_attribute getattr first)
        | _ => if is_inspect_empty a then ANone else a
        end
    end.

(** The signature filter as the specification words it. *)
Definition kept (p : Param) : Prop := param_name p ∉ PARAMS_TO_REMOVE.

#[global] Instance kept_dec p : Decision (kept p).
Proof. unfold kept. apply _. Defined.

Definition is_renamed (is_init_signature : bool) (p : Param) : bool :=
  is_init_signature && is_resource_name_parameter_name (param_name p).

Definition component_name (is_init_signature : bool) (p : Param) : string :=
  if is_renamed is_init_signature p
  then drop_last (String.length "_name") (param_name p)
  else param_name p.

Definition component_parameter (is_init_signature : bool) (self_type : annotation)
    (p : Param) : Param :=
  if is_renamed is_init_signature p
  then mkParameter (component_name is_init_signature p) (param_kind p)
         (param_default p) self_type
  else p.

(** A name [inspect.Parameter] accepts for a parameter of that kind. *)
Definition parameter_name_ok (k : kind) (name : string) : bool :=
  isidentifier name && negb (iskeyword name && negb (kind_eqb k POSITIONAL_ONLY)).

(** The name a kept parameter is renamed to is one [inspect.Parameter]
    accepts. *)
Definition renamed_name_ok (is_init_signature : bool) (p : Param) : Prop :=
  kept p -> is_renamed is_init_signature p = true ->
  parameter_name_ok (param_kind p) (component_name is_init_signature p) = true.

Definition filtered_parameters (is_init_signature : bool) (self_type : annotation)
    (params : list Param) : list Param :=
  map (component_parameter is_init_signature self_type) (filter kept params).

(** The entries the filter adds to the rename dictionary, in order. *)
Fixpoint recorded_names (is_init_signature : bool) (params : list Param)
    (m : gmap string string) : gmap string string :=
  match params with
  | [] => m
  | p :: params' =>
      recorded_names is_init_signature params'
        (if bool_decide (kept p) && is_renamed is_init_signature p
         then <[component_name is_init_signature p := param_name p]> m
         else m)
  end.

(** What the constructors of [inspect.Parameter] and [inspect.Signature]
    guarantee of a signature object. *)
Definition wf_parameter (p : Param) : Prop :=
  is_variadic (param_kind p) = true -> param_default p = None.

Definition wf_signature (sig : Signature) : Prop :=
  Forall wf_parameter (parameters sig) /\
  validate_parameters POSITIONAL_ONLY false [] (parameters sig) = Ok tt.

(** [l'] keeps some parameters of [l], in order, with their kinds and
    defaults. *)
Inductive subparams : list Param -> list Param -> Prop :=
| subparams_nil : subparams [] []
| subparams_drop p l' l : subparams l' l -> subparams l' (p :: l)
| subparams_keep p' p l' l :
    param_kind p' = param_kind p ->
    param_default p' = param_default p ->
    subparams l' l ->
    subparams (p' :: l') (p :: l).

(** The classification of a keyword argument as the specification
    words it: an input with its type, its binding and the value passed
    on, or a static command-line argument.  [None]: no classification
    (the value has no JSON text, or the class has no artifact label). *)
Inductive classification : Type :=
| AsInput (component_param_type component_type : string) (passed : value)
| AsStatic.

Definition classify (param_type : annotation) (v : value) : option classification :=
  if is_serializable_to_json param_type then
    match v with
    | VData j => Some (AsInput "String" "inputValue" (VStr (Json.dumps j)))
    | _ => None
    end
  else if is_PipelineParam v then
    if is_mb_sdk_resource_noun_type param_type then
      match map_resource_to_metadata_type param_type with
      | Some (_, metadata_type) => Some (AsInput metadata_type "inputPath" v)
      | None => None
      end
    else Some (AsInput "String" "inputValue" v)
  else Some AsStatic.

(** The lines of the manifest that an input contributes. *)
Definition input_line (key component_param_type : string) : string :=
  "- {name: " +:+ key +:+ ", type: " +:+ component_param_type +:+ "}".

Definition input_arg (prefix_key component_param_name component_type key : string)
  : string :=
  join nl [ "    - --" +:+ prefix_key +:+ "." +:+ component_param_name;
            "    - {" +:+ component_type +:+ ": " +:+ key +:+ "}" ].


(** The static arguments of a state, as [make_args] lists them. *)
Definition static_args (py_str : value -> string) (st : generator_state) : list string :=
  make_args_lines py_str INIT_KEY (serialized_init st)
  ++ make_args_lines py_str METHOD_KEY (serialized_method st).

(** The scope of a keyword argument, and the name it has for the SDK. *)
Definition is_init_key (c : component) (key : string) : bool :=
  bool_decide (key ∈ init_arg_names c).

Definition prefix_of (c : component) (key : string) : string :=
  if is_init_key c key then INIT_KEY else METHOD_KEY.

Definition signature_of (c : component) (key : string) : Signature :=
  if is_init_key c key then init_signature c else method_signature c.

Definition component_param_name_of (c : component) (key : string) : string :=
  default key (component_param_name_to_mb_sdk_param_name c !! key).

(** The two sets the keyword arguments are partitioned into. *)
Definition init_partition (c : component) (kwargs : dict value) : dict value :=
  List.filter (fun kv => is_init_key c (fst kv)) kwargs.

Definition method_partition (c : component) (kwargs : dict value) : dict value :=
  List.filter (fun kv => negb (is_init_key c (fst kv))) kwargs.

(** The state of a call with one more entry among the inputs, or among
    the static arguments. *)
Definition with_input (c : component) (st : generator_state) (key : string)
    (component_param_type component_type : string) (passed : value) : generator_state :=
  mkState (inputs st ++ [input_line key component_param_type])
          (input_args st ++ [input_arg (prefix_of c key) (component_param_name_of c key)
                               component_type key])
          (dict_set (input_kwargs st) key passed)
          (serialized_init st) (serialized_method st)
          (init_kwargs st) (method_kwargs st).

Definition with_static (c : component) (st : generator_state) (key : string)
    (v : value) : generator_state :=
  if is_init_key c key
  then mkState (inputs st) (input_args st) (input_kwargs st)
         (dict_set (serialized_init st) (component_param_name_of c key) v)
         (serialized_method st) (init_kwargs st) (method_kwargs st)
  else mkState (inputs st) (input_args st) (input_kwargs st)
         (serialized_init st)
         (dict_set (serialized_method st) (component_param_name_of c key) v)
         (init_kwargs st) (method_kwargs st).

(** The state with the keyword argument noted in its partition. *)
Definition with_kwarg (c : component) (st : generator_state) (key : string)
    (v : value) : generator_state :=
  if is_init_key c key
  then mkState (inputs st) (input_args st) (input_kwargs st)
         (serialized_init st) (serialized_method st)
         (dict_set (init_kwargs st) key v) (method_kwargs st)
  else mkState (inputs st) (input_args st) (input_kwargs st)
         (serialized_init st) (serialized_method st)
         (init_kwargs st) (dict_set (method_kwargs st) key v).

(** Two states that render the same manifest and pass on the same inputs. *)
Definition same_output (st1 st2 : generator_state) : Prop :=
  inputs st1 = inputs st2 /\
  input_args st1 = input_args st2 /\
  input_kwargs st1 = input_kwargs st2 /\
  serialized_init st1 = serialized_init st2 /\
  serialized_method st1 = serialized_method st2.

Definition same_output_result (r1 r2 : result generator_state) : Prop :=
  match r1, r2 with
  | Ok st1, Ok st2 => same_output st1 st2
  | Raise e1, Raise e2 => e1 = e2
  | _, _ => False
  end.

(** The text of a call's manifest, or the exception of the call. *)
Definition manifest_text (r : result manifest) : result string :=
  let? m := r in Ok (component_text m).





(** Has the signature a parameter that takes any keyword? *)
Definition has_var_keyword (sig : Signature) : bool :=
  existsb (fun p => kind_eqb (param_kind p) VAR_KEYWORD) (parameters sig).

(** Notions for the validation of merged parameters. *)
Definition has_no_default (p : Param) : Prop := param_default p = None.

#[global] Instance has_no_default_dec p : Decision (has_no_default p).
Proof. unfold has_no_default. apply _. Defined.

Definition fresh_name (seen : list string) (p : Param) : Prop :=
  existsb (String.eqb (param_name p)) seen = false.

(** Pairwise distinct names, none of them seen before. *)
Fixpoint distinct_names (seen : list string) (params : list Param) : Prop :=
  match params with
  | [] => True
  | p :: params' => fresh_name seen p /\ distinct_names (param_name p :: seen) params'
  end.

(** A resource noun that the mapping table does not list. *)
Definition CustomJob_class : pyclass :=
  mkClass "google.cloud.aiplatform.jobs.CustomJob" "CustomJob" noun_ancestors.

(** A class method that takes a job, [cancel(cls, job: CustomJob)]. *)
Definition sample_cancel : sdk_method :=
  mkSdkMethod "cancel"
    (mkSignature [ required "job" (AClass CustomJob_class) ] (AClass inspect_empty))
    false.

(** The component of [Model.cancel]. *)
Definition sample_cancel_component : component :=
  match convert_method_to_component sample_getattr sample_Model sample_cancel with
  | Ok c => c
  | Raise _ => empty_component
  end.

(** A call that passes a model and labels. *)
Definition sample_labels : json := JDict [("team", JStr "vision"); ("tier", JInt 2)].

Definition sample_labelled_kwargs : dict value :=
  [ ("model", VPipelineParam "model"); ("labels", VData sample_labels) ].

(** A Google-style docstring of the sample constructor, parsed. *)
Definition sample_init_docstring : Docstring :=
  mkDocstring (Some "Retrieves the model resource.") None
    [ mkDocstringParam "model_name" (Some "Required. A fully-qualified model resource name.");
      mkDocstringParam "project" (Some "Optional project to retrieve model from.");
      mkDocstringParam "location" None;
      mkDocstringParam "credentials" (Some "Custom credentials.") ]
    None [].

(** A docstring with a Raises section, parsed. *)
Definition sample_deploy_docstring : Docstring :=
  mkDocstring (Some "Deploys model to endpoint.") None
    [ mkDocstringParam "endpoint" (Some "Optional. Endpoint to deploy model to.");
      mkDocstringParam "machine_type" (Some "Optional. The type of machine.") ]
    (Some (mkDocstringReturns (Some "endpoint: Endpoint with the deployed model.")))
    [ mkDocstringRaises (Some "ValueError") (Some "If there is not current traffic split.") ].

(** ** Further statements about the module, as functions *)

(** The kinds of a parameter list do not decrease. *)
Definition kinds_in_order (params : list Param) : Prop :=
  StronglySorted
    (fun p q => (kind_rank (param_kind p) <= kind_rank (param_kind q))%nat) params.

(** The names of a signature object are identifiers: what
    [inspect.Parameter] makes sure of. *)
Definition identifier_names (params : list Param) : Prop :=
  Forall (fun p => isidentifier (param_name p) = true) params.

(** The pairs the mapper returns. *)
Definition metadata_types : list (string * string) :=
  [ ("dataset", "Dataset");
    ("model", "Model");
    ("endpoint", "Artifact");
    ("batchpredictionjob", "Artifact");
    ("exported_dataset", "JsonArray") ].

(** Every parameter that is no [*args] or [**kwargs] has a default. *)
Definition all_optional (sig : Signature) : bool :=
  forallb (fun p => is_variadic (param_kind p) || bool_decide (param_default p <> None))
          (parameters sig).

(** An argument line of the method partition. *)
Definition method_prefixed (line : string) : Prop :=
  startswith line "    - --method." = true.

(** An input of a manifest: its key, its type and its binding. *)
Record declared_input : Type := mkInput {
  declared_key : string;
  declared_type : string;
  declared_binding : string
}.

(** Its line in the inputs section and its pair of argument lines. *)
Definition declared_line (e : declared_input) : string :=
  input_line (declared_key e) (declared_type e).

Definition declared_arg (c : component) (e : declared_input) : string :=
  input_arg (prefix_of c (declared_key e)) (component_param_name_of c (declared_key e))
    (declared_binding e) (declared_key e).

(** Does a turn of the loop accept the argument? *)
Definition accepted (getattr : string -> annotation) (c : component)
    (kv : string * value) : bool :=
  is_ok (process_kwarg getattr c initial_state (fst kv) (snd kv)).

(** The entry of [input_kwargs] an argument gives rise to. *)
Definition passed_input (getattr : string -> annotation) (c : component)
    (kv : string * value) : option (string * value) :=
  if is_None (snd kv) then None
  else
    match lookup_parameter (signature_of c (fst kv)) (fst kv) with
    | Ok p =>
        match classify (resolve_annotation getattr (param_annotation p)) (snd kv) with
        | Some (AsInput _ _ passed) => Some (fst kv, passed)
        | _ => None
        end
    | Raise _ => None
    end.

(** A dict without the key [k]. *)
Definition without_key {V} (k : string) (d : dict V) : dict V :=
  List.filter (fun kv => negb (String.eqb (fst kv) k)) d.

(** The description of the last entry of the docstring with that name. *)
Definition described (parsed : Docstring) (name : string) : option string :=
  match find (fun p => String.eqb (arg_name p) name) (rev (docstring_params parsed)) with
  | Some p => param_description p
  | None => None
  end.

(** Is the parameter kept, and does the docstring describe it? *)
Definition documented (parsed : Docstring) (p : Param) (d : string) : Prop :=
  kept p /\ described parsed (param_name p) = Some d /\ d <> "".

(** * Properties *)

(** ** The model on the examples of the source *)

Example map_Model :
  map_resource_to_metadata_type (AClass Model_class) = Some ("model", "Model").
Proof. reflexivity. Qed.

(** The manifest of the example in the docstring of
    [convert_method_to_component], with the image and the command of
    the code. *)
Example sample_deploy_manifest :
  manifest_text
    (component_yaml_generator sample_getattr sample_str sample_component
       sample_deploy_kwargs)
  = Ok (join nl
          [ "name: Model-deploy";
            "inputs:";
            "- {name: project, type: String}";
            "- {name: endpoint, type: Artifact}";
            "- {name: model, type: Model}";
            "outputs:";
            "- {name: endpoint, type: Artifact}";
            "implementation:";
            "  container:";
            "    image: gcr.io/sashaproject-1/aiplatform_component:latest";
            "    command:";
            "    - python3";
            "    - -m";
            "    - google_cloud_components.aiplatform.remote_runner";
            "    - --cls_name=Model";
            "    - --method_name=deploy";
            "    - --method.deployed_model_display_name=my-deployed-model";
            "    - --method.machine_type=n1-standard-4";
            "    args:";
            "    - --resource_name_output_artifact_path";
            "    - {outputPath: endpoint}";
            "    - --init.project";
            "    - {inputValue: project}";
            "    - --method.endpoint";
            "    - {inputPath: endpoint}";
            "    - --init.model_name";
            "    - {inputPath: model}" ]).
Proof. vm_compute. reflexivity. Qed.

(** [str] of data that is no string is what [repr] writes, not the JSON
    text: [True] and [None], single quotes, a trailing comma in a tuple
    of one item. *)
Example sample_str_data :
  sample_str (VData (JDict [("env", JList [JBool true; JNull; JStr "it's"; JTuple [JInt (-1)]])]))
  = "{'env': [True, None, " +:+ Json.str1 Json.quote +:+ "it's" +:+ Json.str1 Json.quote
    +:+ ", (-1,)]}" /\
  Json.dumps (JDict [("env", JList [JBool true; JNull; JStr "it's"; JTuple [JInt (-1)]])])
  = "{" +:+ Json.encode_string "env" +:+ ": [true, null, " +:+ Json.encode_string "it's"
    +:+ ", [-1]]}".
Proof. vm_compute. split; reflexivity. Qed.

Example map_Dataset :
  map_resource_to_metadata_type (AClass Dataset_class) = Some ("dataset", "Dataset").
Proof. reflexivity. Qed.

Example dumps_sample :
  Json.dumps (JDict [("a", JList [JInt 1; JInt (-20); JBool true]); ("b", JStr "x")])
  = "{" +:+ Json.encode_string "a" +:+ ": [1, -20, true], "
        +:+ Json.encode_string "b" +:+ ": " +:+ Json.encode_string "x" +:+ "}".
Proof. reflexivity. Qed.


(** ** Annotation resolver *)

Lemma get_forward_reference_named getattr a :
  get_forward_reference getattr a = default ANone (named_attribute getattr a).
Proof.
  unfold get_forward_reference, named_attribute, get_aiplatform_class_by_name.
  destruct a; simpl; try reflexivity.
  - destruct (truthy (getattr s)); reflexivity.
  - destruct (truthy (getattr arg)); reflexivity.
Qed.

Lemma named_attribute_truthy getattr a attr :
  named_attribute getattr a = Some attr -> truthy attr = true.
Proof.
  unfold named_attribute.
  destruct a; try discriminate;
    (destruct (truthy (getattr _)) eqn:E; [intros [= <-]; exact E | discriminate]).
Qed.

Lemma resolve_annotation_unfold getattr a :
  resolve_annotation getattr a = resolve_annotation_by_attribute getattr a.
Proof.
  unfold resolve_annotation, resolve_annotation_by_attribute, is_mb_sdk_resource_noun_type.
  destruct (is_subclass_of a AiPlatformResourceNoun); [reflexivity|].
  rewrite get_forward_reference_named.
  destruct (named_attribute getattr a) as [attr|] eqn:Ha; simpl.
  - rewrite (named_attribute_truthy _ _ _ Ha). reflexivity.
  - destruct a; try reflexivity.
    rewrite get_forward_reference_named.
    destruct (named_attribute getattr a) as [attr|] eqn:Hf; simpl.
    + rewrite (named_attribute_truthy _ _ _ Hf). reflexivity.
    + reflexivity.
Qed.

(** C5 fails on the code: the string ["base"] names the submodule
    [aiplatform.base], which is no resource-noun class; the
    specification, like the docstring of [get_forward_reference], leaves
    such an annotation unchanged, and the resolver returns the module.
    The direct path of the resolver checks [issubclass], the path
    through the name does not. *)
Theorem resolve_annotation_module_attribute :
  is_mb_sdk_resource_noun_type (sample_getattr "base") = false /\
  resolve_annotation_spec sample_getattr (AStr "base") = AStr "base" /\
  resolve_annotation sample_getattr (AStr "base")
    = AOther "module google.cloud.aiplatform.base" /\
  resolve_annotation sample_getattr (AStr "base")
    <> resolve_annotation_spec sample_getattr (AStr "base").
Proof. repeat split; try reflexivity. discriminate. Qed.

(** Where the module holds nothing but resource-noun classes under the
    names used, the resolver is the one of the specification. *)
Lemma resolve_annotation_spec_on_nouns (getattr : string -> annotation) :
  (forall s, truthy (getattr s) = true ->
             is_mb_sdk_resource_noun_type (getattr s) = true) ->
  forall a, resolve_annotation getattr a = resolve_annotation_spec getattr a.
Proof.
  intros Hns a. rewrite resolve_annotation_unfold.
  assert (Hnamed : forall b, named_attribute getattr b = named_resource_noun getattr b).
  { intros b. unfold named_attribute, named_resource_noun.
    destruct b; try reflexivity.
    - destruct (truthy (getattr s)) eqn:E.
      + rewrite (Hns _ E). reflexivity.
      + destruct (getattr s); try discriminate; reflexivity.
    - destruct (truthy (getattr arg)) eqn:E.
      + rewrite (Hns _ E). reflexivity.
      + destruct (getattr arg); try discriminate; reflexivity. }
  unfold resolve_annotation_by_attribute, resolve_annotation_spec.
  rewrite Hnamed. destruct a; try reflexivity.
  rewrite Hnamed. reflexivity.
Qed.

(** ** Type-to-artifact mapper *)

Lemma first_matching_key_Some c table name label :
  first_matching_key c table = Some (name, label) ->
  exists key, In (key, label) table /\ issubclass c key = true /\
              name = parameter_name_of key.
Proof.
  induction table as [|[key' label'] table IH]; simpl; [discriminate|].
  destruct (issubclass c key') eqn:E.
  - intros [= <- <-]. exists key'. auto.
  - intros H. destruct (IH H) as (key & Hin & Hsub & Hname). exists key. auto.
Qed.

Lemma first_matching_key_None c table :
  first_matching_key c table = None ->
  forall key label, In (key, label) table -> issubclass c key = false.
Proof.
  induction table as [|[key' label'] table IH]; simpl; [tauto|].
  destruct (issubclass c key') eqn:E; [discriminate|].
  intros H key label [[= <- <-]|Hin]; eauto.
Qed.

(** No key of the table is a subclass of another key. *)
Lemma table_keys_unrelated key label key' label' :
  In (key, label) RESOURCE_TO_METADATA_TYPE ->
  In (key', label') RESOURCE_TO_METADATA_TYPE ->
  issubclass key' key = true -> key' = key.
Proof.
  unfold RESOURCE_TO_METADATA_TYPE. simpl.
  intros H H'.
  repeat (destruct H as [[= <- <-]|H]; [|]); try contradiction;
    repeat (destruct H' as [[= <- <-]|H']; [|]); try contradiction;
    vm_compute; congruence.
Qed.

(** The lookup of a resource-noun class that has a superclass among the
    keys of the table. *)
Lemma map_resource_in_table c :
  issubclass c AiPlatformResourceNoun = true ->
  (exists key label, In (key, label) RESOURCE_TO_METADATA_TYPE /\
                     issubclass c key = true) ->
  exists key label,
    In (key, label) RESOURCE_TO_METADATA_TYPE /\
    issubclass c key = true /\
    map_resource_to_metadata_type (AClass c) = Some (parameter_name_of key, label).
Proof.
  intros Hnoun (key0 & label0 & Hin0 & Hsub0).
  unfold map_resource_to_metadata_type, is_mb_sdk_resource_noun_type.
  cbn [is_subclass_of]. rewrite Hnoun.
  destruct (first_matching_key c RESOURCE_TO_METADATA_TYPE) as [[name label]|] eqn:E.
  - destruct (first_matching_key_Some _ _ _ _ E) as (key & Hin & Hsub & ->).
    exists key, label. repeat split; assumption.
  - rewrite (first_matching_key_None _ _ E _ _ Hin0) in Hsub0. discriminate.
Qed.

(** C2, as amended: a resource-noun class that has a superclass among
    the keys of the table maps to the pair of such a key: the key's name
    in lower case without a leading underscore, and its label; no key
    of the table that is a superclass of the type lies strictly below
    the chosen one.  A JSON-serializable container type maps to
    [("exported_dataset", "JsonArray")], the string ["_Dataset"] maps
    to [("dataset", "Dataset")], and every other type that is no
    resource-noun class maps to nothing. *)
Theorem map_resource_to_metadata_type_amended (t : annotation) :
  (forall c, t = AClass c ->
     issubclass c AiPlatformResourceNoun = true ->
     (exists key label, In (key, label) RESOURCE_TO_METADATA_TYPE /\
                        issubclass c key = true) ->
     exists key label,
       In (key, label) RESOURCE_TO_METADATA_TYPE /\
       issubclass c key = true /\
       map_resource_to_metadata_type t = Some (parameter_name_of key, label) /\
       (forall key' label', In (key', label') RESOURCE_TO_METADATA_TYPE ->
          issubclass c key' = true -> issubclass key' key = true -> key' = key)) /\
  (is_serializable_to_json t = true ->
     map_resource_to_metadata_type t = Some ("exported_dataset", "JsonArray")) /\
  (t = AStr "_Dataset" ->
     map_resource_to_metadata_type t = Some ("dataset", "Dataset")) /\
  (is_mb_sdk_resource_noun_type t = false ->
   is_serializable_to_json t = false ->
   t <> AStr "_Dataset" ->
     map_resource_to_metadata_type t = None).
Proof.
  repeat split.
  - intros c -> Hnoun Hkey.
    destruct (map_resource_in_table c Hnoun Hkey) as (key & label & Hin & Hsub & Hmap).
    exists key, label. repeat split; auto.
    intros key' label' Hin' _ Hsub'. eapply table_keys_unrelated; eauto.
  - intros Hser. unfold map_resource_to_metadata_type. rewrite Hser.
    destruct t; try discriminate. reflexivity.
  - intros ->. reflexivity.
  - intros Hnoun Hser Hne.
    unfold map_resource_to_metadata_type. rewrite Hnoun, Hser.
    destruct t; try reflexivity.
    simpl. destruct (String.eqb s "_Dataset") eqn:E; [|reflexivity].
    apply String.eqb_eq in E. subst. congruence.
Qed.

(** The theorem at [TabularDataset], a subclass of [_Dataset]. *)
Lemma map_resource_to_metadata_type_amended_witness :
  exists key label,
    In (key, label) RESOURCE_TO_METADATA_TYPE /\
    map_resource_to_metadata_type
      (AClass (mkClass "google.cloud.aiplatform.datasets.tabular_dataset.TabularDataset"
                 "TabularDataset" (class_id Dataset_class :: noun_ancestors)))
    = Some (parameter_name_of key, label).
Proof.
  destruct (map_resource_to_metadata_type_amended
              (AClass (mkClass "google.cloud.aiplatform.datasets.tabular_dataset.TabularDataset"
                 "TabularDataset" (class_id Dataset_class :: noun_ancestors))))
    as (H & _).
  destruct (H _ eq_refl) as (key & label & Hin & _ & Hmap & _).
  - reflexivity.
  - exists Dataset_class, "Dataset". split; [left; reflexivity | reflexivity].
  - exists key, label. split; assumption.
Defined.

(** C2, as the specification states it, fails: the string ["_Dataset"]
    is neither a resource-noun class nor a container type, and the
    mapper returns a pair for it. *)
Lemma map_resource_to_metadata_type_counterexample :
  is_mb_sdk_resource_noun_type (AStr "_Dataset") = false /\
  is_serializable_to_json (AStr "_Dataset") = false /\
  map_resource_to_metadata_type (AStr "_Dataset") = Some ("dataset", "Dataset") /\
  map_resource_to_metadata_type (AStr "_Dataset") <> None.
Proof. repeat split; try reflexivity. discriminate. Qed.

(** ** Signature merger *)

Lemma union_key_no_default p : has_no_default p -> union_key p = (-1)%Z.
Proof. unfold has_no_default, union_key. intros ->. reflexivity. Qed.

Lemma union_key_default p : ~ has_no_default p -> union_key p = 1%Z.
Proof. unfold has_no_default, union_key. destruct (param_default p); congruence. Qed.

(** A required parameter goes to the front of a sorted list. *)
Lemma insert_no_default x l :
  has_no_default x ->
  insert_by_key union_key x (filter has_no_default l ++ filter (fun p => ~ has_no_default p) l)
  = x :: filter has_no_default l ++ filter (fun p => ~ has_no_default p) l.
Proof.
  intros Hx.
  destruct (filter has_no_default l ++ filter (fun p => ~ has_no_default p) l)
    as [|y rest]; [reflexivity|].
  simpl. rewrite (union_key_no_default x Hx).
  destruct (decide (has_no_default y)) as [Hy|Hy].
  - rewrite (union_key_no_default y Hy). reflexivity.
  - rewrite (union_key_default y Hy). reflexivity.
Qed.

(** A parameter with a default goes behind the required ones, and before
    the parameters with defaults that followed it. *)
Lemma insert_default x required defaulted :
  ~ has_no_default x ->
  Forall has_no_default required ->
  Forall (fun p => ~ has_no_default p) defaulted ->
  insert_by_key union_key x (required ++ defaulted) = required ++ x :: defaulted.
Proof.
  intros Hx Hreq Hdef.
  induction Hreq as [|y required Hy _ IH]; simpl.
  - destruct Hdef as [|z defaulted Hz _]; [reflexivity|].
    simpl. rewrite (union_key_default x Hx), (union_key_default z Hz). reflexivity.
  - rewrite (union_key_default x Hx), (union_key_no_default y Hy). simpl.
    rewrite IH. reflexivity.
Qed.

Lemma Forall_filter_self {A} (P : A -> Prop) `{forall x, Decision (P x)} (l : list A) :
  Forall P (filter P l).
Proof.
  apply Forall_forall. intros x Hx.
  apply list_elem_of_filter in Hx. tauto.
Qed.

(** The stable sort by [union_key] is a stable partition. *)
Lemma sort_by_union_key l :
  sort_by_key union_key l
  = filter has_no_default l ++ filter (fun p => ~ has_no_default p) l.
Proof.
  induction l as [|x l IH]; [reflexivity|].
  simpl. rewrite IH.
  destruct (decide (has_no_default x)) as [Hx|Hx].
  - rewrite insert_no_default by assumption.
    rewrite (filter_cons_True has_no_default) by assumption.
    rewrite (filter_cons_False (fun p => ~ has_no_default p)) by tauto.
    reflexivity.
  - rewrite insert_default; try assumption; try apply Forall_filter_self.
    rewrite (filter_cons_False has_no_default) by assumption.
    rewrite (filter_cons_True (fun p => ~ has_no_default p)) by assumption.
    reflexivity.
Qed.

Lemma fresh_name_iff seen p : fresh_name seen p <-> ~ In (param_name p) seen.
Proof.
  unfold fresh_name. rewrite <- not_true_iff_false, existsb_exists.
  split; intros H.
  - intros Hin. apply H. exists (param_name p). split; [assumption|].
    apply String.eqb_refl.
  - intros (n & Hin & Heq). apply String.eqb_eq in Heq. subst. auto.
Qed.

Lemma distinct_names_NoDup seen params :
  NoDup (map param_name params) ->
  (forall p, In p params -> ~ In (param_name p) seen) ->
  distinct_names seen params.
Proof.
  revert seen. induction params as [|p params IH]; intros seen Hnd Hseen; simpl; [exact I|].
  apply NoDup_cons in Hnd as [Hp Hnd]. split.
  - apply fresh_name_iff, Hseen. left. reflexivity.
  - apply IH; [assumption|].
    intros q Hq [Heq|Hin].
    + apply Hp. rewrite Heq. apply list_elem_of_In, in_map, Hq.
    + apply (Hseen q); [right; assumption | assumption].
Qed.

Lemma validate_defaulted params : forall top kind_defaults seen,
  (kind_rank top <= 1)%nat ->
  Forall (fun p => param_kind p = POSITIONAL_OR_KEYWORD /\ ~ has_no_default p) params ->
  distinct_names seen params ->
  validate_parameters top kind_defaults seen params = Ok tt.
Proof.
  induction params as [|p params IH]; intros top kd seen Htop Hall Hnames; [reflexivity|].
  apply Forall_cons in Hall as [[Hk Hd] Hall]. destruct Hnames as [Hfresh Hnames].
  simpl. rewrite Hk. simpl.
  destruct (Nat.ltb_spec 1 (kind_rank top)) as [Hlt|_]; [lia|].
  unfold has_no_default in Hd.
  rewrite (bool_decide_eq_false_2 _ Hd). simpl.
  rewrite Hfresh. apply IH; auto.
Qed.

Lemma validate_required_then_defaulted required defaulted : forall top kind_defaults seen,
  (kind_rank top <= 1)%nat ->
  (kind_rank top = 1%nat -> kind_defaults = false) ->
  Forall (fun p => param_kind p = POSITIONAL_OR_KEYWORD /\ has_no_default p) required ->
  Forall (fun p => param_kind p = POSITIONAL_OR_KEYWORD /\ ~ has_no_default p) defaulted ->
  distinct_names seen (required ++ defaulted) ->
  validate_parameters top kind_defaults seen (required ++ defaulted) = Ok tt.
Proof.
  induction required as [|p required IH]; intros top kd seen Htop Hkd Hreq Hdef Hnames.
  - apply validate_defaulted; assumption.
  - apply Forall_cons in Hreq as [[Hk Hd] Hreq]. destruct Hnames as [Hfresh Hnames].
    simpl. rewrite Hk. simpl.
    destruct (Nat.ltb_spec 1 (kind_rank top)) as [Hlt|_]; [lia|].
    assert (Hkd' : (if (kind_rank top <? 1)%nat then false else kd) = false).
    { destruct (Nat.ltb_spec (kind_rank top) 1); [reflexivity|]. apply Hkd. lia. }
    rewrite Hkd'. rewrite andb_false_r.
    unfold has_no_default in Hd. rewrite Hd. simpl.
    rewrite Hfresh. apply IH; auto.
Qed.

Lemma signatures_union_unfold init_sig method_sig :
  Forall (fun p => param_kind p = POSITIONAL_OR_KEYWORD)
         (parameters init_sig ++ parameters method_sig) ->
  NoDup (map param_name (parameters init_sig ++ parameters method_sig)) ->
  signatures_union init_sig method_sig
  = Ok (mkSignature
          (filter has_no_default (parameters init_sig ++ parameters method_sig)
           ++ filter (fun p => ~ has_no_default p)
                (parameters init_sig ++ parameters method_sig))
          (return_annotation method_sig)).
Proof.
  intros Hkind Hnames. unfold signatures_union, new_Signature.
  set (all := parameters init_sig ++ parameters method_sig) in *.
  rewrite sort_by_union_key.
  rewrite validate_required_then_defaulted; simpl; try reflexivity; try lia; try discriminate.
  - apply Forall_forall. intros p Hp. apply list_elem_of_filter in Hp as [Hd Hp].
    split; [|assumption]. rewrite Forall_forall in Hkind. auto.
  - apply Forall_forall. intros p Hp. apply list_elem_of_filter in Hp as [Hd Hp].
    split; [|assumption]. rewrite Forall_forall in Hkind. auto.
  - apply distinct_names_NoDup; [|intros ? ? []].
    assert (Hperm := Permutation_map param_name
                       (filter_app_complement has_no_default all)).
    rewrite Hperm. exact Hnames.
Qed.

(** C4, as amended: when every parameter of the two signatures is
    positional-or-keyword and no name occurs twice among them, the
    merger returns a signature; its parameters are the constructor's
    followed by the method's, rearranged so that those without a default
    precede those with one, each of the two groups in the order of the
    concatenation, and its return annotation is the method's. *)
Theorem signatures_union_amended (init_sig method_sig : Signature) :
  Forall (fun p => param_kind p = POSITIONAL_OR_KEYWORD)
         (parameters init_sig ++ parameters method_sig) ->
  NoDup (map param_name (parameters init_sig ++ parameters method_sig)) ->
  exists sig,
    signatures_union init_sig method_sig = Ok sig /\
    return_annotation sig = return_annotation method_sig /\
    parameters sig ≡ₚ parameters init_sig ++ parameters method_sig /\
    (exists required defaulted,
        parameters sig = required ++ defaulted /\
        Forall (fun p => param_default p = None) required /\
        Forall (fun p => param_default p <> None) defaulted) /\
    filter (fun p => param_default p = None) (parameters sig)
      = filter (fun p => param_default p = None)
          (parameters init_sig ++ parameters method_sig) /\
    filter (fun p => param_default p <> None) (parameters sig)
      = filter (fun p => param_default p <> None)
          (parameters init_sig ++ parameters method_sig).
Proof.
  intros Hkind Hnames.
  eexists. split; [apply signatures_union_unfold; assumption|].
  cbn [return_annotation parameters].
  set (all := parameters init_sig ++ parameters method_sig).
  split; [reflexivity|]. split; [apply filter_app_complement|].
  split; [|split].
  - exists (filter has_no_default all), (filter (fun p => ~ has_no_default p) all).
    split; [reflexivity|]. split; apply Forall_filter_self.
  - change (fun p => param_default p = None) with has_no_default.
    rewrite filter_app, list_filter_filter, list_filter_filter.
    rewrite (list_filter_iff (fun p => has_no_default p /\ has_no_default p) has_no_default)
      by (intros; tauto).
    rewrite (list_filter_iff (fun p => has_no_default p /\ ~ has_no_default p) (fun _ => False))
      by (intros; tauto).
    replace (filter (fun _ : Param => False) all) with (@nil Param).
    + apply app_nil_r.
    + clear. induction all as [|x l IH]; [reflexivity|].
      rewrite filter_cons_False by tauto. exact IH.
  - change (fun p => param_default p <> None) with (fun p => ~ has_no_default p).
    rewrite filter_app, list_filter_filter, list_filter_filter.
    rewrite (list_filter_iff (fun p => ~ has_no_default p /\ ~ has_no_default p)
               (fun p => ~ has_no_default p)) by (intros; tauto).
    rewrite (list_filter_iff (fun p => ~ has_no_default p /\ has_no_default p) (fun _ => False))
      by (intros; tauto).
    replace (filter (fun _ : Param => False) all) with (@nil Param).
    + reflexivity.
    + clear. induction all as [|x l IH]; [reflexivity|].
      rewrite filter_cons_False by tauto. exact IH.
Qed.

Lemma signatures_union_amended_witness :
  exists sig,
    signatures_union sample_init_filtered sample_method_filtered = Ok sig /\
    map param_name (parameters sig)
    = ["model"; "traffic_percentage"; "project"; "location"; "endpoint"; "machine_type"].
Proof.
  destruct (signatures_union_amended sample_init_filtered sample_method_filtered)
    as (sig & Hsig & _).
  - repeat constructor.
  - apply (bool_decide_unpack _). vm_compute. exact I.
  - exists sig. split; [exact Hsig|].
    vm_compute in Hsig. injection Hsig as <-. reflexivity.
Defined.

(** C4, as the specification states it, fails: a constructor and a
    method that both take [project] have no merged signature. *)
Lemma signatures_union_counterexample :
  signatures_union sample_init_with_project sample_method_with_project
  = Raise ValueError.
Proof. reflexivity. Qed.

(** ** Signature filter *)

Lemma kind_rank_inj k1 k2 : kind_rank k1 = kind_rank k2 -> k1 = k2.
Proof. destruct k1, k2; simpl; intros H; try reflexivity; discriminate. Qed.

(** Validation survives dropping parameters and renaming them, as long
    as the names stay distinct. *)
Lemma validate_subparams l' l :
  subparams l' l ->
  forall top kind_defaults seen top' kind_defaults' seen',
    validate_parameters top kind_defaults seen l = Ok tt ->
    (kind_rank top' <= kind_rank top)%nat ->
    (top' = top -> kind_defaults' = true -> kind_defaults = true) ->
    distinct_names seen' l' ->
    validate_parameters top' kind_defaults' seen' l' = Ok tt.
Proof.
  induction 1 as [|p l' l Hsub IH|p' p l' l Hk Hd Hsub IH];
    intros top kd seen top' kd' seen' Hval Hrank Hkd Hnames.
  - reflexivity.
  - simpl in Hval.
    destruct (Nat.ltb_spec (kind_rank (param_kind p)) (kind_rank top)) as [|Hge];
      [discriminate|].
    match type of Hval with
    | (if ?b then _ else _) = _ => destruct b eqn:Hcheck; [discriminate|]
    end.
    destruct (existsb _ seen); [discriminate|].
    eapply IH; [exact Hval | lia | | exact Hnames].
    intros -> Hkd'.
    assert (top = param_kind p) by (apply kind_rank_inj; lia). subst top.
    rewrite Nat.ltb_irrefl. rewrite (Hkd eq_refl Hkd').
    destruct (is_positional (param_kind p) && bool_decide (param_default p <> None));
      reflexivity.
  - destruct Hnames as [Hfresh Hnames].
    simpl in Hval |- *. rewrite Hk, Hd.
    destruct (Nat.ltb_spec (kind_rank (param_kind p)) (kind_rank top)) as [|Hge];
      [discriminate|].
    destruct (Nat.ltb_spec (kind_rank (param_kind p)) (kind_rank top')) as [|_]; [lia|].
    set (kd1 := if (kind_rank top <? kind_rank (param_kind p))%nat then false else kd) in *.
    set (kd1' := if (kind_rank top' <? kind_rank (param_kind p))%nat then false else kd').
    assert (Hkd1 : kd1' = true -> kd1 = true).
    { unfold kd1, kd1'.
      destruct (Nat.ltb_spec (kind_rank top') (kind_rank (param_kind p))); [discriminate|].
      assert (top' = param_kind p) by (apply kind_rank_inj; lia).
      assert (top = param_kind p) by (apply kind_rank_inj; lia).
      subst top top'. rewrite Nat.ltb_irrefl. auto. }
    destruct (is_positional (param_kind p) && bool_decide (param_default p = None))
      eqn:Hreq; simpl in Hval |- *.
    + destruct kd1; [discriminate|].
      destruct kd1'; [specialize (Hkd1 eq_refl); discriminate|].
      destruct (existsb _ seen); [discriminate|].
      rewrite Hfresh.
      eapply IH; [exact Hval | lia | | exact Hnames].
      intros _.
      destruct (is_positional (param_kind p) && bool_decide (param_default p <> None));
        auto.
    + destruct (existsb _ seen); [discriminate|].
      rewrite Hfresh.
      eapply IH; [exact Hval | lia | | exact Hnames].
      intros _.
      destruct (is_positional (param_kind p) && bool_decide (param_default p <> None));
        auto.
Qed.

Lemma filtered_parameters_subparams is_init self_type params :
  subparams (filtered_parameters is_init self_type params) params.
Proof.
  unfold filtered_parameters.
  induction params as [|p params IH]; [constructor|].
  destruct (decide (kept p)) as [Hk|Hk].
  - rewrite filter_cons_True by assumption. simpl.
    apply subparams_keep; [| |exact IH];
      unfold component_parameter; destruct (is_renamed is_init p); reflexivity.
  - rewrite filter_cons_False by assumption. apply subparams_drop, IH.
Qed.

Lemma component_parameter_name is_init self_type p :
  param_name (component_parameter is_init self_type p) = component_name is_init p.
Proof.
  unfold component_parameter, component_name.
  destruct (is_renamed is_init p); reflexivity.
Qed.

(** The loop of the filter computes the filtered parameters and records
    the new names. *)
Lemma new_Parameter_ok name k default ann :
  (is_variadic k = true -> default = None) ->
  parameter_name_ok k name = true ->
  new_Parameter name k default ann = Ok (mkParameter name k default ann).
Proof.
  intros Hvar Hname. unfold new_Parameter.
  assert (Hdefault : is_variadic k && bool_decide (default <> None) = false).
  { destruct (is_variadic k); [|reflexivity].
    rewrite (Hvar eq_refl). cbn [andb].
    apply bool_decide_eq_false_2. congruence. }
  rewrite Hdefault.
  unfold parameter_name_ok in Hname. apply andb_true_iff in Hname as [Hid Hkw].
  destruct name as [|c rest]; [discriminate Hid|].
  assert (Hdot : Ascii.eqb c "."%char = false).
  { destruct (Ascii.eqb_spec c "."%char) as [->|]; [discriminate Hid | reflexivity]. }
  rewrite Hdot. cbn [andb bind_result].
  rewrite Hid. apply negb_true_iff in Hkw. rewrite Hkw. reflexivity.
Qed.

Lemma filter_parameters_unfold is_init self_type params : forall m,
  Forall wf_parameter params ->
  Forall (renamed_name_ok is_init) params ->
  filter_parameters params is_init self_type (Some m)
  = Ok (filtered_parameters is_init self_type params,
        Some (recorded_names is_init params m)).
Proof.
  unfold filtered_parameters.
  induction params as [|p params IH]; intros m Hwf Hne; [reflexivity|].
  apply Forall_cons in Hwf as [Hp Hwf]. apply Forall_cons in Hne as [Hn Hne].
  cbn [filter_parameters recorded_names].
  change (is_init && is_resource_name_parameter_name (param_name p))
    with (is_renamed is_init p).
  destruct (decide (kept p)) as [Hk|Hk].
  - rewrite filter_cons_True by assumption. cbn [map].
    rewrite (bool_decide_eq_false_2 (param_name p ∈ PARAMS_TO_REMOVE)) by exact Hk.
    rewrite (bool_decide_eq_true_2 (kept p)) by exact Hk.
    destruct (is_renamed is_init p) eqn:Hr; cbn [andb].
    + specialize (Hn Hk Hr).
      assert (Hcn : component_name is_init p
                    = drop_last (String.length "_name") (param_name p))
        by (unfold component_name; rewrite Hr; reflexivity).
      assert (Hcp : component_parameter is_init self_type p
                    = mkParameter (drop_last (String.length "_name") (param_name p))
                        (param_kind p) (param_default p) self_type)
        by (unfold component_parameter; rewrite Hr, Hcn; reflexivity).
      rewrite Hcp. rewrite Hcn in Hn |- *.
      rewrite new_Parameter_ok by assumption.
      cbn [bind_result]. rewrite IH by assumption. reflexivity.
    + assert (Hcp : component_parameter is_init self_type p = p)
        by (unfold component_parameter; rewrite Hr; reflexivity).
      rewrite Hcp. rewrite IH by assumption. reflexivity.
  - rewrite filter_cons_False by assumption.
    rewrite (bool_decide_eq_true_2 (param_name p ∈ PARAMS_TO_REMOVE))
      by (unfold kept in Hk; destruct (decide (param_name p ∈ PARAMS_TO_REMOVE)); tauto).
    rewrite (bool_decide_eq_false_2 (kept p)) by exact Hk.
    cbn [andb]. apply IH; assumption.
Qed.

(** A method signature is filtered without a rename dictionary. *)
Lemma filter_parameters_method self_type params names :
  filter_parameters params false self_type names
  = Ok (filtered_parameters false self_type params, names).
Proof.
  unfold filtered_parameters.
  induction params as [|p params IH]; [reflexivity|].
  cbn [filter_parameters].
  destruct (decide (kept p)) as [Hk|Hk].
  - rewrite filter_cons_True by assumption.
    rewrite (bool_decide_eq_false_2 (param_name p ∈ PARAMS_TO_REMOVE)) by exact Hk.
    cbn [andb map]. rewrite IH. reflexivity.
  - rewrite filter_cons_False by assumption.
    rewrite (bool_decide_eq_true_2 (param_name p ∈ PARAMS_TO_REMOVE))
      by (unfold kept in Hk; destruct (decide (param_name p ∈ PARAMS_TO_REMOVE)); tauto).
    exact IH.
Qed.

Lemma recorded_names_other is_init params : forall (m : gmap string string) k,
  (forall p, p ∈ params -> kept p -> is_renamed is_init p = true ->
             component_name is_init p <> k) ->
  recorded_names is_init params m !! k = m !! k.
Proof.
  induction params as [|p params IH]; intros m k Hk; [reflexivity|].
  cbn [recorded_names]. rewrite IH.
  - destruct (bool_decide (kept p) && is_renamed is_init p) eqn:E; [|reflexivity].
    apply andb_true_iff in E as [Hkept Hren]. apply bool_decide_eq_true in Hkept.
    apply lookup_insert_ne. apply Hk; [left | assumption | assumption].
  - intros q Hq. apply Hk. right. exact Hq.
Qed.

Lemma recorded_names_lookup is_init self_type params : forall (m : gmap string string),
  NoDup (map param_name (filtered_parameters is_init self_type params)) ->
  forall p, p ∈ params -> kept p -> is_renamed is_init p = true ->
  recorded_names is_init params m !! component_name is_init p = Some (param_name p).
Proof.
  unfold filtered_parameters.
  induction params as [|q params IH]; intros m Hnd p Hin Hkept Hren.
  - inversion Hin.
  - cbn [recorded_names].
    destruct (decide (kept q)) as [Hq|Hq].
    + rewrite filter_cons_True in Hnd by assumption. cbn [map] in Hnd.
      apply NoDup_cons in Hnd as [Hfresh Hnd].
      rewrite component_parameter_name in Hfresh.
      apply elem_of_cons in Hin as [->|Hin].
      * rewrite (bool_decide_eq_true_2 (kept q)) by exact Hq. rewrite Hren. cbn [andb].
        rewrite recorded_names_other; [apply lookup_insert_eq|].
        intros r Hr Hkr Hrr Heq. apply Hfresh.
        rewrite <- Heq, <- (component_parameter_name is_init self_type r).
        apply list_elem_of_In.
        apply (in_map param_name), (in_map (component_parameter is_init self_type)).
        apply list_elem_of_In, list_elem_of_filter. auto.
      * apply IH; assumption.
    + rewrite filter_cons_False in Hnd by assumption.
      rewrite (bool_decide_eq_false_2 (kept q)) by exact Hq. cbn [andb].
      apply elem_of_cons in Hin as [->|Hin]; [contradiction|].
      apply IH; assumption.
Qed.

Lemma filter_signature_unfold sig is_init self_type (m : gmap string string) :
  wf_signature sig ->
  NoDup (map param_name (filtered_parameters is_init self_type (parameters sig))) ->
  Forall (renamed_name_ok is_init) (parameters sig) ->
  filter_signature sig is_init self_type (Some m)
  = Ok (mkSignature (filtered_parameters is_init self_type (parameters sig))
                    (return_annotation sig),
        Some (recorded_names is_init (parameters sig) m)).
Proof.
  intros [Hwf Hval] Hnd Hne. unfold filter_signature.
  rewrite filter_parameters_unfold by assumption. cbn [bind_result].
  unfold new_Signature.
  rewrite (validate_subparams _ _ (filtered_parameters_subparams is_init self_type _)
             _ _ _ POSITIONAL_ONLY false [] Hval); [reflexivity | lia | auto |].
  apply distinct_names_NoDup; [assumption | intros ? ? []].
Qed.

(** C3, as amended: for a signature object whose filtered parameters
    have pairwise distinct names, and whose shortened names are names
    [inspect.Parameter] accepts (identifiers that are no keywords), the
    filter returns the signature that drops exactly the parameters named
    [self], [credentials] and [sync]; for a constructor signature every
    remaining parameter whose name ends in [_name], [display_name] and
    the names ending in [encryption_spec_key_name] apart, is replaced by
    a parameter of the same kind and default, named without the suffix
    and annotated with the owning class, and the rename dictionary maps
    the new name to the original one and is unchanged elsewhere; all
    other parameters pass through unchanged and in order, with the
    return annotation. *)
Theorem filter_signature_amended (sig : Signature) (is_init : bool)
    (self_type : annotation) (m : gmap string string) :
  wf_signature sig ->
  NoDup (map param_name (filtered_parameters is_init self_type (parameters sig))) ->
  Forall (renamed_name_ok is_init) (parameters sig) ->
  exists m' : gmap string string,
    filter_signature sig is_init self_type (Some m)
    = Ok (mkSignature
            (map (component_parameter is_init self_type)
                 (filter (fun p => param_name p ∉ ({[ "self"; "credentials"; "sync" ]} : gset string))
                         (parameters sig)))
            (return_annotation sig),
          Some m') /\
    (forall p, p ∈ parameters sig -> kept p -> is_renamed is_init p = true ->
       component_parameter is_init self_type p
       = mkParameter (drop_last 5 (param_name p)) (param_kind p) (param_default p) self_type
       /\ m' !! drop_last 5 (param_name p) = Some (param_name p)) /\
    (forall p, is_renamed is_init p = false ->
       component_parameter is_init self_type p = p) /\
    (forall k,
       (forall p, p ∈ parameters sig -> kept p -> is_renamed is_init p = true ->
                  drop_last 5 (param_name p) <> k) ->
       m' !! k = m !! k).
Proof.
  intros Hwf Hnd Hne.
  exists (recorded_names is_init (parameters sig) m).
  split; [apply filter_signature_unfold; assumption|].
  split; [|split].
  - intros p Hin Hkept Hren. split.
    + unfold component_parameter, component_name. rewrite Hren. reflexivity.
    + rewrite <- (recorded_names_lookup is_init self_type (parameters sig) m Hnd p)
        by assumption.
      unfold component_name. rewrite Hren. reflexivity.
  - intros p Hren. unfold component_parameter. rewrite Hren. reflexivity.
  - intros k Hk. apply recorded_names_other.
    intros p Hin Hkept Hren. unfold component_name. rewrite Hren.
    apply Hk; assumption.
Qed.

Lemma filter_signature_amended_witness :
  exists m' : gmap string string,
    filter_signature (class_init_signature sample_Model) true (AClass Model_class) (Some ∅)
    = Ok (mkSignature
            [ required "model" (AClass Model_class);
              optional "project" (Optional (AClass str_class)) VNone;
              optional "location" (Optional (AClass str_class)) VNone ]
            (AClass inspect_empty),
          Some m') /\
    m' !! "model" = Some "model_name".
Proof.
  destruct (filter_signature_amended (class_init_signature sample_Model) true
              (AClass Model_class) ∅) as (m' & Hsig & Hren & _).
  - split; [|reflexivity].
    repeat (apply Forall_cons; split; [intros H; vm_compute in H; congruence|]).
    apply Forall_nil. exact I.
  - apply (bool_decide_unpack _). vm_compute. exact I.
  - repeat (apply Forall_cons; split; [intros _ _; vm_compute; reflexivity|]).
    apply Forall_nil. exact I.
  - exists m'. split; [exact Hsig|].
    apply (Hren (required "model_name" (AClass str_class))).
    + apply list_elem_of_In. simpl. right. left. reflexivity.
    + apply (bool_decide_unpack _). vm_compute. exact I.
    + reflexivity.
Defined.

(** C3, as the specification states it, fails: for a constructor that
    takes [model] and [model_name] the filter returns no signature, and
    none for one that takes [class_name], whose shortened name is a
    keyword. *)
Lemma filter_signature_counterexample :
  wf_signature sample_init_model_twice /\
  filter_signature sample_init_model_twice true (AClass Model_class) (Some ∅)
  = Raise ValueError /\
  wf_signature sample_init_class_name /\
  filter_signature sample_init_class_name true (AClass Model_class) (Some ∅)
  = Raise ValueError.
Proof.
  split; [split|split; [|split; [split|]]].
  - repeat (apply Forall_cons; split; [intros H; vm_compute in H; congruence|]).
    apply Forall_nil. exact I.
  - reflexivity.
  - vm_compute. reflexivity.
  - repeat (apply Forall_cons; split; [intros H; vm_compute in H; congruence|]).
    apply Forall_nil. exact I.
  - reflexivity.
  - vm_compute. reflexivity.
Qed.

(** ** The component wrapper *)

Section WrapperProperties.

Variable getattr : string -> annotation.
Variable py_str : value -> string.
Variable c : component.

Local Abbreviation step := (process_kwarg getattr c).
Local Abbreviation run := (process_kwargs getattr c).

(** One turn of the loop, by the classification of its argument. *)
Lemma process_kwarg_unfold st key v :
  step st key v =
  if is_None v then Ok (with_kwarg c st key v)
  else
    let? p := lookup_parameter (signature_of c key) key in
    match classify (resolve_annotation getattr (param_annotation p)) v with
    | Some (AsInput component_param_type component_type passed) =>
        Ok (with_input c (with_kwarg c st key v) key
              component_param_type component_type passed)
    | Some AsStatic => Ok (with_static c (with_kwarg c st key v) key v)
    | None => Raise TypeError
    end.
Proof.
  unfold process_kwarg, with_kwarg, with_input, with_static, signature_of, prefix_of,
    component_param_name_of, is_init_key, input_line, input_arg.
  destruct (bool_decide (key ∈ init_arg_names c)) eqn:Hinit;
    (destruct (is_None v) eqn:Hnone; [reflexivity|]);
    (match goal with
     | |- context [lookup_parameter ?sig key] =>
         destruct (lookup_parameter sig key) as [p|e]; [|reflexivity]
     end);
    cbn [bind_result];
    unfold classify, get_serializer, input_type_and_binding;
    (destruct (is_serializable_to_json (resolve_annotation getattr (param_annotation p)))
       eqn:Hser;
     [ destruct v as [j| |]; cbn; try reflexivity; rewrite ?Hinit; reflexivity
     | cbn [bind_result];
       rewrite (bool_decide_eq_false_2 (None <> None)) by congruence;
       rewrite orb_false_r;
       destruct (is_PipelineParam v) eqn:Hpp;
       [ destruct (is_mb_sdk_resource_noun_type
                     (resolve_annotation getattr (param_annotation p)));
         [ destruct (map_resource_to_metadata_type
                       (resolve_annotation getattr (param_annotation p)))
             as [[? ?]|]; cbn; rewrite ?Hinit; reflexivity
         | cbn; rewrite ?Hinit; reflexivity ]
       | cbn; rewrite ?Hinit; reflexivity ] ]).
Qed.

Lemma process_kwargs_app kwargs1 : forall st kwargs2,
  run st (kwargs1 ++ kwargs2)
  = let? st' := run st kwargs1 in run st' kwargs2.
Proof.
  induction kwargs1 as [|[key v] kwargs1 IH]; intros st kwargs2; [reflexivity|].
  cbn [app process_kwargs].
  destruct (step st key v) as [st'|e]; cbn [bind_result]; [apply IH | reflexivity].
Qed.

Lemma with_kwarg_same_output st key v : same_output st (with_kwarg c st key v).
Proof.
  unfold with_kwarg, same_output. destruct (is_init_key c key); cbn; auto.
Qed.

Lemma same_output_refl st : same_output st st.
Proof. unfold same_output. auto. Qed.

Lemma same_output_trans st1 st2 st3 :
  same_output st1 st2 -> same_output st2 st3 -> same_output st1 st3.
Proof. unfold same_output. intuition congruence. Qed.

Lemma same_output_sym st1 st2 : same_output st1 st2 -> same_output st2 st1.
Proof. unfold same_output. intuition congruence. Qed.

Lemma with_input_same_output st1 st2 key ty binding passed :
  same_output st1 st2 ->
  same_output (with_input c st1 key ty binding passed)
              (with_input c st2 key ty binding passed).
Proof.
  unfold same_output, with_input. cbn. intros (-> & -> & -> & -> & ->). auto.
Qed.

Lemma with_static_same_output st1 st2 key v :
  same_output st1 st2 ->
  same_output (with_static c st1 key v) (with_static c st2 key v).
Proof.
  unfold same_output, with_static. intros (-> & -> & -> & -> & ->).
  destruct (is_init_key c key); cbn; auto.
Qed.

(** A turn of the loop reads nothing of [init_kwargs] and [method_kwargs]. *)
Lemma step_same_output st1 st2 key v :
  same_output st1 st2 ->
  same_output_result (step st1 key v) (step st2 key v).
Proof.
  intros Hsame. rewrite !process_kwarg_unfold.
  assert (Hkw : same_output (with_kwarg c st1 key v) (with_kwarg c st2 key v)).
  { eapply same_output_trans; [apply same_output_sym, with_kwarg_same_output|].
    eapply same_output_trans; [exact Hsame | apply with_kwarg_same_output]. }
  destruct (is_None v); [exact Hkw|].
  destruct (lookup_parameter (signature_of c key) key) as [p|e]; [|reflexivity].
  cbn [bind_result same_output_result].
  destruct (classify _ v) as [[ty binding passed|]|]; cbn [same_output_result].
  - apply with_input_same_output, Hkw.
  - apply with_static_same_output, Hkw.
  - reflexivity.
Qed.

Lemma run_same_output kwargs : forall st1 st2,
  same_output st1 st2 ->
  same_output_result (run st1 kwargs) (run st2 kwargs).
Proof.
  induction kwargs as [|[key v] kwargs IH]; intros st1 st2 Hsame; [exact Hsame|].
  cbn [process_kwargs].
  pose proof (step_same_output st1 st2 key v Hsame) as Hstep.
  destruct (step st1 key v) as [st1'|e1], (step st2 key v) as [st2'|e2];
    cbn [bind_result same_output_result] in *; try contradiction.
  - apply IH, Hstep.
  - exact Hstep.
Qed.

Lemma render_same_output st1 st2 :
  same_output st1 st2 -> render py_str c st1 = render py_str c st2.
Proof.
  unfold same_output, render. intros (-> & -> & _ & -> & ->). reflexivity.
Qed.

(** An argument that is [None] leaves no trace in what the loop builds. *)
Lemma run_without_None before key v after :
  is_None v = true ->
  same_output_result (run initial_state (before ++ (key, v) :: after))
                     (run initial_state (before ++ after)).
Proof.
  intros Hnone. rewrite !process_kwargs_app.
  destruct (run initial_state before) as [st|e]; cbn [bind_result]; [|reflexivity].
  cbn [process_kwargs]. rewrite process_kwarg_unfold, Hnone. cbn [bind_result].
  apply run_same_output, same_output_sym, with_kwarg_same_output.
Qed.





Lemma component_yaml_generator_unfold kwargs m :
  component_yaml_generator getattr py_str c kwargs = Ok m ->
  exists final,
    run initial_state kwargs = Ok final /\
    validate c final = Ok tt /\
    component_text m = render py_str c final /\
    loaded_with m = input_kwargs final.
Proof.
  unfold component_yaml_generator.
  destruct (run initial_state kwargs) as [final|e]; [|discriminate].
  cbn [bind_result]. destruct (validate c final) as [[]|e] eqn:Hval; [|discriminate].
  cbn [bind_result]. intros [= <-]. exists final. auto.
Qed.


End WrapperProperties.

Lemma sample_component_converted :
  convert_method_to_component sample_getattr sample_Model sample_deploy
  = Ok sample_component.
Proof. vm_compute. reflexivity. Qed.



(** ** Binding of the keyword arguments *)

Lemma dict_pop_keys {V} (d : dict V) k v d' :
  dict_pop d k = Some (v, d') ->
  forall k', k' <> k -> In k' (dict_keys d) -> In k' (dict_keys d').
Proof.
  revert v d'. induction d as [|[k0 v0] d IH]; intros v d' Hpop k' Hne Hin; [discriminate|].
  cbn in Hpop. destruct (String.eqb_spec k0 k) as [->|Hk].
  - injection Hpop as <- <-. destruct Hin as [Heq|Hin]; [cbn in Heq; congruence | exact Hin].
  - destruct (dict_pop d k) as [[v1 d1]|] eqn:E; [|discriminate].
    injection Hpop as <- <-. destruct Hin as [Heq|Hin].
    + left. exact Heq.
    + right. eapply IH; eauto.
Qed.

Lemma dict_pop_keys_sub {V} (d : dict V) k v d' :
  dict_pop d k = Some (v, d') ->
  forall k', In k' (dict_keys d') -> In k' (dict_keys d).
Proof.
  revert v d'. induction d as [|[k0 v0] d IH]; intros v d' Hpop k' Hin; [discriminate|].
  cbn in Hpop. destruct (String.eqb_spec k0 k) as [->|Hk].
  - injection Hpop as <- <-. right. exact Hin.
  - destruct (dict_pop d k) as [[v1 d1]|] eqn:E; [|discriminate].
    injection Hpop as <- <-. destruct Hin as [Heq|Hin].
    + left. exact Heq.
    + right. eapply IH; eauto.
Qed.

Lemma dict_pop_None {V} (d : dict V) k :
  dict_pop d k = None <-> ~ In k (dict_keys d).
Proof.
  induction d as [|[k0 v0] d IH]; cbn; [tauto|].
  destruct (String.eqb_spec k0 k) as [->|Hk].
  - split; [discriminate | intros H; exfalso; apply H; auto].
  - destruct (dict_pop d k) as [[v1 d1]|].
    + split; [discriminate|]. intros H. exfalso.
      assert (Hd : ~ In k (dict_keys d)) by tauto.
      apply IH in Hd. discriminate.
    + split; [|reflexivity]. intros _ [Heq|Hin]; [congruence|].
      destruct IH as [IH _]. exact (IH eq_refl Hin).
Qed.

(** A keyword that no parameter takes stays unbound. *)
Lemma bind_keywords_keeps key params : forall kwargs kwargs_param,
  (forall p, In p params ->
     param_name p <> key /\ kind_eqb (param_kind p) VAR_KEYWORD = false) ->
  In key (dict_keys kwargs) ->
  match bind_keywords params kwargs kwargs_param with
  | Ok (unbound, kwargs_param') =>
      In key (dict_keys unbound) /\ kwargs_param' = kwargs_param
  | Raise e => e = TypeError
  end.
Proof.
  induction params as [|p params IH]; intros kwargs b Hparams Hkey; cbn [bind_keywords].
  - auto.
  - destruct (Hparams p (or_introl eq_refl)) as [Hname Hkind].
    assert (Hrest : forall q, In q params ->
              param_name q <> key /\ kind_eqb (param_kind q) VAR_KEYWORD = false)
      by (intros q Hq; apply Hparams; right; exact Hq).
    destruct (param_kind p) eqn:Hk; cbn in Hkind; try discriminate;
      try (apply IH; assumption);
      (destruct (dict_pop kwargs (param_name p)) as [[v kwargs']|] eqn:Hpop;
       [ destruct (kind_eqb _ POSITIONAL_ONLY); [reflexivity|];
         apply IH; [assumption|]; eapply dict_pop_keys; eauto
       | destruct (bool_decide (param_default p = None)); [reflexivity|];
         apply IH; assumption ]).
Qed.

Lemma bind_first_sub params kwargs params' :
  bind_first params kwargs = Ok params' ->
  (forall p, In p params' -> In p params) /\
  (forall p, In p params -> kind_eqb (param_kind p) VAR_POSITIONAL = false ->
             In p params').
Proof.
  unfold bind_first. destruct params as [|q params].
  - intros [= <-]. auto.
  - destruct (kind_eqb (param_kind q) VAR_POSITIONAL) eqn:Hq.
    + intros [= <-]. split; [intros p Hp; right; exact Hp|].
      intros p [->|Hp] Hk; [congruence | exact Hp].
    + destruct (bool_decide _).
      * destruct (kind_eqb (param_kind q) POSITIONAL_ONLY); [discriminate|].
        intros [= <-]. auto.
      * destruct (_ || _); [|discriminate]. intros [= <-]. auto.
Qed.

Lemma bind_first_error params kwargs e :
  bind_first params kwargs = Raise e -> e = TypeError.
Proof.
  unfold bind_first. destruct params as [|q params]; [discriminate|].
  repeat match goal with
         | |- (if ?b then _ else _) = _ -> _ => destruct b
         end; congruence.
Qed.

(** An unknown argument name: no parameter has the name and none takes
    any keyword. *)
Lemma Signature_bind_unexpected sig kwargs key :
  In key (dict_keys kwargs) ->
  (forall p, In p (parameters sig) -> param_name p <> key) ->
  has_var_keyword sig = false ->
  Signature_bind sig kwargs = Raise TypeError.
Proof.
  intros Hkey Hnames Hvar. unfold Signature_bind.
  destruct (bind_first (parameters sig) kwargs) as [params|e] eqn:Hfirst.
  - cbn [bind_result].
    destruct (bind_first_sub _ _ _ Hfirst) as [Hsub _].
    pose proof (bind_keywords_keeps key params kwargs false) as Hkeep.
    destruct (bind_keywords params kwargs false) as [[unbound b]|e].
    + destruct Hkeep as [Hin ->]; [|assumption|].
      * intros p Hp. split; [apply Hnames, Hsub, Hp|].
        unfold has_var_keyword in Hvar.
        destruct (kind_eqb (param_kind p) VAR_KEYWORD) eqn:E; [|reflexivity].
        rewrite <- Hvar. symmetry. apply existsb_exists. exists p. split; [apply Hsub, Hp | exact E].
      * cbn [bind_result]. destruct unbound; [contradiction | reflexivity].
    + rewrite Hkeep; [reflexivity| |assumption].
      intros p Hp. split; [apply Hnames, Hsub, Hp|].
      unfold has_var_keyword in Hvar.
      destruct (kind_eqb (param_kind p) VAR_KEYWORD) eqn:E; [|reflexivity].
      rewrite <- Hvar. symmetry. apply existsb_exists. exists p. split; [apply Hsub, Hp | exact E].
  - rewrite (bind_first_error _ _ _ Hfirst). reflexivity.
Qed.

(** A missing required argument. *)
Lemma bind_keywords_missing p params : forall kwargs kwargs_param,
  In p params ->
  is_variadic (param_kind p) = false ->
  param_default p = None ->
  ~ In (param_name p) (dict_keys kwargs) ->
  bind_keywords params kwargs kwargs_param = Raise TypeError.
Proof.
  induction params as [|q params IH]; intros kwargs b Hin Hvar Hdef Hkey; [contradiction|].
  cbn [bind_keywords].
  destruct Hin as [->|Hin].
  - destruct (param_kind p); try discriminate;
      (rewrite (proj2 (dict_pop_None kwargs (param_name p)) Hkey);
       rewrite (bool_decide_eq_true_2 _ Hdef); reflexivity).
  - destruct (param_kind q); try (apply IH; assumption);
      (destruct (dict_pop kwargs (param_name q)) as [[v kwargs']|] eqn:Hpop;
       [ destruct (kind_eqb _ POSITIONAL_ONLY); [reflexivity|];
         apply IH; try assumption;
         intros Hk; apply Hkey; eapply dict_pop_keys_sub; eauto
       | destruct (bool_decide (param_default q = None)); [reflexivity|];
         apply IH; assumption ]).
Qed.

Lemma Signature_bind_missing sig kwargs p :
  In p (parameters sig) ->
  is_variadic (param_kind p) = false ->
  param_default p = None ->
  ~ In (param_name p) (dict_keys kwargs) ->
  Signature_bind sig kwargs = Raise TypeError.
Proof.
  intros Hin Hvar Hdef Hkey. unfold Signature_bind.
  destruct (bind_first (parameters sig) kwargs) as [params|e] eqn:Hfirst.
  - cbn [bind_result].
    destruct (bind_first_sub _ _ _ Hfirst) as [_ Hsub].
    rewrite (bind_keywords_missing p params kwargs false); auto.
    apply Hsub; [assumption|]. destruct (param_kind p); try reflexivity; discriminate.
  - rewrite (bind_first_error _ _ _ Hfirst). reflexivity.
Qed.

Lemma Signature_bind_error sig kwargs e :
  Signature_bind sig kwargs = Raise e -> e = TypeError.
Proof.
  unfold Signature_bind.
  destruct (bind_first (parameters sig) kwargs) as [params|e'] eqn:Hfirst.
  - cbn [bind_result].
    assert (Hkw : forall ps kw b e', bind_keywords ps kw b = Raise e' -> e' = TypeError).
    { clear. induction ps as [|q ps IH]; intros kw b e'; cbn [bind_keywords]; [discriminate|].
      destruct (param_kind q); try apply IH;
        (destruct (dict_pop kw (param_name q)) as [[v kw']|];
         [ destruct (kind_eqb _ POSITIONAL_ONLY); [congruence | apply IH]
         | destruct (bool_decide _); [congruence | apply IH] ]). }
    destruct (bind_keywords params kwargs false) as [[unbound b]|e'] eqn:Hb.
    + cbn [bind_result]. destruct unbound; [discriminate|].
      destruct b; [discriminate | congruence].
    + cbn [bind_result]. intros [= <-]. eapply Hkw; eauto.
  - cbn [bind_result]. intros [= <-]. eapply bind_first_error; eauto.
Qed.

Lemma dict_set_fresh {V} (d : dict V) k v :
  ~ In k (dict_keys d) -> dict_set d k v = d ++ [(k, v)].
Proof.
  induction d as [|[k0 v0] d IH]; cbn; [reflexivity|].
  intros Hk. destruct (String.eqb_spec k0 k) as [->|Hne]; [exfalso; auto|].
  rewrite IH by tauto. reflexivity.
Qed.

Lemma dict_set_keys {V} (d : dict V) k v k' :
  In k' (dict_keys (dict_set d k v)) <-> k' = k \/ In k' (dict_keys d).
Proof.
  induction d as [|[k0 v0] d IH]; cbn; [intuition congruence|].
  destruct (String.eqb_spec k0 k) as [->|Hne]; cbn; [intuition congruence|].
  rewrite IH. intuition congruence.
Qed.

Section ValidationProperties.

Variable getattr : string -> annotation.
Variable py_str : value -> string.
Variable c : component.

Local Abbreviation step := (process_kwarg getattr c).
Local Abbreviation run := (process_kwargs getattr c).

(** What a turn of the loop does to the two partitions. *)
Lemma step_kwargs st key v st' :
  step st key v = Ok st' ->
  init_kwargs st' = init_kwargs (with_kwarg c st key v) /\
  method_kwargs st' = method_kwargs (with_kwarg c st key v).
Proof.
  rewrite process_kwarg_unfold.
  destruct (is_None v); [intros [= <-]; auto|].
  destruct (lookup_parameter (signature_of c key) key) as [p|e]; [|discriminate].
  cbn [bind_result].
  destruct (classify _ v) as [[ty binding passed|]|]; [| |discriminate]; intros [= <-].
  - unfold with_input. cbn. auto.
  - unfold with_static. destruct (is_init_key c key); cbn; auto.
Qed.

Lemma run_partition kwargs : forall st st',
  NoDup (dict_keys kwargs) ->
  (forall k, In k (dict_keys kwargs) ->
     ~ In k (dict_keys (init_kwargs st)) /\ ~ In k (dict_keys (method_kwargs st))) ->
  run st kwargs = Ok st' ->
  init_kwargs st' = init_kwargs st ++ init_partition c kwargs /\
  method_kwargs st' = method_kwargs st ++ method_partition c kwargs.
Proof.
  induction kwargs as [|[key v] kwargs IH]; intros st st' Hnd Hfresh Hrun.
  - injection Hrun as <-. cbn. rewrite !app_nil_r. auto.
  - cbn [process_kwargs] in Hrun.
    destruct (step st key v) as [st1|e] eqn:Hstep; [|discriminate].
    cbn [bind_result] in Hrun.
    cbn [dict_keys map fst] in Hnd. apply NoDup_cons in Hnd as [Hkey Hnd].
    destruct (step_kwargs _ _ _ _ Hstep) as [Hi Hm].
    destruct (Hfresh key (or_introl eq_refl)) as [Hfi Hfm].
    assert (Hfresh1 : forall k, In k (dict_keys kwargs) ->
              ~ In k (dict_keys (init_kwargs st1)) /\
              ~ In k (dict_keys (method_kwargs st1))).
    { intros k Hk. destruct (Hfresh k (or_intror Hk)) as [H1 H2].
      assert (k <> key) by (intros ->; apply Hkey, list_elem_of_In, Hk).
      rewrite Hi, Hm. unfold with_kwarg.
      destruct (is_init_key c key); cbn [init_kwargs method_kwargs];
        rewrite ?dict_set_keys; tauto. }
    destruct (IH _ _ Hnd Hfresh1 Hrun) as [Hi' Hm'].
    rewrite Hi', Hm', Hi, Hm. unfold with_kwarg, init_partition, method_partition.
    cbn [List.filter fst].
    destruct (is_init_key c key); cbn [negb init_kwargs method_kwargs].
    + rewrite dict_set_fresh by assumption. rewrite <- app_assoc. auto.
    + rewrite dict_set_fresh by assumption. rewrite <- app_assoc. auto.
Qed.

Lemma run_method_keys kwargs : forall st st',
  run st kwargs = Ok st' ->
  (forall k, In k (dict_keys (method_kwargs st)) -> In k (dict_keys (method_kwargs st'))) /\
  (forall k, In k (dict_keys kwargs) -> is_init_key c k = false ->
             In k (dict_keys (method_kwargs st'))).
Proof.
  induction kwargs as [|[key v] kwargs IH]; intros st st' Hrun.
  - injection Hrun as <-. split; [auto | intros k []].
  - cbn [process_kwargs] in Hrun.
    destruct (step st key v) as [st1|e] eqn:Hstep; [|discriminate].
    cbn [bind_result] in Hrun.
    destruct (step_kwargs _ _ _ _ Hstep) as [_ Hm].
    destruct (IH _ _ Hrun) as [Hkeep Hnew].
    split.
    + intros k Hk. apply Hkeep. rewrite Hm. unfold with_kwarg.
      destruct (is_init_key c key); cbn [method_kwargs]; [exact Hk|].
      apply dict_set_keys. auto.
    + intros k [Hk|Hk] Hinit; [|apply Hnew; assumption].
      cbn in Hk. subst key. apply Hkeep. rewrite Hm. unfold with_kwarg.
      rewrite Hinit. cbn [method_kwargs]. apply dict_set_keys. auto.
Qed.

(** C7: the keyword arguments are partitioned by the names of the
    constructor's parameters, each partition is bound against its
    filtered signature (the constructor's only when the constructor is
    part of the component), and a call whose arguments one of the two
    bindings rejects raises and produces no manifest; when the loop over
    the arguments has raised nothing, the exception is the [TypeError]
    of the binding. *)
Theorem component_yaml_generator_validates (kwargs : dict value) :
  NoDup (dict_keys kwargs) ->
  (should_serialize_init c = true /\
   is_ok (Signature_bind (init_signature c) (init_partition c kwargs)) = false) \/
  is_ok (Signature_bind (method_signature c) (method_partition c kwargs)) = false ->
  (exists e, component_yaml_generator getattr py_str c kwargs = Raise e) /\
  (forall final, run initial_state kwargs = Ok final ->
     init_kwargs final = init_partition c kwargs /\
     method_kwargs final = method_partition c kwargs /\
     component_yaml_generator getattr py_str c kwargs = Raise TypeError).
Proof.
  intros Hnd Hbad.
  assert (Hfinal : forall final, run initial_state kwargs = Ok final ->
     init_kwargs final = init_partition c kwargs /\
     method_kwargs final = method_partition c kwargs /\
     component_yaml_generator getattr py_str c kwargs = Raise TypeError).
  { intros final Hrun.
    destruct (run_partition kwargs initial_state final Hnd) as [Hi Hm];
      [intros k _; cbn; tauto | exact Hrun |].
    cbn in Hi, Hm. split; [exact Hi|]. split; [exact Hm|].
    unfold component_yaml_generator. rewrite Hrun. cbn [bind_result].
    unfold validate. rewrite Hi, Hm.
    destruct Hbad as [[Hssi Hinit]|Hmethod].
    - rewrite Hssi.
      destruct (Signature_bind (init_signature c) (init_partition c kwargs))
        as [[]|e] eqn:Hb; [discriminate|].
      rewrite (Signature_bind_error _ _ _ Hb). reflexivity.
    - destruct (Signature_bind (method_signature c) (method_partition c kwargs))
        as [[]|e] eqn:Hb; [discriminate|].
      rewrite (Signature_bind_error _ _ _ Hb).
      destruct (should_serialize_init c); [|reflexivity].
      destruct (Signature_bind (init_signature c) (init_partition c kwargs))
        as [[]|e'] eqn:Hb'; [reflexivity|].
      rewrite (Signature_bind_error _ _ _ Hb'). reflexivity. }
  split; [|exact Hfinal].
  destruct (run initial_state kwargs) as [final|e] eqn:Hrun.
  - exists TypeError. apply (Hfinal final eq_refl).
  - exists e. unfold component_yaml_generator. rewrite Hrun. reflexivity.
Qed.

End ValidationProperties.

Lemma component_yaml_generator_validates_witness :
  component_yaml_generator sample_getattr sample_str sample_component
    [("endpoint", VPipelineParam "endpoint")] = Raise TypeError.
Proof.
  destruct (component_yaml_generator_validates sample_getattr sample_str sample_component
              [("endpoint", VPipelineParam "endpoint")]) as [_ Hfinal].
  - apply (bool_decide_unpack _). vm_compute. exact I.
  - left. split; vm_compute; reflexivity.
  - destruct (process_kwargs sample_getattr sample_component initial_state
                [("endpoint", VPipelineParam "endpoint")]) as [final|e] eqn:Hrun;
      [|vm_compute in Hrun; discriminate].
    apply (Hfinal final eq_refl).
Defined.

(** ** Arguments that are [None] *)

Lemma convert_init_arg_names getattr cls method c :
  convert_method_to_component getattr cls method = Ok c ->
  forall k, k ∈ init_arg_names c ->
            In k (map param_name (parameters (init_signature c))).
Proof.
  unfold convert_method_to_component.
  destruct (filter_signature (method_object_signature method) false ANone None)
    as [[msig mnames]|e]; [|discriminate].
  cbn [bind_result].
  destruct (filter_signature (class_init_signature cls) true _ (Some ∅))
    as [[isig names]|e]; [|discriminate].
  cbn [bind_result].
  destruct (output_declaration _) as [[outs out_args]|e]; [|discriminate].
  cbn [bind_result].
  destruct (method_isfunction method).
  - destruct (signatures_union isig msig) as [sig|e]; [|discriminate].
    cbn [bind_result]. intros [= <-] k Hk. cbn in Hk |- *.
    apply elem_of_list_to_set in Hk. apply list_elem_of_In. exact Hk.
  - cbn [bind_result]. intros [= <-] k Hk. cbn in Hk. set_solver.
Qed.

Section NoneProperties.

Variable getattr : string -> annotation.
Variable py_str : value -> string.
Variable c : component.

Local Abbreviation run := (process_kwargs getattr c).

Lemma static_args_same_output st1 st2 :
  same_output st1 st2 -> static_args py_str st1 = static_args py_str st2.
Proof. unfold same_output, static_args. intros (_ & _ & _ & -> & ->). reflexivity. Qed.

(** C10, as amended: an argument that is [None] adds nothing to what
    the loop builds: with it and without it the inputs, the input
    bindings, the static arguments, the values passed on and the text of
    the manifest are the same, or the same exception is raised.  The
    argument is bound with the others all the same: on a wrapper whose
    method signature has no parameter that takes any keyword, a call
    that passes a name of no parameter of the two filtered signatures
    raises, whatever the value. *)
Theorem component_yaml_generator_None :
  (forall before key v after,
     is_None v = true ->
     match run initial_state (before ++ (key, v) :: after),
           run initial_state (before ++ after) with
     | Ok st1, Ok st2 =>
         inputs st1 = inputs st2 /\
         input_args st1 = input_args st2 /\
         static_args py_str st1 = static_args py_str st2 /\
         input_kwargs st1 = input_kwargs st2 /\
         render py_str c st1 = render py_str c st2
     | Raise e1, Raise e2 => e1 = e2
     | _, _ => False
     end) /\
  (forall cls method kwargs key,
     convert_method_to_component getattr cls method = Ok c ->
     In key (dict_keys kwargs) ->
     ~ In key (map param_name (parameters (init_signature c))) ->
     ~ In key (map param_name (parameters (method_signature c))) ->
     has_var_keyword (method_signature c) = false ->
     exists e, component_yaml_generator getattr py_str c kwargs = Raise e).
Proof.
  split.
  - intros before key v after Hnone.
    pose proof (run_without_None getattr c before key v after Hnone) as Hsame.
    destruct (run initial_state (before ++ (key, v) :: after)) as [st1|e1],
             (run initial_state (before ++ after)) as [st2|e2];
      cbn [same_output_result] in Hsame; try contradiction; [|exact Hsame].
    pose proof (render_same_output py_str c _ _ Hsame) as Hrender.
    pose proof (static_args_same_output _ _ Hsame) as Hstatic.
    destruct Hsame as (H1 & H2 & H3 & _). auto.
  - intros cls method kwargs key Hconv Hkey Hinit Hmethod Hvar.
    unfold component_yaml_generator.
    destruct (run initial_state kwargs) as [final|e] eqn:Hrun; [|eauto].
    cbn [bind_result]. unfold validate.
    assert (Hscope : is_init_key c key = false).
    { unfold is_init_key. apply bool_decide_eq_false_2. intros Hin.
      apply Hinit. eapply convert_init_arg_names; eauto. }
    destruct (run_method_keys getattr c kwargs _ _ Hrun) as [_ Hnew].
    assert (Hbind : Signature_bind (method_signature c) (method_kwargs final)
                    = Raise TypeError).
    { apply (Signature_bind_unexpected _ _ key); [apply Hnew; assumption | | assumption].
      intros p Hp Heq. apply Hmethod. rewrite <- Heq. apply in_map, Hp. }
    rewrite Hbind.
    destruct (should_serialize_init c); [|eauto].
    destruct (Signature_bind (init_signature c) (init_kwargs final)) as [[]|e]; eauto.
Qed.

End NoneProperties.

Lemma component_yaml_generator_None_witness :
  exists e,
    component_yaml_generator sample_getattr sample_str sample_component
      [("model", VPipelineParam "model"); ("verbose", VNone)] = Raise e.
Proof.
  destruct (component_yaml_generator_None sample_getattr sample_str sample_component)
    as [_ Hunknown].
  apply (Hunknown sample_Model sample_deploy _ "verbose").
  - apply sample_component_converted.
  - right. left. reflexivity.
  - vm_compute. intuition discriminate.
  - vm_compute. intuition discriminate.
  - reflexivity.
Defined.

(** C10, as the specification states it, fails: the class method
    [export] takes any keyword; [verbose] is the name of no parameter of
    the two filtered signatures, and a call that passes [None] for it
    returns a manifest. *)
Lemma component_yaml_generator_None_counterexample :
  convert_method_to_component sample_getattr sample_Model sample_export
    = Ok sample_export_component /\
  map param_name (parameters (init_signature sample_export_component))
    = ["model"; "project"; "location"] /\
  map param_name (parameters (method_signature sample_export_component))
    = ["kwargs"] /\
  exists m,
    component_yaml_generator sample_getattr sample_str sample_export_component
      [("verbose", VNone)] = Ok m.
Proof.
  split; [vm_compute; reflexivity|].
  split; [vm_compute; reflexivity|].
  split; [vm_compute; reflexivity|].
  eexists. vm_compute. reflexivity.
Qed.

(** ** Outputs *)

Lemma output_declaration_falsy t :
  truthy t = false -> output_declaration t = Ok ("", "").
Proof. unfold output_declaration. intros ->. reflexivity. Qed.

Lemma output_declaration_unmapped t :
  truthy t = true ->
  map_resource_to_metadata_type t = None ->
  output_declaration t = Raise TypeError.
Proof. unfold output_declaration. intros -> ->. reflexivity. Qed.

(** C6 fails on the code: [predict] returns a [Prediction], a class
    with no entry in the mapping, and the generation of its component
    raises a [TypeError] where the specification promises a manifest
    without outputs.  Without a return annotation the outputs are empty. *)
Theorem convert_method_to_component_unmapped_output :
  resolve_annotation sample_getattr
    (return_annotation (method_object_signature sample_predict))
    = AClass Prediction_class /\
  map_resource_to_metadata_type (AClass Prediction_class) = None /\
  convert_method_to_component sample_getattr sample_Endpoint sample_predict
    = Raise TypeError /\
  exists c,
    convert_method_to_component sample_getattr sample_Endpoint sample_predict_unannotated
      = Ok c /\
    outputs c = "" /\ output_args c = "".
Proof.
  repeat split; try (vm_compute; reflexivity).
  eexists. repeat split; vm_compute; reflexivity.
Qed.

(** ** The manifest as a function of the call *)






Section DeterminismProperties.

Variable getattr : string -> annotation.
Variable py_str : value -> string.
Variable c : component.

Local Abbreviation step := (process_kwarg getattr c).
Local Abbreviation run := (process_kwargs getattr c).











End DeterminismProperties.




(** ** JSON text: reading what was written *)

Module JsonFacts.

Import Json.

Lemma append_nil_l (s : string) : "" +:+ s = s.
Proof. reflexivity. Qed.

Lemma append_cons (c : ascii) (s1 s2 : string) :
  String c s1 +:+ s2 = String c (s1 +:+ s2).
Proof. reflexivity. Qed.

Lemma append_assoc (s1 s2 s3 : string) : (s1 +:+ s2) +:+ s3 = s1 +:+ (s2 +:+ s3).
Proof.
  induction s1 as [|c s1 IH]; [reflexivity|].
  rewrite !append_cons, IH. reflexivity.
Qed.

Lemma append_nil_r (s : string) : s +:+ "" = s.
Proof.
  induction s as [|c s IH]; [reflexivity|].
  rewrite append_cons, IH. reflexivity.
Qed.

Lemma length_append (s1 s2 : string) :
  String.length (s1 +:+ s2) = (String.length s1 + String.length s2)%nat.
Proof.
  induction s1 as [|c s1 IH]; [reflexivity|].
  rewrite append_cons. cbn [String.length]. rewrite IH. reflexivity.
Qed.

(** *** Strings *)

(** The escape of a character is read back as that character. *)
Lemma scanstring_escape_char (c : ascii) (s : string) :
  scanstring (escape_char c +:+ s)
  = let! (chars, rest) := scanstring s in Read (String c chars, rest).
Proof.
  destruct c as [b0 b1 b2 b3 b4 b5 b6 b7].
  destruct b0, b1, b2, b3, b4, b5, b6, b7; reflexivity.
Qed.

Lemma scanstring_escape_chars (s rest : string) :
  scanstring (escape_chars s +:+ String quote rest) = Read (s, rest).
Proof.
  induction s as [|c s IH]; [reflexivity|].
  cbn [escape_chars]. rewrite append_assoc, scanstring_escape_char, IH. reflexivity.
Qed.

Lemma encode_string_append (s rest : string) :
  encode_string s +:+ rest = String quote (escape_chars s +:+ String quote rest).
Proof.
  unfold encode_string, str1. rewrite append_cons, append_assoc. reflexivity.
Qed.

(** *** Numbers *)

Lemma delimited_not_number rest :
  delimited rest -> starts_with_digit rest = false /\ float_follows rest = false.
Proof.
  destruct rest as [|c rest]; [auto|].
  intros [-> | [-> | ->]]; auto.
Qed.

Lemma delimited_skip_ws rest : delimited rest -> skip_ws rest = rest.
Proof.
  destruct rest as [|c rest]; [auto|].
  intros [-> | [-> | ->]]; reflexivity.
Qed.

Lemma digit_of_char_not_digit c : is_digit c = false -> digit_of_char c = None.
Proof.
  destruct c as [b0 b1 b2 b3 b4 b5 b6 b7].
  destruct b0, b1, b2, b3, b4, b5, b6, b7; intros H;
    first [discriminate H | reflexivity].
Qed.

Lemma scan_digits_uint (d : Decimal.uint) (rest : string) :
  starts_with_digit rest = false ->
  scan_digits (DecimalString.NilEmpty.string_of_uint d +:+ rest) = (d, rest).
Proof.
  intros Hrest.
  induction d as [|d IH|d IH|d IH|d IH|d IH|d IH|d IH|d IH|d IH|d IH];
    cbn [DecimalString.NilEmpty.string_of_uint];
    try (rewrite append_cons; cbn [scan_digits]; rewrite IH; reflexivity).
  rewrite append_nil_l. destruct rest as [|c rest]; [reflexivity|].
  cbn [scan_digits]. cbn in Hrest. rewrite (digit_of_char_not_digit c Hrest).
  reflexivity.
Qed.

(** The decimal digits of a positive number do not begin with [0]. *)
Lemma to_uint_not_D0 (p : positive) (d : Decimal.uint) :
  Pos.to_uint p <> Decimal.D0 d.
Proof.
  intros Hd.
  assert (Hnorm : Decimal.unorm (Pos.to_uint p) = Pos.to_uint p).
  { rewrite <- DecimalPos.Unsigned.to_of, DecimalPos.Unsigned.of_to. reflexivity. }
  rewrite Hd in Hnorm. unfold Decimal.unorm in Hnorm.
  destruct (Decimal.nzhead (Decimal.D0 d)) eqn:Hh;
    try (exact (DecimalFacts.nzhead_nonzero _ _ (eq_trans Hh Hnorm)));
    try discriminate.
  apply (DecimalPos.Unsigned.to_uint_nonzero p). rewrite Hd, <- Hnorm. reflexivity.
Qed.

(** A text that begins like a number is read by [parse_number]. *)
Lemma scan_once_number fuel c s :
  is_digit c = true ->
  scan_once (S fuel) (String c s) = parse_number (String c s).
Proof.
  destruct c as [b0 b1 b2 b3 b4 b5 b6 b7].
  destruct b0, b1, b2, b3, b4, b5, b6, b7; intros H;
    first [discriminate H | reflexivity].
Qed.

Lemma scan_once_negative fuel c s :
  is_digit c = true ->
  scan_once (S fuel) (String "-" (String c s)) = parse_number (String "-" (String c s)).
Proof.
  destruct c as [b0 b1 b2 b3 b4 b5 b6 b7].
  destruct b0, b1, b2, b3, b4, b5, b6, b7; intros H;
    first [discriminate H | reflexivity].
Qed.

Lemma parse_digits_positive (p : positive) (rest : string) :
  starts_with_digit rest = false ->
  exists c s,
    DecimalString.NilEmpty.string_of_uint (Pos.to_uint p) +:+ rest = String c s /\
    is_digit c = true /\ Ascii.eqb c "0"%char = false /\
    scan_digits (String c s) = (Pos.to_uint p, rest).
Proof.
  intros Hrest.
  pose proof (scan_digits_uint (Pos.to_uint p) rest Hrest) as Hscan.
  pose proof (to_uint_not_D0 p) as Hnz.
  pose proof (DecimalPos.Unsigned.to_uint_nonnil p) as Hnil.
  destruct (Pos.to_uint p) as [|d|d|d|d|d|d|d|d|d|d];
    [contradiction | exfalso; apply (Hnz d); reflexivity | ..];
    cbn [DecimalString.NilEmpty.string_of_uint] in Hscan |- *;
    rewrite append_cons in Hscan |- *;
    eexists _, _; (split; [reflexivity|]); repeat split; exact Hscan.
Qed.

Lemma parse_number_Z fuel (z : Z) (rest : string) :
  delimited rest ->
  scan_once (S fuel) (string_of_Z z +:+ rest) = Read (JInt z, rest).
Proof.
  intros Hrest. destruct (delimited_not_number rest Hrest) as [Hdigit Hfloat].
  unfold string_of_Z. destruct z as [|p|p]; cbn [Z.to_int DecimalString.NilZero.string_of_int].
  - change (DecimalString.NilZero.string_of_uint Decimal.zero) with "0".
    rewrite append_cons, append_nil_l, scan_once_number by reflexivity.
    unfold parse_number. cbn. rewrite Hfloat. reflexivity.
  - destruct (parse_digits_positive p rest Hdigit) as (c & s & Hs & Hc & Hzero & Hscan).
    assert (Hstr : DecimalString.NilZero.string_of_uint (Pos.to_uint p)
                   = DecimalString.NilEmpty.string_of_uint (Pos.to_uint p)).
    { pose proof (DecimalPos.Unsigned.to_uint_nonnil p).
      destruct (Pos.to_uint p); [contradiction | reflexivity ..]. }
    rewrite Hstr, Hs, scan_once_number by exact Hc.
    unfold parse_number.
    assert (Hminus : Ascii.eqb c "-"%char = false).
    { destruct (Ascii.eqb_spec c "-"%char) as [->|]; [discriminate Hc | reflexivity]. }
    rewrite Hminus, Hzero, Hc, Hscan, Hfloat.
    change (Z.of_int (Decimal.Pos (Pos.to_uint p))) with (Z.of_int (Z.to_int (Z.pos p))).
    rewrite DecimalZ.of_to. reflexivity.
  - destruct (parse_digits_positive p rest Hdigit) as (c & s & Hs & Hc & Hzero & Hscan).
    assert (Hstr : DecimalString.NilZero.string_of_uint (Pos.to_uint p)
                   = DecimalString.NilEmpty.string_of_uint (Pos.to_uint p)).
    { pose proof (DecimalPos.Unsigned.to_uint_nonnil p).
      destruct (Pos.to_uint p); [contradiction | reflexivity ..]. }
    rewrite append_cons, Hstr, Hs, scan_once_negative by exact Hc.
    unfold parse_number. cbn [Ascii.eqb Bool.eqb andb].
    rewrite Hzero, Hc, Hscan, Hfloat.
    change (Z.of_int (Decimal.Neg (Pos.to_uint p))) with (Z.of_int (Z.to_int (Z.neg p))).
    rewrite DecimalZ.of_to. reflexivity.
Qed.

(** *** Values *)

(** Induction on a JSON value, with the hypothesis for every item. *)
Lemma json_induction (P : json -> Prop) :
  P JNull ->
  (forall b, P (JBool b)) ->
  (forall z, P (JInt z)) ->
  (forall s, P (JStr s)) ->
  (forall items, Forall P items -> P (JList items)) ->
  (forall pairs, Forall (fun kv => P (snd kv)) pairs -> P (JDict pairs)) ->
  (forall items, Forall P items -> P (JTuple items)) ->
  forall j, P j.
Proof.
  intros Hnull Hbool Hint Hstr Hlist Hdict Htuple.
  fix IH 1. intros [ |b|z|s|items|pairs|items].
  - exact Hnull.
  - apply Hbool.
  - apply Hint.
  - apply Hstr.
  - apply Hlist.
    refine ((fix items_ok (l : list json) : Forall P l :=
               match l with
               | [] => List.Forall_nil P
               | x :: l' => @List.Forall_cons _ P x l' (IH x) (items_ok l')
               end) items).
  - apply Hdict.
    refine ((fix pairs_ok (l : list (string * json)) : Forall (fun kv => P (snd kv)) l :=
               match l with
               | [] => List.Forall_nil (fun kv => P (snd kv))
               | kv :: l' =>
                   @List.Forall_cons _ (fun kv => P (snd kv)) kv l'
                     (IH (snd kv)) (pairs_ok l')
               end) pairs).
  - apply Htuple.
    refine ((fix items_ok (l : list json) : Forall P l :=
               match l with
               | [] => List.Forall_nil P
               | x :: l' => @List.Forall_cons _ P x l' (IH x) (items_ok l')
               end) items).
Qed.

Lemma cost_list items : cost (JList items) = S (cost_items items).
Proof. reflexivity. Qed.

Lemma cost_dict pairs : cost (JDict pairs) = S (cost_pairs pairs).
Proof. reflexivity. Qed.

Lemma wf_list items : wf (JList items) <-> Forall wf items.
Proof.
  cbn [wf]. induction items as [|x l IH].
  - split; [constructor | exact (fun _ => I)].
  - rewrite Forall_cons. rewrite <- IH. reflexivity.
Qed.

Lemma wf_dict pairs :
  wf (JDict pairs) <->
  List.NoDup (dict_keys pairs) /\ Forall (fun kv => wf (snd kv)) pairs.
Proof.
  cbn [wf]. apply and_iff_compat_l. induction pairs as [|x l IH].
  - split; [constructor | exact (fun _ => I)].
  - rewrite Forall_cons. rewrite <- IH. reflexivity.
Qed.

Lemma skip_ws_head s : head_ok s -> skip_ws s = s.
Proof. destruct s as [|c s]; [contradiction|]. intros [Hws _]. cbn. rewrite Hws. reflexivity. Qed.

Lemma number_head_ok c s : is_digit c = true \/ c = "-"%char -> head_ok (String c s).
Proof.
  destruct c as [b0 b1 b2 b3 b4 b5 b6 b7].
  destruct b0, b1, b2, b3, b4, b5, b6, b7; intros [H|H];
    first [discriminate H | split; reflexivity].
Qed.

Lemma string_of_Z_head z rest :
  exists c s, string_of_Z z +:+ rest = String c s /\
              (is_digit c = true \/ c = "-"%char).
Proof.
  unfold string_of_Z.
  destruct z as [|p|p]; cbn [Z.to_int DecimalString.NilZero.string_of_int].
  - eexists _, _. split; [reflexivity | left; reflexivity].
  - pose proof (DecimalPos.Unsigned.to_uint_nonnil p) as Hnil.
    pose proof (to_uint_not_D0 p) as Hnz.
    destruct (Pos.to_uint p) as [|d|d|d|d|d|d|d|d|d|d];
      [contradiction | ..];
      eexists _, _; (split; [reflexivity | left; reflexivity]).
  - eexists _, _. split; [reflexivity | right; reflexivity].
Qed.

Lemma dumps_head j rest : head_ok (dumps j +:+ rest).
Proof.
  destruct j as [ |[|]|z|s|items|pairs|items]; try (split; reflexivity).
  cbn [dumps]. destruct (string_of_Z_head z rest) as (c & s & -> & Hc).
  apply number_head_ok, Hc.
Qed.

Lemma scan_once_array fuel s :
  scan_once (S fuel) (String "[" s)
  = match skip_ws s with
    | String c' rest' =>
        if Ascii.eqb c' "]"%char then Read (JList [], rest')
        else let! (items, rest'') := array_items fuel (String c' rest') in
             Read (JList items, rest'')
    | EmptyString => Invalid
    end.
Proof. reflexivity. Qed.

Lemma scan_once_object fuel s :
  scan_once (S fuel) (String "{" s)
  = match skip_ws s with
    | String c' rest' =>
        if Ascii.eqb c' "}"%char then Read (JDict [], rest')
        else if Ascii.eqb c' quote then
          let! (pairs, rest'') := object_items fuel rest' in
          Read (JDict (dict_of_pairs pairs), rest'')
        else Invalid
    | EmptyString => Invalid
    end.
Proof. reflexivity. Qed.

Lemma scan_once_string fuel s :
  scan_once (S fuel) (String quote s)
  = let! (chars, rest') := scanstring s in Read (JStr chars, rest').
Proof. reflexivity. Qed.

Lemma array_items_unfold fuel s :
  array_items (S fuel) s
  = let! (item, s1) := scan_once fuel s in
    match skip_ws s1 with
    | String c rest =>
        if Ascii.eqb c "]"%char then Read ([item], rest)
        else if Ascii.eqb c ","%char then
          let! (items, rest') := array_items fuel (skip_ws rest) in
          Read (item :: items, rest')
        else Invalid
    | EmptyString => Invalid
    end.
Proof. reflexivity. Qed.

Lemma object_items_unfold fuel s :
  object_items (S fuel) s
  = let! (key, s1) := scanstring s in
    match skip_ws s1 with
    | String c rest =>
        if Ascii.eqb c ":"%char then
          let! (item, s2) := scan_once fuel (skip_ws rest) in
          match skip_ws s2 with
          | String c' rest' =>
              if Ascii.eqb c' "}"%char then Read ([(key, item)], rest')
              else if Ascii.eqb c' ","%char then
                match skip_ws rest' with
                | String c'' rest'' =>
                    if Ascii.eqb c'' quote then
                      let! (pairs, rest3) := object_items fuel rest'' in
                      Read ((key, item) :: pairs, rest3)
                    else Invalid
                | EmptyString => Invalid
                end
              else Invalid
          | EmptyString => Invalid
          end
        else Invalid
    | EmptyString => Invalid
    end.
Proof. reflexivity. Qed.

Lemma join_cons2 sep x y l :
  join sep (x :: y :: l) = x +:+ sep +:+ join sep (y :: l).
Proof. reflexivity. Qed.

Lemma items_head_ok x l rest :
  head_ok (join ", " (map dumps (x :: l)) +:+ rest).
Proof.
  destruct l as [|y l].
  - apply dumps_head.
  - cbn [map]. rewrite join_cons2, append_assoc. apply dumps_head.
Qed.

Lemma array_items_dumps items :
  items <> [] ->
  Forall reads_back items ->
  Forall wf items ->
  forall fuel rest,
    (cost_items items <= fuel)%nat ->
    array_items fuel (join ", " (map dumps items) +:+ String "]" rest)
    = Read (items, rest).
Proof.
  induction items as [|x l IH]; [congruence|].
  intros _ Hread Hwf fuel rest Hfuel.
  apply Forall_cons in Hread as [Hx Hread]. apply Forall_cons in Hwf as [Hwx Hwf].
  cbn [cost_items fold_right] in Hfuel.
  destruct fuel as [|fuel]; [lia|]. rewrite array_items_unfold.
  destruct l as [|y l].
  - change (join ", " (map dumps [x])) with (dumps x).
    rewrite (Hx Hwx fuel (String "]" rest)); [reflexivity | cbn in Hfuel; lia |].
    right. left. reflexivity.
  - cbn [map]. rewrite join_cons2, !append_assoc.
    change (", " +:+ join ", " (dumps y :: map dumps l) +:+ String "]" rest)
      with (String "," (String " " (join ", " (map dumps (y :: l)) +:+ String "]" rest))).
    rewrite (Hx Hwx fuel); [| fold (cost_items (y :: l)) in Hfuel; lia | left; reflexivity].
    cbn [bind_reading].
    change (skip_ws (String "," ?s)) with (String "," s).
    change (skip_ws (String "," (String " "
              (join ", " (map dumps (y :: l)) +:+ String "]" rest))))
      with (String "," (String " "
              (join ", " (map dumps (y :: l)) +:+ String "]" rest))).
    cbn [Ascii.eqb Bool.eqb andb].
    change (skip_ws (String " " (join ", " (map dumps (y :: l)) +:+ String "]" rest)))
      with (skip_ws (join ", " (map dumps (y :: l)) +:+ String "]" rest)).
    rewrite skip_ws_head by apply items_head_ok.
    rewrite IH; [reflexivity | congruence | assumption | assumption |].
    fold (cost_items (y :: l)) in Hfuel. lia.
Qed.

Lemma pair_text_append kv rest :
  pair_text kv +:+ rest
  = String quote (escape_chars (fst kv) +:+
                  String quote (String ":" (String " " (dumps (snd kv) +:+ rest)))).
Proof.
  unfold pair_text. rewrite append_assoc, encode_string_append, append_assoc.
  reflexivity.
Qed.

Lemma join_pairs_text pairs rest :
  pairs <> [] ->
  join ", " (map pair_text pairs) +:+ String "}" rest
  = String quote (pairs_text pairs rest).
Proof.
  induction pairs as [|kv l IH]; [congruence|]. intros _.
  destruct l as [|kv' l].
  - change (join ", " (map pair_text [kv])) with (pair_text kv).
    rewrite pair_text_append. reflexivity.
  - cbn [map]. rewrite join_cons2, !append_assoc, pair_text_append.
    change (", " +:+ join ", " (pair_text kv' :: map pair_text l) +:+ String "}" rest)
      with (String "," (String " "
              (join ", " (map pair_text (kv' :: l)) +:+ String "}" rest))).
    rewrite IH by congruence. reflexivity.
Qed.

Lemma object_items_dumps pairs :
  pairs <> [] ->
  Forall (fun kv => reads_back (snd kv)) pairs ->
  Forall (fun kv => wf (snd kv)) pairs ->
  forall fuel rest,
    (cost_pairs pairs <= fuel)%nat ->
    object_items fuel (pairs_text pairs rest) = Read (pairs, rest).
Proof.
  induction pairs as [|[k v] l IH]; [congruence|].
  intros _ Hread Hwf fuel rest Hfuel.
  apply Forall_cons in Hread as [Hv Hread]. apply Forall_cons in Hwf as [Hwv Hwf].
  cbn [snd] in Hv, Hwv. cbn [cost_pairs fold_right snd] in Hfuel.
  destruct fuel as [|fuel]; [lia|]. rewrite object_items_unfold.
  cbn [pairs_text fst snd]. rewrite scanstring_escape_chars. cbn [bind_reading].
  change (skip_ws (String ":" ?s)) with (String ":" s).
  cbn [Ascii.eqb Bool.eqb andb].
  match goal with
  | |- context [skip_ws (String " " (dumps v +:+ ?t))] =>
      change (skip_ws (String " " (dumps v +:+ t))) with (skip_ws (dumps v +:+ t));
      rewrite (skip_ws_head (dumps v +:+ t)) by apply dumps_head
  end.
  destruct l as [|kv' l].
  - rewrite (Hv Hwv fuel (String "}" rest)); [reflexivity | lia |].
    right. right. reflexivity.
  - rewrite (Hv Hwv fuel); [| fold (cost_pairs (kv' :: l)) in Hfuel; lia | left; reflexivity].
    cbn [bind_reading].
    change (skip_ws (String "," ?s)) with (String "," s).
    cbn [Ascii.eqb Bool.eqb andb].
    change (skip_ws (String " " (String quote ?s))) with (String quote s).
    change (Ascii.eqb quote quote) with true. cbv iota.
    rewrite IH; [reflexivity | congruence | assumption | assumption |].
    fold (cost_pairs (kv' :: l)) in Hfuel. lia.
Qed.

Lemma dict_of_pairs_distinct pairs :
  List.NoDup (dict_keys pairs) -> dict_of_pairs pairs = pairs.
Proof.
  unfold dict_of_pairs.
  assert (Hgen : forall acc,
            List.NoDup (dict_keys (acc ++ pairs)) ->
            fold_left (fun d kv => dict_set d (fst kv) (snd kv)) pairs acc = acc ++ pairs).
  { induction pairs as [|[k v] l IH]; intros acc Hnd; cbn [fold_left].
    - rewrite app_nil_r. reflexivity.
    - cbn [fst snd]. rewrite dict_set_fresh.
      + rewrite IH; rewrite <- app_assoc; [reflexivity | exact Hnd].
      + unfold dict_keys in *. rewrite map_app in Hnd. cbn [map fst] in Hnd.
        apply List.NoDup_remove_2 in Hnd. intros Hin. apply Hnd.
        apply in_or_app. left. exact Hin. }
  intros Hnd. apply (Hgen []). exact Hnd.
Qed.

Lemma scan_once_dumps j : reads_back j.
Proof.
  induction j as [ |b|z|s|items IH|pairs IH|items IH] using json_induction;
    intros Hwf fuel rest Hfuel Hrest; [| | | | | |destruct Hwf].
  - destruct fuel as [|fuel]; [cbn in Hfuel; lia | reflexivity].
  - destruct fuel as [|fuel]; [cbn in Hfuel; lia | destruct b; reflexivity].
  - destruct fuel as [|fuel]; [cbn in Hfuel; lia|]. apply parse_number_Z, Hrest.
  - destruct fuel as [|fuel]; [cbn in Hfuel; lia|].
    cbn [dumps]. rewrite encode_string_append, scan_once_string, scanstring_escape_chars.
    reflexivity.
  - rewrite cost_list in Hfuel. destruct fuel as [|fuel]; [lia|].
    apply wf_list in Hwf.
    cbn [dumps]. rewrite !append_cons, append_nil_l, append_assoc.
    change ("]" +:+ rest) with (String "]" rest).
    rewrite scan_once_array.
    destruct items as [|x l].
    + reflexivity.
    + pose proof (items_head_ok x l (String "]" rest)) as Hhead.
      rewrite skip_ws_head by exact Hhead.
      destruct (join ", " (map dumps (x :: l)) +:+ String "]" rest) as [|c' rest'] eqn:Htext;
        [contradiction|].
      destruct Hhead as [_ ->]. rewrite <- Htext.
      rewrite array_items_dumps; [reflexivity | congruence | assumption | assumption | lia].
  - rewrite cost_dict in Hfuel. destruct fuel as [|fuel]; [lia|].
    apply wf_dict in Hwf as [Hkeys Hwf].
    cbn [dumps]. rewrite !append_cons, append_nil_l, append_assoc.
    change ("}" +:+ rest) with (String "}" rest).
    rewrite scan_once_object.
    destruct pairs as [|kv l].
    + reflexivity.
    + change (fun kv0 : string * json => encode_string (fst kv0) +:+ ": " +:+ dumps (snd kv0))
        with pair_text.
      rewrite join_pairs_text by congruence.
      change (skip_ws (String quote ?s)) with (String quote s).
      change (Ascii.eqb quote "}"%char) with false.
      change (Ascii.eqb quote quote) with true. cbv iota.
      rewrite object_items_dumps; [| congruence | assumption | assumption | lia].
      cbn [bind_reading]. rewrite dict_of_pairs_distinct by assumption. reflexivity.
Qed.

(** The text of a value is at least as long as the number of calls that
    read it. *)
Lemma cost_items_length items :
  items <> [] ->
  Forall (fun x => (cost x <= String.length (dumps x))%nat) items ->
  (cost_items items <= String.length (join ", " (map dumps items)) + 1)%nat.
Proof.
  induction items as [|x l IH]; [congruence|]. intros _ Hall.
  apply Forall_cons in Hall as [Hx Hall].
  destruct l as [|y l].
  - change (join ", " (map dumps [x])) with (dumps x). cbn [cost_items fold_right]. lia.
  - cbn [map]. rewrite join_cons2, !length_append.
    change (cost_items (x :: y :: l)) with (S (cost x) + cost_items (y :: l))%nat.
    specialize (IH ltac:(congruence) Hall). cbn [map] in IH.
    change (String.length ", ") with 2%nat. lia.
Qed.

Lemma cost_pairs_length pairs :
  pairs <> [] ->
  Forall (fun kv => (cost (snd kv) <= String.length (dumps (snd kv)))%nat) pairs ->
  (cost_pairs pairs <= String.length (join ", " (map pair_text pairs)) + 1)%nat.
Proof.
  induction pairs as [|x l IH]; [congruence|]. intros _ Hall.
  apply Forall_cons in Hall as [Hx Hall].
  assert (Hpair : (cost (snd x) <= String.length (pair_text x))%nat).
  { unfold pair_text. rewrite !length_append. lia. }
  destruct l as [|y l].
  - change (join ", " (map pair_text [x])) with (pair_text x).
    cbn [cost_pairs fold_right]. lia.
  - cbn [map]. rewrite join_cons2, !length_append.
    change (cost_pairs (x :: y :: l)) with (S (cost (snd x)) + cost_pairs (y :: l))%nat.
    specialize (IH ltac:(congruence) Hall). cbn [map] in IH.
    change (String.length ", ") with 2%nat. lia.
Qed.

Lemma cost_le_length j : (cost j <= String.length (dumps j))%nat.
Proof.
  induction j as [ |b|z|s|items IH|pairs IH|items IH] using json_induction;
    [| | | | | |cbn [cost dumps]; rewrite !length_append;
                change (String.length "[") with 1%nat; lia].
  - cbn. lia.
  - destruct b; cbn; lia.
  - cbn [cost dumps]. destruct (string_of_Z_head z "") as (c & s & Hs & _).
    rewrite append_nil_r in Hs. rewrite Hs. cbn [String.length]. lia.
  - cbn [cost dumps]. unfold encode_string. cbn [String.length]. lia.
  - rewrite cost_list. cbn [dumps]. rewrite !length_append.
    change (String.length "[") with 1%nat. change (String.length "]") with 1%nat.
    destruct items as [|x l]; [cbn; lia|].
    pose proof (cost_items_length (x :: l) ltac:(congruence) IH). lia.
  - rewrite cost_dict. cbn [dumps]. rewrite !length_append.
    change (String.length "{") with 1%nat. change (String.length "}") with 1%nat.
    destruct pairs as [|x l]; [cbn; lia|].
    change (fun kv : string * json => encode_string (fst kv) +:+ ": " +:+ dumps (snd kv))
      with pair_text.
    pose proof (cost_pairs_length (x :: l) ltac:(congruence) IH). lia.
Qed.

(** Reading the text that [dumps] writes gives the value back. *)
Lemma loads_dumps j : wf j -> loads (dumps j) = Read j.
Proof.
  intros Hwf. unfold loads.
  pose proof (dumps_head j "") as Hhead. rewrite append_nil_r in Hhead.
  rewrite skip_ws_head by exact Hhead.
  pose proof (scan_once_dumps j Hwf (String.length (dumps j)) "" (cost_le_length j) I)
    as Hscan.
  rewrite append_nil_r in Hscan. rewrite Hscan. reflexivity.
Qed.

End JsonFacts.

(** ** Serializer and deserializer *)




(** ** Signature filter and merger: further properties *)

Lemma substring_all (s : string) : substring 0 (String.length s) s = s.
Proof. induction s as [|c s IH]; simpl; [reflexivity|f_equal; exact IH]. Qed.

Lemma substring_split (s : string) : forall n,
  (n <= String.length s)%nat ->
  s = substring 0 n s +:+ substring n (String.length s - n) s.
Proof.
  induction s as [|c s IH]; intros n Hn.
  - simpl in Hn. assert (n = 0%nat) by lia. subst n. reflexivity.
  - destruct n as [|n].
    + rewrite Nat.sub_0_r, substring_all. reflexivity.
    + simpl in Hn.
      change (String c s = String c (substring 0 n s +:+ substring n (String.length s - n) s)).
      f_equal. apply IH. lia.
Qed.

Lemma endswith_split s suffix :
  endswith s suffix = true ->
  s = drop_last (String.length suffix) s +:+ suffix.
Proof.
  unfold endswith, drop_last. intros H.
  apply andb_true_iff in H as [Hlen Heq].
  apply Nat.leb_le in Hlen. apply String.eqb_eq in Heq.
  rewrite (substring_split s (String.length s - String.length suffix)) at 1 by lia.
  replace (String.length s - (String.length s - String.length suffix))%nat
    with (String.length suffix) by lia.
  rewrite Heq. reflexivity.
Qed.

Lemma resource_name_suffix name :
  is_resource_name_parameter_name name = true ->
  name = drop_last (String.length "_name") name +:+ "_name".
Proof.
  unfold is_resource_name_parameter_name. intros H.
  apply andb_true_iff in H as [_ H]. apply (endswith_split _ _ H).
Qed.

Lemma new_Parameter_inv name k default ann p :
  new_Parameter name k default ann = Ok p ->
  p = mkParameter name k default ann \/
  exists rest, name = String "."%char rest.
Proof.
  unfold new_Parameter.
  destruct (is_variadic k && bool_decide (default <> None)); [discriminate|].
  destruct name as [|c rest]; [discriminate|].
  destruct (Ascii.eqb_spec c "."%char) as [->|Hdot]; [intros _; right; eauto|].
  cbn [andb bind_result].
  destruct (_ || _); [discriminate|]. intros [= <-]. left. reflexivity.
Qed.

Lemma drop_last_identifier n name rest :
  isidentifier name = true -> drop_last n name <> String "."%char rest.
Proof.
  unfold drop_last. destruct name as [|c name]; [discriminate|].
  intros Hid. destruct (String.length (String c name) - n)%nat; cbn [substring].
  - discriminate.
  - intros [= -> _]. discriminate Hid.
Qed.

Lemma new_Parameter_name n name k default ann p :
  isidentifier name = true ->
  new_Parameter (drop_last n name) k default ann = Ok p ->
  p = mkParameter (drop_last n name) k default ann.
Proof.
  intros Hid H. destruct (new_Parameter_inv _ _ _ _ _ H) as [|(rest & Hrest)];
    [assumption|].
  exfalso. exact (drop_last_identifier _ _ _ Hid Hrest).
Qed.

Lemma filter_parameters_records params is_init self_type :
  identifier_names params ->
  forall (m : gmap string string) new_params (m' : gmap string string),
  filter_parameters params is_init self_type (Some m) = Ok (new_params, Some m') ->
  forall k v, m' !! k = Some v ->
    m !! k = Some v \/
    (is_init = true /\
     v = k +:+ "_name" /\
     is_resource_name_parameter_name v = true /\
     In v (map param_name params) /\
     exists p, In p new_params /\ param_name p = k /\ param_annotation p = self_type).
Proof.
  induction params as [|p params IH]; intros Hid m new_params m' H k v Hk.
  - simpl in H. injection H as <- <-. left. exact Hk.
  - apply List.Forall_cons_iff in Hid as [Hidp Hid]. simpl in H.
    destruct (bool_decide (param_name p ∈ PARAMS_TO_REMOVE)).
    { destruct (IH Hid _ _ _ H k v Hk) as [|(? & ? & ? & ? & ?)]; [left; assumption|].
      right. simpl. repeat split; auto. }
    destruct (is_init && is_resource_name_parameter_name (param_name p)) eqn:Hren.
    + apply andb_true_iff in Hren as [-> Hres].
      destruct (new_Parameter _ _ _ _) as [new_param|] eqn:Hnew; [|discriminate].
      simpl in H.
      destruct (filter_parameters params true self_type _) as [[new_params' names']|] eqn:Hrest;
        [|discriminate].
      simpl in H. injection H as <- ->.
      apply (new_Parameter_name _ _ _ _ _ _ Hidp) in Hnew.
      destruct (IH Hid _ _ _ Hrest k v Hk) as [Hm|(? & ? & ? & ? & q & ? & ? & ?)].
      * destruct (decide (k = drop_last (String.length "_name") (param_name p))) as [->|Hne].
        -- rewrite lookup_insert_eq in Hm. injection Hm as <-.
           right. repeat split.
           ++ apply resource_name_suffix, Hres.
           ++ exact Hres.
           ++ simpl. auto.
           ++ exists new_param. rewrite Hnew. simpl. auto.
        -- rewrite lookup_insert_ne in Hm by (intros E; apply Hne; rewrite <- E; reflexivity). left. exact Hm.
      * right. simpl. repeat split; auto. exists q. auto.
    + destruct (filter_parameters params is_init self_type _) as [[new_params' names']|] eqn:Hrest;
        [|discriminate].
      simpl in H. injection H as <- ->.
      destruct (IH Hid _ _ _ Hrest k v Hk) as [|(? & ? & ? & ? & q & ? & ? & ?)];
        [left; assumption|].
      right. simpl. repeat split; auto. exists q. auto.
Qed.

(** X1: when the filter, started with an empty rename dictionary on a
    signature whose names are identifiers, returns, every entry of the
    dictionary is a shortening: the value is the key followed by
    [_name], it is a resource name among the names of the input
    signature, and the returned signature has a parameter named as the
    key, annotated with the owning class. *)
Theorem filter_signature_recorded_names (sig : Signature) (is_init : bool)
    (self_type : annotation) (sig' : Signature) (m' : gmap string string) :
  identifier_names (parameters sig) ->
  filter_signature sig is_init self_type (Some ∅) = Ok (sig', Some m') ->
  forall k v, m' !! k = Some v ->
    v = k +:+ "_name" /\
    is_resource_name_parameter_name v = true /\
    In v (map param_name (parameters sig)) /\
    exists p, In p (parameters sig') /\ param_name p = k /\ param_annotation p = self_type.
Proof.
  unfold filter_signature. intros Hid H k v Hk.
  destruct (filter_parameters _ _ _ _) as [[new_params names]|] eqn:Hf; [|discriminate].
  simpl in H. unfold new_Signature in H.
  destruct (validate_parameters _ _ _ _); [|discriminate].
  simpl in H. injection H as <- ->.
  destruct (filter_parameters_records _ _ _ Hid _ _ _ Hf k v Hk) as [Hm|(_ & ? & ? & ? & ?)].
  - rewrite lookup_empty in Hm. discriminate.
  - simpl. repeat split; auto.
Qed.

Lemma filter_signature_recorded_names_witness :
  exists sig' m',
    filter_signature (class_init_signature sample_Model) true (AClass Model_class) (Some ∅)
      = Ok (sig', Some m') /\
    m' !! "model" = Some "model_name" /\
    "model_name" = "model" +:+ "_name" /\
    exists p, In p (parameters sig') /\ param_name p = "model" /\
              param_annotation p = AClass Model_class.
Proof.
  eexists _, _.
  assert (H : filter_signature (class_init_signature sample_Model) true (AClass Model_class) (Some ∅)
    = Ok (mkSignature
            [ required "model" (AClass Model_class);
              optional "project" (Optional (AClass str_class)) VNone;
              optional "location" (Optional (AClass str_class)) VNone ]
            (AClass inspect_empty),
          Some (<["model" := "model_name"]> ∅))).
  { vm_compute. reflexivity. }
  split; [exact H|].
  assert (Hk : (<["model" := "model_name"]> (∅ : gmap string string)) !! "model"
               = Some "model_name") by apply lookup_insert_eq.
  split; [exact Hk|].
  assert (Hid : identifier_names (parameters (class_init_signature sample_Model))).
  { repeat (apply List.Forall_cons; [reflexivity|]). apply List.Forall_nil. }
  destruct (filter_signature_recorded_names _ _ _ _ _ Hid H _ _ Hk) as (? & _ & _ & ?).
  split; assumption.
Defined.

Lemma filtered_parameters_method self_type params :
  filtered_parameters false self_type params = filter kept params.
Proof.
  unfold filtered_parameters.
  induction (filter kept params) as [|p l IH]; [reflexivity|].
  simpl. rewrite IH. reflexivity.
Qed.

Lemma filter_kept_idempotent (params : list Param) :
  filter kept (filter kept params) = filter kept params.
Proof.
  induction params as [|p params IH]; [reflexivity|].
  destruct (decide (kept p)) as [Hk|Hk].
  - rewrite (filter_cons_True kept) by assumption.
    rewrite (filter_cons_True kept) by assumption. rewrite IH. reflexivity.
  - rewrite (filter_cons_False kept) by assumption. exact IH.
Qed.

(** X2: filtering a method signature leaves the rename dictionary as it
    was, keeps the return annotation and exactly the parameters whose
    names are not among the removed ones, and filtering the result
    again returns it unchanged. *)
Theorem filter_signature_method_idempotent (sig : Signature) (self_type : annotation)
    (names : option (gmap string string)) (sig' : Signature)
    (names' : option (gmap string string)) :
  filter_signature sig false self_type names = Ok (sig', names') ->
  names' = names /\
  return_annotation sig' = return_annotation sig /\
  parameters sig' = filter (fun p => param_name p ∉ PARAMS_TO_REMOVE) (parameters sig) /\
  (forall p, In p (parameters sig') -> param_name p ∉ PARAMS_TO_REMOVE) /\
  filter_signature sig' false self_type names = Ok (sig', names).
Proof.
  unfold filter_signature. rewrite filter_parameters_method. simpl.
  unfold new_Signature.
  destruct (validate_parameters _ _ _ _) as [[]|] eqn:Hval; [|discriminate].
  simpl. intros [= <- <-]. simpl.
  rewrite filtered_parameters_method in *.
  repeat split.
  - intros p Hp. apply list_elem_of_In, list_elem_of_filter in Hp as [Hkept _].
    exact Hkept.
  - rewrite filter_parameters_method. simpl. rewrite filtered_parameters_method.
    rewrite filter_kept_idempotent. rewrite Hval. reflexivity.
Qed.

Lemma filter_signature_method_idempotent_witness :
  exists sig',
    filter_signature (method_object_signature sample_deploy) false ANone None
      = Ok (sig', None) /\
    map param_name (parameters sig')
      = ["endpoint"; "deployed_model_display_name"; "machine_type"; "labels"] /\
    filter_signature sig' false ANone None = Ok (sig', None).
Proof.
  eexists.
  assert (H : filter_signature (method_object_signature sample_deploy) false ANone None
              = Ok (mkSignature
                      (filter kept (parameters (method_object_signature sample_deploy)))
                      (AClass Endpoint_class), None)) by reflexivity.
  split; [exact H|]. split; [reflexivity|].
  apply (filter_signature_method_idempotent _ _ _ _ _ H).
Defined.

Lemma filter_parameters_no_dictionary params self_type :
  Forall wf_parameter params ->
  Forall (renamed_name_ok true) params ->
  (exists p, In p params /\ kept p /\
             is_resource_name_parameter_name (param_name p) = true) ->
  filter_parameters params true self_type None = Raise TypeError.
Proof.
  induction params as [|p params IH]; intros Hwf Hne (q & Hq & Hkept & Hres).
  - destruct Hq.
  - apply List.Forall_cons_iff in Hwf as [Hwfp Hwf].
    apply List.Forall_cons_iff in Hne as [Hnep Hne].
    simpl.
    destruct (bool_decide_reflect (param_name p ∈ PARAMS_TO_REMOVE)) as [Hrem|Hrem].
    + apply IH; [assumption..|].
      destruct Hq as [->|Hq]; [contradiction|]. eauto.
    + destruct (is_resource_name_parameter_name (param_name p)) eqn:Hp; simpl.
      * rewrite new_Parameter_ok; [reflexivity|exact Hwfp|].
        pose proof (Hnep Hrem) as Hok.
        unfold component_name, is_renamed in Hok. cbn [andb] in Hok.
        rewrite Hp in Hok. exact (Hok eq_refl).
      * rewrite IH; [reflexivity|assumption..|].
        destruct Hq as [->|Hq]; [congruence|]. eauto.
Qed.

(** X3: a constructor signature with a kept resource-name parameter is
    not filtered without a rename dictionary, which is the default of
    the filter: the entry is written into [None], a [TypeError]. *)
Theorem filter_signature_no_dictionary (sig : Signature) (self_type : annotation) :
  Forall wf_parameter (parameters sig) ->
  Forall (renamed_name_ok true) (parameters sig) ->
  (exists p, In p (parameters sig) /\ kept p /\
             is_resource_name_parameter_name (param_name p) = true) ->
  filter_signature sig true self_type None = Raise TypeError.
Proof.
  intros Hwf Hne Hex. unfold filter_signature.
  rewrite filter_parameters_no_dictionary by assumption. reflexivity.
Qed.

Lemma filter_signature_no_dictionary_witness :
  filter_signature (class_init_signature sample_Model) true (AClass Model_class) None
  = Raise TypeError.
Proof.
  apply filter_signature_no_dictionary.
  - apply (bool_decide_unpack _). vm_compute. exact I.
  - repeat (apply List.Forall_cons; [intros _ _; vm_compute; reflexivity|]).
    apply List.Forall_nil.
  - exists (required "model_name" (AClass str_class)).
    split; [simpl; auto|]. split; [|reflexivity].
    apply (bool_decide_unpack _). vm_compute. exact I.
Defined.

Lemma validate_parameters_error params : forall top kind_defaults seen e,
  validate_parameters top kind_defaults seen params = Raise e -> e = ValueError.
Proof.
  induction params as [|p params IH]; intros top kd seen e; simpl; [discriminate|].
  destruct (kind_rank (param_kind p) <? kind_rank top)%nat; [congruence|].
  match goal with
  | |- (if ?b then _ else _) = _ -> _ => destruct b; [congruence|]
  end.
  destruct (existsb _ seen); [congruence|]. apply IH.
Qed.

Lemma validate_parameters_ok params : forall top kind_defaults seen,
  validate_parameters top kind_defaults seen params = Ok tt ->
  Forall (fun p => (kind_rank top <= kind_rank (param_kind p))%nat) params /\
  kinds_in_order params /\
  Forall (fun p => ~ In (param_name p) seen) params /\
  List.NoDup (map param_name params).
Proof.
  induction params as [|p params IH]; intros top kd seen; simpl.
  - intros _. repeat split; constructor.
  - destruct (Nat.ltb_spec (kind_rank (param_kind p)) (kind_rank top)) as [|Hge];
      [discriminate|].
    match goal with
    | |- (if ?b then _ else _) = _ -> _ => destruct b; [discriminate|]
    end.
    destruct (existsb _ seen) eqn:Hseen; [discriminate|].
    intros H. destruct (IH _ _ _ H) as (Hrank & Hsorted & Hfresh & Hnodup).
    assert (Hp : ~ In (param_name p) seen).
    { apply (fresh_name_iff seen p). exact Hseen. }
    repeat split.
    + constructor; [exact Hge|].
      eapply List.Forall_impl; [|exact Hrank]. simpl. intros; lia.
    + constructor; [exact Hsorted|exact Hrank].
    + constructor; [exact Hp|].
      eapply List.Forall_impl; [|exact Hfresh]. simpl. intros q Hq Hin. apply Hq.
      right. exact Hin.
    + constructor; [|exact Hnodup].
      intros Hin. apply in_map_iff in Hin as (q & Hname & Hq).
      rewrite List.Forall_forall in Hfresh. apply (Hfresh q Hq).
      left. symmetry. exact Hname.
Qed.

Lemma kinds_in_order_app l1 : forall l2 p q,
  kinds_in_order (l1 ++ l2) -> In q l1 -> In p l2 ->
  (kind_rank (param_kind q) <= kind_rank (param_kind p))%nat.
Proof.
  induction l1 as [|x l1 IH]; intros l2 p q Hs Hq Hp; [destruct Hq|].
  simpl in Hs. apply StronglySorted_inv in Hs as [Hs Hx].
  destruct Hq as [->|Hq].
  - rewrite List.Forall_forall in Hx. apply Hx, in_or_app. right. exact Hp.
  - eapply IH; eassumption.
Qed.

Lemma required_then_defaulted_permutation (l : list Param) :
  filter has_no_default l ++ filter (fun p => ~ has_no_default p) l ≡ₚ l.
Proof. apply filter_app_complement. Qed.

Lemma signatures_union_cases init_sig method_sig :
  let params := parameters init_sig ++ parameters method_sig in
  let sorted := filter has_no_default params
                ++ filter (fun p => ~ has_no_default p) params in
  (signatures_union init_sig method_sig
     = Ok (mkSignature sorted (return_annotation method_sig)) /\
   kinds_in_order sorted /\
   List.NoDup (map param_name params)) \/
  (signatures_union init_sig method_sig = Raise ValueError /\
   validate_parameters POSITIONAL_ONLY false [] sorted = Raise ValueError).
Proof.
  intros params sorted. unfold signatures_union, new_Signature.
  rewrite sort_by_union_key. fold params. fold sorted.
  destruct (validate_parameters POSITIONAL_ONLY false [] sorted) as [[]|e] eqn:Hval.
  - left. destruct (validate_parameters_ok _ _ _ _ Hval) as (_ & Hs & _ & Hn).
    repeat split; [exact Hs|].
    eapply Permutation_NoDup; [|exact Hn].
    apply Permutation_map. apply required_then_defaulted_permutation.
  - right. apply validate_parameters_error in Hval as ->. split; reflexivity.
Qed.

(** X4: the merger raises nothing but [ValueError]; when it returns,
    the return annotation is the method's, the parameters are the
    required ones of constructor and method followed by those with a
    default, each group in its order, their kinds do not decrease, and
    the names of constructor and method are pairwise distinct. *)
Theorem signatures_union_result (init_sig method_sig : Signature) :
  match signatures_union init_sig method_sig with
  | Ok sig =>
      return_annotation sig = return_annotation method_sig /\
      parameters sig
      = filter (fun p => param_default p = None)
               (parameters init_sig ++ parameters method_sig)
        ++ filter (fun p => param_default p <> None)
                  (parameters init_sig ++ parameters method_sig) /\
      kinds_in_order (parameters sig) /\
      NoDup (map param_name (parameters init_sig ++ parameters method_sig))
  | Raise e => e = ValueError
  end.
Proof.
  destruct (signatures_union_cases init_sig method_sig)
    as [(-> & Hs & Hn)|(-> & _)]; [|reflexivity].
  simpl. repeat split; [assumption|]. apply NoDup_ListNoDup. exact Hn.
Qed.

(** X5: when a parameter with a default has a kind that comes before
    the kind of a required parameter (a positional parameter with a
    default and a required keyword-only one), the merger raises
    [ValueError]: the sort puts the required one first, out of kind
    order. *)
Theorem signatures_union_kind_conflict (init_sig method_sig : Signature) (p q : Param) :
  In p (parameters init_sig ++ parameters method_sig) ->
  In q (parameters init_sig ++ parameters method_sig) ->
  param_default p <> None ->
  param_default q = None ->
  (kind_rank (param_kind p) < kind_rank (param_kind q))%nat ->
  signatures_union init_sig method_sig = Raise ValueError.
Proof.
  intros Hp Hq Hdp Hdq Hlt.
  destruct (signatures_union_cases init_sig method_sig)
    as [(_ & Hs & _)|(-> & _)]; [|reflexivity].
  exfalso.
  assert (kind_rank (param_kind q) <= kind_rank (param_kind p))%nat; [|lia].
  eapply kinds_in_order_app; [exact Hs| |].
  - apply list_elem_of_In, list_elem_of_filter. split; [exact Hdq|].
    apply list_elem_of_In. exact Hq.
  - apply list_elem_of_In, list_elem_of_filter. split; [exact Hdp|].
    apply list_elem_of_In. exact Hp.
Qed.

Lemma signatures_union_kind_conflict_witness :
  signatures_union
    sample_init_filtered
    (mkSignature [ mkParameter "instances" KEYWORD_ONLY None
                     (AGeneric OList [AOther "typing.Any"]) ]
                 (AClass inspect_empty))
  = Raise ValueError.
Proof.
  apply (signatures_union_kind_conflict _ _
           (optional "project" (Optional (AClass str_class)) VNone)
           (mkParameter "instances" KEYWORD_ONLY None
              (AGeneric OList [AOther "typing.Any"]))).
  - simpl. auto.
  - simpl. auto 10.
  - discriminate.
  - reflexivity.
  - simpl. lia.
Defined.

(** ** Annotations: further properties *)

(** X6: [Optional[X]], and any union whose first member is [X],
    resolves as [X] does, when [X] is no union itself and not
    [inspect.Parameter.empty]. *)
Theorem resolve_annotation_Optional (getattr : string -> annotation)
    (first : annotation) (rest : list annotation) :
  (forall first' rest', first <> AUnion first' rest') ->
  is_inspect_empty first = false ->
  resolve_annotation getattr (AUnion first rest) = resolve_annotation getattr first.
Proof.
  intros Hunion Hempty.
  rewrite !resolve_annotation_unfold. unfold resolve_annotation_by_attribute.
  change (is_mb_sdk_resource_noun_type (AUnion first rest)) with false.
  change (named_attribute getattr (AUnion first rest)) with (@None annotation).
  cbv iota.
  destruct (is_mb_sdk_resource_noun_type first) eqn:Hnoun.
  - destruct first; try discriminate. reflexivity.
  - destruct (named_attribute getattr first) as [attr|] eqn:Hattr; [reflexivity|].
    rewrite Hempty.
    destruct first; try reflexivity.
    exfalso. eapply Hunion. reflexivity.
Qed.

Lemma resolve_annotation_Optional_witness :
  resolve_annotation sample_getattr (Optional (AStr "Endpoint"))
  = resolve_annotation sample_getattr (AStr "Endpoint").
Proof.
  apply resolve_annotation_Optional; [discriminate|reflexivity].
Defined.

(** X7: [should_be_metadata_type] holds of the same annotations as
    [is_mb_sdk_resource_noun_type]; such a type resolves to itself, has
    no serializer and no deserializer, and an input of that type is
    bound by [inputPath], typed by the label the mapper gives; a type
    of which it does not hold is a [String] bound by [inputValue]. *)
Theorem should_be_metadata_type_binding (getattr : string -> annotation)
    (t : annotation) :
  should_be_metadata_type t = is_mb_sdk_resource_noun_type t /\
  (should_be_metadata_type t = true ->
     resolve_annotation getattr t = t /\
     get_serializer t = None /\
     get_deserializer t = None /\
     forall component_param_type component_type,
       input_type_and_binding t = Ok (component_param_type, component_type) ->
       component_type = "inputPath" /\
       exists name, map_resource_to_metadata_type t = Some (name, component_param_type)) /\
  (should_be_metadata_type t = false ->
     input_type_and_binding t = Ok ("String", "inputValue")).
Proof.
  split; [reflexivity|]. split.
  - intros H. destruct t; try discriminate. simpl in H.
    split.
    { unfold resolve_annotation, is_subclass_of. rewrite H. reflexivity. }
    split; [reflexivity|]. split; [reflexivity|].
    intros ty b. unfold input_type_and_binding, is_mb_sdk_resource_noun_type, is_subclass_of.
    rewrite H.
    destruct (map_resource_to_metadata_type (AClass c)) as [[name label]|]; [|discriminate].
    intros Heq. injection Heq as <- <-. split; [reflexivity|]. exists name. reflexivity.
  - intros H. unfold input_type_and_binding.
    change (is_mb_sdk_resource_noun_type t) with (should_be_metadata_type t).
    rewrite H. reflexivity.
Qed.

Lemma should_be_metadata_type_binding_witness :
  input_type_and_binding (AClass Model_class) = Ok ("Model", "inputPath") /\
  input_type_and_binding (AClass str_class) = Ok ("String", "inputValue").
Proof.
  destruct (should_be_metadata_type_binding sample_getattr (AClass Model_class))
    as (_ & Hnoun & _).
  destruct (should_be_metadata_type_binding sample_getattr (AClass str_class))
    as (_ & _ & Hother).
  split; [reflexivity|]. apply Hother. reflexivity.
Defined.

(** X8: whatever the mapper returns is one of five pairs, and its label
    is [JsonArray] exactly for the JSON-serializable container
    types. *)
Theorem map_resource_to_metadata_type_range (t : annotation) (name label : string) :
  map_resource_to_metadata_type t = Some (name, label) ->
  In (name, label) metadata_types /\
  (is_serializable_to_json t = true <-> label = "JsonArray").
Proof.
  unfold map_resource_to_metadata_type.
  destruct t as [cls| |s| | |o args|]; cbn [is_serializable_to_json is_str_equal];
    try discriminate.
  - destruct (is_mb_sdk_resource_noun_type (AClass cls)) eqn:Hnoun; [|discriminate].
    destruct (first_matching_key cls RESOURCE_TO_METADATA_TYPE) as [[n l]|] eqn:Hf;
      [|discriminate].
    intros [= -> ->].
    apply first_matching_key_Some in Hf as (key & Hin & _ & ->).
    simpl in Hin.
    destruct Hin as [[= <- <-]|[[= <- <-]|[[= <- <-]|[[= <- <-]|[]]]]];
      (split; [vm_compute; auto 10|split; discriminate]).
  - destruct (String.eqb s "_Dataset"); [|discriminate].
    intros [= <- <-]. split; [vm_compute; auto 10|]. split; discriminate.
  - destruct o; try discriminate; intros [= <- <-];
      (split; [vm_compute; auto 10|split; reflexivity]).
Qed.

Lemma map_resource_to_metadata_type_range_witness :
  In ("endpoint", "Artifact") metadata_types /\
  (is_serializable_to_json (AClass Endpoint_class) = true <-> "Artifact" = "JsonArray").
Proof.
  apply (map_resource_to_metadata_type_range (AClass Endpoint_class)). reflexivity.
Defined.

(** ** The converted component *)

Lemma filter_signature_inv sig is_init self_type names sig' names' :
  filter_signature sig is_init self_type names = Ok (sig', names') ->
  return_annotation sig' = return_annotation sig /\
  filter_parameters (parameters sig) is_init self_type names
    = Ok (parameters sig', names') /\
  validate_parameters POSITIONAL_ONLY false [] (parameters sig') = Ok tt.
Proof.
  unfold filter_signature, new_Signature.
  destruct (filter_parameters _ _ _ _) as [[new_params names1]|]; [|discriminate].
  cbn [bind_result].
  destruct (validate_parameters _ _ _ new_params) as [[]|] eqn:Hval; [|discriminate].
  cbn [bind_result]. intros [= <- <-]. auto.
Qed.

Lemma convert_method_to_component_inv getattr cls method c :
  convert_method_to_component getattr cls method = Ok c ->
  exists mnames names sig,
    filter_signature (method_object_signature method) false ANone None
      = Ok (method_signature c, mnames) /\
    filter_signature (class_init_signature cls) true (AClass (class_object cls)) (Some ∅)
      = Ok (init_signature c, names) /\
    output_declaration
      (resolve_annotation getattr (return_annotation (method_signature c)))
      = Ok (outputs c, output_args c) /\
    (if method_isfunction method
     then signatures_union (init_signature c) (method_signature c)
     else Ok (method_signature c)) = Ok sig /\
    c = mkComponent (class_name (class_object cls)) (method_object_name method)
          (init_signature c) (method_signature c) (method_isfunction method)
          (default ∅ names)
          (if method_isfunction method
           then list_to_set (map param_name (parameters (init_signature c)))
           else ∅)
          (outputs c) (output_args c) sig.
Proof.
  unfold convert_method_to_component.
  destruct (filter_signature (method_object_signature method) false ANone None)
    as [[msig mnames]|e]; [|discriminate].
  cbn [bind_result].
  destruct (filter_signature (class_init_signature cls) true _ (Some ∅))
    as [[isig names]|e]; [|discriminate].
  cbn [bind_result].
  destruct (output_declaration _) as [[outs out_args]|e] eqn:Hout; [|discriminate].
  cbn [bind_result].
  destruct (if method_isfunction method then signatures_union isig msig else Ok msig)
    as [sig|e] eqn:Hsig; [|discriminate].
  cbn [bind_result]. intros [= <-]. cbn.
  exists mnames, names, sig. rewrite Hout. auto 10.
Qed.

(** X9: a converted component carries the names of the class and of
    the method; its outputs section and output arguments are empty when
    the resolved return annotation of the method is false as a
    condition, and otherwise declare one output, with the name and the
    label the mapper gives for that annotation. *)
Theorem convert_method_to_component_outputs (getattr : string -> annotation)
    (cls : sdk_class) (method : sdk_method) (c : component) :
  convert_method_to_component getattr cls method = Ok c ->
  cls_name c = class_name (class_object cls) /\
  method_name c = method_object_name method /\
  let output_type :=
    resolve_annotation getattr (return_annotation (method_object_signature method)) in
  (truthy output_type = false /\ outputs c = "" /\ output_args c = "") \/
  (exists output_metadata_name output_metadata_type,
     truthy output_type = true /\
     map_resource_to_metadata_type output_type
       = Some (output_metadata_name, output_metadata_type) /\
     outputs c = "outputs:" +:+ nl +:+ "- {name: " +:+ output_metadata_name
                 +:+ ", type: " +:+ output_metadata_type +:+ "}" /\
     output_args c = "    - --resource_name_output_artifact_path" +:+ nl
                     +:+ "    - {outputPath: " +:+ output_metadata_name +:+ "}").
Proof.
  intros H.
  destruct (convert_method_to_component_inv _ _ _ _ H)
    as (mnames & names & sig & Hm & _ & Hout & _ & Hc).
  split; [rewrite Hc; reflexivity|]. split; [rewrite Hc; reflexivity|].
  cbv zeta.
  assert (Hret : return_annotation (method_signature c)
                 = return_annotation (method_object_signature method)).
  { apply (filter_signature_inv _ _ _ _ _ _ Hm). }
  rewrite Hret in Hout. unfold output_declaration in Hout.
  destruct (truthy _) eqn:Ht.
  - right.
    destruct (map_resource_to_metadata_type _) as [[name type]|]; [|discriminate].
    injection Hout as <- <-. exists name, type. auto.
  - left. injection Hout as <- <-. auto.
Qed.

Lemma convert_method_to_component_outputs_witness :
  outputs sample_component = "outputs:" +:+ nl +:+ "- {name: endpoint, type: Artifact}".
Proof.
  destruct (convert_method_to_component_outputs _ _ _ _ sample_component_converted)
    as (_ & _ & [(Ht & _)|(name & type & _ & Hmap & Hout & _)]).
  - vm_compute in Ht. discriminate.
  - vm_compute in Hmap. injection Hmap as <- <-. exact Hout.
Defined.

Lemma filter_parameters_names params is_init self_type m new_params names :
  filter_parameters params is_init self_type (Some m) = Ok (new_params, names) ->
  exists m', names = Some m'.
Proof.
  revert m new_params names.
  induction params as [|p params IH]; intros m new_params names H.
  - simpl in H. injection H as <- <-. eauto.
  - simpl in H.
    destruct (bool_decide (param_name p ∈ PARAMS_TO_REMOVE)); [eapply IH; eassumption|].
    destruct (is_init && is_resource_name_parameter_name (param_name p)).
    + destruct (new_Parameter _ _ _ _); [|discriminate]. cbn [bind_result] in H.
      destruct (filter_parameters params is_init self_type _) as [[new_params' names']|] eqn:Hrest;
        [|discriminate].
      cbn [bind_result] in H. injection H as <- <-. eapply IH; eassumption.
    + destruct (filter_parameters params is_init self_type _) as [[new_params' names']|] eqn:Hrest;
        [|discriminate].
      cbn [bind_result] in H. injection H as <- <-. eapply IH; eassumption.
Qed.

Lemma lookup_parameter_unique sig p :
  validate_parameters POSITIONAL_ONLY false [] (parameters sig) = Ok tt ->
  In p (parameters sig) ->
  lookup_parameter sig (param_name p) = Ok p.
Proof.
  intros Hval Hin.
  destruct (validate_parameters_ok _ _ _ _ Hval) as (_ & _ & _ & Hnodup).
  unfold lookup_parameter. clear Hval. revert Hin Hnodup.
  induction (parameters sig) as [|q l IH]; intros Hin Hnodup; [destruct Hin|].
  simpl in Hnodup |- *. apply List.NoDup_cons_iff in Hnodup as [Hq Hnodup].
  destruct Hin as [->|Hin].
  - rewrite String.eqb_refl. reflexivity.
  - destruct (String.eqb_spec (param_name q) (param_name p)) as [Heq|_].
    + exfalso. apply Hq. rewrite Heq. apply in_map. exact Hin.
    + apply IH; assumption.
Qed.

(** X10: in a converted component, the names of the constructor being
    identifiers, every entry of the rename dictionary maps a key to the
    key followed by [_name], a parameter name of the constructor; the
    wrapper passes that argument under the original name; the
    constructor signature of the component has a parameter named as the
    key, annotated with the class; and for an instance method the key
    belongs to the constructor partition. *)
Theorem convert_method_to_component_renamed (getattr : string -> annotation)
    (cls : sdk_class) (method : sdk_method) (c : component) (k v : string) :
  identifier_names (parameters (class_init_signature cls)) ->
  convert_method_to_component getattr cls method = Ok c ->
  component_param_name_to_mb_sdk_param_name c !! k = Some v ->
  v = k +:+ "_name" /\
  In v (map param_name (parameters (class_init_signature cls))) /\
  component_param_name_of c k = v /\
  (exists p, lookup_parameter (init_signature c) k = Ok p /\
             param_annotation p = AClass (class_object cls)) /\
  (method_isfunction method = true ->
     prefix_of c k = INIT_KEY /\ signature_of c k = init_signature c).
Proof.
  intros Hid H Hk.
  destruct (convert_method_to_component_inv _ _ _ _ H)
    as (mnames & names & sig & _ & Hinit & _ & _ & Hc).
  destruct (filter_signature_inv _ _ _ _ _ _ Hinit) as (_ & Hfilter & Hval).
  destruct (filter_parameters_names _ _ _ _ _ _ Hfilter) as (m' & ->).
  assert (Hm : m' !! k = Some v) by (rewrite Hc in Hk; exact Hk).
  destruct (filter_parameters_records _ _ _ Hid _ _ _ Hfilter k v Hm)
    as [Hempty|(_ & Hv & _ & Hv_in & p & Hp & Hname & Hann)];
    [rewrite lookup_empty in Hempty; discriminate|].
  split; [exact Hv|]. split; [exact Hv_in|].
  split; [unfold component_param_name_of; rewrite Hk; reflexivity|].
  split.
  - exists p. split; [|exact Hann].
    rewrite <- Hname. apply lookup_parameter_unique; assumption.
  - intros Hfun.
    assert (Hkey : is_init_key c k = true).
    { unfold is_init_key. rewrite Hc. cbn [init_arg_names]. rewrite Hfun.
      apply bool_decide_eq_true_2, elem_of_list_to_set, list_elem_of_In.
      apply in_map_iff. exists p. split; assumption. }
    unfold prefix_of, signature_of. rewrite Hkey. split; reflexivity.
Qed.

Lemma convert_method_to_component_renamed_witness :
  component_param_name_of sample_component "model" = "model_name" /\
  prefix_of sample_component "model" = "init".
Proof.
  assert (Hk : component_param_name_to_mb_sdk_param_name sample_component !! "model"
               = Some "model_name") by (vm_compute; reflexivity).
  assert (Hid : identifier_names (parameters (class_init_signature sample_Model))).
  { repeat (apply List.Forall_cons; [reflexivity|]). apply List.Forall_nil. }
  destruct (convert_method_to_component_renamed _ _ _ _ _ _ Hid sample_component_converted Hk)
    as (_ & _ & H1 & _ & H2).
  split; [exact H1|]. apply (H2 eq_refl).
Defined.

Lemma lookup_parameter_In sig key :
  In key (map param_name (parameters sig)) ->
  exists p, lookup_parameter sig key = Ok p /\ param_name p = key /\ In p (parameters sig).
Proof.
  unfold lookup_parameter. intros Hin.
  destruct (find _ (parameters sig)) as [p|] eqn:Hfind.
  - apply find_some in Hfind as [Hp Hname]. apply String.eqb_eq in Hname. eauto.
  - exfalso. apply in_map_iff in Hin as (p & Hname & Hp).
    apply (find_none _ _ Hfind) in Hp. rewrite Hname, String.eqb_refl in Hp. discriminate.
Qed.

(** X11: every parameter name of the component signature is found in
    the signature of its partition, under that name, and is a parameter
    of the component signature: the lookup of the wrapper raises no
    [KeyError] for it. *)
Theorem convert_method_to_component_parameters (getattr : string -> annotation)
    (cls : sdk_class) (method : sdk_method) (c : component) (key : string) :
  convert_method_to_component getattr cls method = Ok c ->
  In key (map param_name (parameters (component_signature c))) ->
  exists p,
    lookup_parameter (signature_of c key) key = Ok p /\
    param_name p = key /\
    In p (parameters (component_signature c)) /\
    forall st v, process_kwarg getattr c st key v <> Raise KeyError.
Proof.
  intros H Hkey.
  destruct (convert_method_to_component_inv _ _ _ _ H)
    as (mnames & names & sig & _ & _ & _ & Hsig & Hc).
  assert (Hcsig : component_signature c = sig) by (rewrite Hc; reflexivity).
  assert (Hnames : init_arg_names c
                   = if method_isfunction method
                     then list_to_set (map param_name (parameters (init_signature c)))
                     else ∅) by (rewrite Hc at 1; reflexivity).
  assert (Hlookup : exists p,
            lookup_parameter (signature_of c key) key = Ok p /\
            param_name p = key /\ In p (parameters (component_signature c))).
  { rewrite Hcsig in Hkey |- *. unfold signature_of, is_init_key. rewrite Hnames.
    destruct (method_isfunction method).
    - destruct (signatures_union_cases (init_signature c) (method_signature c))
        as [(Hu & _ & _)|(Hu & _)]; rewrite Hu in Hsig; [|discriminate].
      injection Hsig as <-. cbn [parameters] in *.
      assert (Hperm : forall q : Param,
                In q (filter has_no_default
                        (parameters (init_signature c) ++ parameters (method_signature c))
                      ++ filter (fun p => ~ has_no_default p)
                        (parameters (init_signature c) ++ parameters (method_signature c)))
                <-> In q (parameters (init_signature c) ++ parameters (method_signature c))).
      { intros q. rewrite <- !list_elem_of_In.
        rewrite (required_then_defaulted_permutation
                   (parameters (init_signature c) ++ parameters (method_signature c))).
        reflexivity. }
      destruct (bool_decide_reflect
                  (key ∈ (list_to_set (map param_name (parameters (init_signature c)))
                          : gset string))) as [Hin|Hout].
      + apply elem_of_list_to_set, list_elem_of_In in Hin.
        destruct (lookup_parameter_In _ _ Hin) as (p & ? & ? & Hp).
        exists p. repeat split; [assumption..|].
        apply Hperm, in_or_app. left. exact Hp.
      + apply in_map_iff in Hkey as (q & Hname & Hq).
        apply Hperm, in_app_or in Hq as [Hq|Hq].
        * exfalso. apply Hout, elem_of_list_to_set, list_elem_of_In, in_map_iff.
          exists q. split; assumption.
        * destruct (lookup_parameter_In (method_signature c) key) as (p & ? & ? & Hp).
          { apply in_map_iff. exists q. split; assumption. }
          exists p. repeat split; [assumption..|].
          apply Hperm, in_or_app. right. exact Hp.
    - injection Hsig as <-.
      rewrite bool_decide_eq_false_2 by set_solver.
      apply lookup_parameter_In. exact Hkey. }
  destruct Hlookup as (p & Hp & Hname & Hin).
  exists p. repeat split; [assumption..|].
  intros st v. rewrite process_kwarg_unfold.
  destruct (is_None v); [discriminate|]. rewrite Hp. cbn [bind_result].
  destruct (classify _ v) as [[? ? ?|]|]; discriminate.
Qed.

Lemma convert_method_to_component_parameters_witness :
  exists p,
    lookup_parameter (signature_of sample_component "machine_type") "machine_type" = Ok p /\
    param_name p = "machine_type".
Proof.
  destruct (convert_method_to_component_parameters _ _ _ _ "machine_type"
              sample_component_converted) as (p & Hp & Hname & _).
  - vm_compute. auto 10.
  - exists p. split; assumption.
Defined.

Lemma startswith_append pre s : startswith (pre +:+ s) pre = true.
Proof.
  unfold startswith. induction pre as [|a pre IH].
  - destruct s; reflexivity.
  - change (String a pre +:+ s) with (String a (pre +:+ s)). simpl.
    destruct (ascii_dec a a) as [_|Hne]; [exact IH|congruence].
Qed.

Section ClassMethodProperties.

Variable getattr : string -> annotation.
Variable py_str : value -> string.
Variable c : component.
Hypothesis no_init_arg_names : init_arg_names c = ∅.

Local Abbreviation step := (process_kwarg getattr c).
Local Abbreviation run := (process_kwargs getattr c).

Lemma is_init_key_never key : is_init_key c key = false.
Proof.
  unfold is_init_key. rewrite no_init_arg_names.
  apply bool_decide_eq_false_2. set_solver.
Qed.

Lemma make_args_lines_method (d : dict value) :
  Forall method_prefixed (make_args_lines py_str METHOD_KEY d).
Proof.
  unfold make_args_lines. induction d as [|[k v] d IH]; constructor; [|exact IH].
  apply (startswith_append "    - --method.").
Qed.

Lemma step_class_method st key v st' :
  step st key v = Ok st' ->
  init_kwargs st' = init_kwargs st /\
  serialized_init st' = serialized_init st /\
  method_kwargs st' = dict_set (method_kwargs st) key v /\
  exists more, input_args st' = input_args st ++ more /\ Forall method_prefixed more.
Proof.
  rewrite process_kwarg_unfold.
  unfold with_input, with_static, with_kwarg, prefix_of.
  rewrite is_init_key_never.
  destruct (is_None v).
  { intros [= <-]. cbn. repeat split. exists []. rewrite app_nil_r. split; constructor. }
  destruct (lookup_parameter _ key) as [p|]; [|discriminate]. cbn [bind_result].
  destruct (classify _ v) as [[ty binding passed|]|]; [| |discriminate].
  - intros [= <-]. cbn. repeat split. eexists. split; [reflexivity|].
    constructor; [|constructor].
    apply (startswith_append "    - --method.").
  - intros [= <-]. cbn. repeat split. exists []. rewrite app_nil_r. split; constructor.
Qed.

Lemma run_class_method kwargs : forall st st',
  run st kwargs = Ok st' ->
  init_kwargs st' = init_kwargs st /\
  serialized_init st' = serialized_init st /\
  method_kwargs st'
    = fold_left (fun d kv => dict_set d (fst kv) (snd kv)) kwargs (method_kwargs st) /\
  exists more, input_args st' = input_args st ++ more /\ Forall method_prefixed more.
Proof.
  induction kwargs as [|[key v] kwargs IH]; intros st st'.
  - simpl. intros [= <-]. repeat split. exists []. rewrite app_nil_r. split; constructor.
  - simpl. destruct (step st key v) as [st1|] eqn:Hstep; [|discriminate].
    cbn [bind_result]. intros Hrun.
    destruct (step_class_method _ _ _ _ Hstep) as (E1 & E2 & E3 & more1 & E4 & H1).
    destruct (IH _ _ Hrun) as (F1 & F2 & F3 & more2 & F4 & H2).
    rewrite F1, F2, F3, F4, E1, E2, E3, E4. repeat split.
    exists (more1 ++ more2). rewrite app_assoc. split; [reflexivity|].
    apply List.Forall_app. split; assumption.
Qed.

End ClassMethodProperties.

(** X12: for a method that is no plain function (a class method) the
    constructor is not serialized and the component signature is the
    method's; on every call nothing is collected for the constructor,
    only the method signature is bound, and every argument line is a
    [--method.] line. *)
Theorem convert_method_to_component_class_method (getattr : string -> annotation)
    (py_str : value -> string) (cls : sdk_class) (method : sdk_method) (c : component) :
  convert_method_to_component getattr cls method = Ok c ->
  method_isfunction method = false ->
  should_serialize_init c = false /\
  component_signature c = method_signature c /\
  forall kwargs final,
    process_kwargs getattr c initial_state kwargs = Ok final ->
    init_kwargs final = [] /\
    serialized_init final = [] /\
    validate c final = Signature_bind (method_signature c) (method_kwargs final) /\
    Forall method_prefixed (input_args final) /\
    Forall method_prefixed (static_args py_str final).
Proof.
  intros H Hfun.
  destruct (convert_method_to_component_inv _ _ _ _ H)
    as (mnames & names & sig & _ & _ & _ & Hsig & Hc).
  rewrite Hfun in Hsig, Hc. injection Hsig as <-.
  assert (Hinit : init_arg_names c = ∅) by (rewrite Hc; reflexivity).
  assert (Hser : should_serialize_init c = false) by (rewrite Hc; reflexivity).
  split; [exact Hser|]. split; [rewrite Hc; reflexivity|].
  intros kwargs final Hrun.
  destruct (run_class_method getattr c Hinit kwargs _ _ Hrun)
    as (E1 & E2 & _ & more & E4 & Hmore).
  split; [exact E1|]. split; [exact E2|].
  split; [unfold validate; rewrite Hser; reflexivity|].
  split; [rewrite E4; exact Hmore|].
  unfold static_args. rewrite E2. apply make_args_lines_method.
Qed.

Lemma convert_method_to_component_class_method_witness :
  should_serialize_init sample_export_component = false /\
  component_signature sample_export_component = method_signature sample_export_component.
Proof.
  assert (H : convert_method_to_component sample_getattr sample_Model sample_export
              = Ok sample_export_component) by (vm_compute; reflexivity).
  destruct (convert_method_to_component_class_method sample_getattr sample_str _ _ _ H
              eq_refl) as (H1 & H2 & _).
  split; assumption.
Defined.

(** ** The inputs of a manifest *)

Lemma dict_set_In_inv {V} (d : dict V) k v k' v' :
  In (k', v') (dict_set d k v) -> (k' = k /\ v' = v) \/ In (k', v') d.
Proof.
  induction d as [|[k0 v0] d IH]; simpl.
  - intros [[= <- <-]|[]]. left. split; reflexivity.
  - destruct (String.eqb k0 k); simpl.
    + intros [[= <- <-]|H]; [left; split; reflexivity|right; right; exact H].
    + intros [H|H]; [right; left; exact H|].
      destruct (IH H) as [?|?]; [left; assumption|right; right; assumption].
Qed.

Lemma dict_get_set {V} (d : dict V) k v k' :
  dict_get (dict_set d k v) k' = if String.eqb k k' then Some v else dict_get d k'.
Proof.
  induction d as [|[k0 v0] d IH]; simpl.
  - destruct (String.eqb k k'); reflexivity.
  - destruct (String.eqb_spec k0 k) as [->|Hne]; simpl.
    + destruct (String.eqb k k'); reflexivity.
    + rewrite IH. destruct (String.eqb_spec k0 k') as [->|Hne'].
      * destruct (String.eqb_spec k k'); [congruence|reflexivity].
      * reflexivity.
Qed.

Lemma dict_get_keys_In {V} (d : dict V) k :
  In k (dict_keys d) <-> dict_get d k <> None.
Proof.
  induction d as [|[k0 v0] d IH]; simpl; [tauto|].
  destruct (String.eqb_spec k0 k) as [->|Hne].
  - split; [discriminate|auto].
  - rewrite <- IH. tauto.
Qed.

Section InputProperties.

Variable getattr : string -> annotation.
Variable py_str : value -> string.
Variable c : component.

Local Abbreviation step := (process_kwarg getattr c).
Local Abbreviation run := (process_kwargs getattr c).

(** What a turn of the loop does to the inputs. *)
Lemma step_cases st key v st' :
  step st key v = Ok st' ->
  (inputs st' = inputs st /\ input_args st' = input_args st /\
   input_kwargs st' = input_kwargs st) \/
  (exists p component_param_type component_type passed,
     is_None v = false /\
     lookup_parameter (signature_of c key) key = Ok p /\
     classify (resolve_annotation getattr (param_annotation p)) v
       = Some (AsInput component_param_type component_type passed) /\
     inputs st' = inputs st ++ [input_line key component_param_type] /\
     input_args st' = input_args st
                      ++ [input_arg (prefix_of c key) (component_param_name_of c key)
                            component_type key] /\
     input_kwargs st' = dict_set (input_kwargs st) key passed).
Proof.
  rewrite process_kwarg_unfold.
  destruct (is_None v) eqn:Hnone.
  { intros [= <-]. left. unfold with_kwarg. destruct (is_init_key c key); auto. }
  destruct (lookup_parameter (signature_of c key) key) as [p|e] eqn:Hp; [|discriminate].
  cbn [bind_result].
  destruct (classify _ v) as [[ty binding passed|]|] eqn:Hcl; [| |discriminate].
  - intros [= <-]. right. exists p, ty, binding, passed.
    unfold with_input, with_kwarg. destruct (is_init_key c key); cbn; auto 10.
  - intros [= <-]. left. unfold with_static, with_kwarg.
    destruct (is_init_key c key); cbn; auto.
Qed.

Lemma run_declares kwargs : forall st st' entries done,
  NoDup (done ++ dict_keys kwargs) ->
  inputs st = "inputs:" :: map declared_line entries ->
  input_args st = map (declared_arg c) entries ->
  dict_keys (input_kwargs st) = map declared_key entries ->
  map declared_key entries `sublist_of` done ->
  run st kwargs = Ok st' ->
  exists entries',
    inputs st' = "inputs:" :: map declared_line entries' /\
    input_args st' = map (declared_arg c) entries' /\
    dict_keys (input_kwargs st') = map declared_key entries' /\
    map declared_key entries' `sublist_of` done ++ dict_keys kwargs.
Proof.
  induction kwargs as [|[key v] kwargs IH];
    intros st st' entries done Hnodup Hin Hargs Hkeys Hsub.
  - simpl. intros [= <-]. exists entries. rewrite app_nil_r. auto.
  - simpl. destruct (step st key v) as [st1|e] eqn:Hstep; [|discriminate].
    cbn [bind_result]. intros Hrun.
    assert (Hnodup' : NoDup ((done ++ [key]) ++ dict_keys kwargs)).
    { rewrite <- app_assoc. exact Hnodup. }
    assert (Hfresh : ~ In key (dict_keys (input_kwargs st))).
    { rewrite Hkeys. intros Hk.
      apply NoDup_app in Hnodup as (_ & Hdisj & _).
      apply (Hdisj key).
      - eapply sublist_subseteq; [exact Hsub|]. apply list_elem_of_In. exact Hk.
      - simpl. left. }
    destruct (step_cases _ _ _ _ Hstep)
      as [(E1 & E2 & E3)|(p & ty & binding & passed & _ & _ & _ & E1 & E2 & E3)].
    + destruct (IH st1 st' entries (done ++ [key]) Hnodup') as (entries' & ? & ? & ? & Hs).
      * congruence.
      * congruence.
      * congruence.
      * apply sublist_inserts_r. exact Hsub.
      * exact Hrun.
      * exists entries'. rewrite <- app_assoc in Hs. auto.
    + destruct (IH st1 st' (entries ++ [mkInput key ty binding]) (done ++ [key]) Hnodup')
        as (entries' & ? & ? & ? & Hs).
      * rewrite E1, Hin, map_app. reflexivity.
      * rewrite E2, Hargs, map_app. reflexivity.
      * rewrite E3, dict_set_fresh by exact Hfresh.
        unfold dict_keys in *. rewrite !map_app, Hkeys. reflexivity.
      * rewrite map_app. apply sublist_app; [exact Hsub|]. reflexivity.
      * exact Hrun.
      * exists entries'. rewrite <- app_assoc in Hs. auto.
Qed.

(** X13: on a call that returns a manifest, the inputs section, the
    input arguments and the arguments handed to the loaded component
    list the same keys in the same order, and these keys are a
    subsequence of the keyword arguments of the call. *)
Theorem component_yaml_generator_declares (kwargs : dict value) (m : manifest) :
  NoDup (dict_keys kwargs) ->
  component_yaml_generator getattr py_str c kwargs = Ok m ->
  exists final entries,
    run initial_state kwargs = Ok final /\
    component_text m = render py_str c final /\
    inputs final = "inputs:" :: map declared_line entries /\
    input_args final = map (declared_arg c) entries /\
    dict_keys (loaded_with m) = map declared_key entries /\
    dict_keys (loaded_with m) `sublist_of` dict_keys kwargs.
Proof.
  intros Hnodup Hm.
  destruct (component_yaml_generator_unfold _ _ _ _ _ Hm) as (final & Hrun & _ & Htext & Hloaded).
  destruct (run_declares kwargs initial_state final [] [] Hnodup)
    as (entries & ? & ? & Hk & Hs); try reflexivity; [exact Hrun|].
  exists final, entries. rewrite Hloaded. rewrite <- Hk in Hs. auto 10.
Qed.

(** The values the loop hands to the loaded component. *)
Lemma run_passes (all : dict value) kwargs : forall st st',
  (forall kv, In kv kwargs -> In kv all) ->
  (forall k v, In (k, v) (input_kwargs st) ->
     exists v0 p passed_type binding,
       In (k, v0) all /\ is_None v0 = false /\
       lookup_parameter (signature_of c k) k = Ok p /\
       classify (resolve_annotation getattr (param_annotation p)) v0
         = Some (AsInput passed_type binding v)) ->
  run st kwargs = Ok st' ->
  forall k v, In (k, v) (input_kwargs st') ->
     exists v0 p passed_type binding,
       In (k, v0) all /\ is_None v0 = false /\
       lookup_parameter (signature_of c k) k = Ok p /\
       classify (resolve_annotation getattr (param_annotation p)) v0
         = Some (AsInput passed_type binding v).
Proof.
  induction kwargs as [|[key v0] kwargs IH]; intros st st' Hall Hst.
  - simpl. intros [= <-]. exact Hst.
  - simpl. destruct (step st key v0) as [st1|e] eqn:Hstep; [|discriminate].
    cbn [bind_result]. apply IH.
    + intros kv Hkv. apply Hall. right. exact Hkv.
    + destruct (step_cases _ _ _ _ Hstep)
        as [(_ & _ & E3)|(p & ty & binding & passed & Hn & Hp & Hcl & _ & _ & E3)];
        rewrite E3; [exact Hst|].
      intros k v Hkv. apply dict_set_In_inv in Hkv as [[-> ->]|Hkv]; [|apply Hst, Hkv].
      exists v0, p, ty, binding. split; [apply Hall; left; reflexivity|]. auto.
Qed.

(** X14: every argument handed to the loaded component comes from a
    keyword argument of the call with that key, whose parameter is in
    the signature of its partition: it is the pipeline parameter itself
    where the resolved type has no serializer, and otherwise the JSON
    text of the value, which the deserializer of that type reads back
    to the value (for JSON data without tuples). *)
Theorem component_yaml_generator_passes (kwargs : dict value) (m : manifest)
    (k : string) (v : value) :
  component_yaml_generator getattr py_str c kwargs = Ok m ->
  In (k, v) (loaded_with m) ->
  exists v0 p,
    In (k, v0) kwargs /\
    lookup_parameter (signature_of c k) k = Ok p /\
    let param_type := resolve_annotation getattr (param_annotation p) in
    (get_serializer param_type = None /\ is_PipelineParam v0 = true /\ v = v0) \/
    (exists j,
       v0 = VData j /\ j <> JNull /\ v = VStr (Json.dumps j) /\
       get_serializer param_type = Some json_dumps /\
       get_deserializer param_type = Some json_loads /\
       (Json.wf j -> json_loads v = Some (Ok v0))).
Proof.
  intros Hm Hkv.
  destruct (component_yaml_generator_unfold _ _ _ _ _ Hm) as (final & Hrun & _ & _ & Hloaded).
  rewrite Hloaded in Hkv.
  destruct (run_passes kwargs kwargs initial_state final) with (k := k) (v := v)
    as (v0 & p & ty & binding & Hin & Hnone & Hp & Hcl); auto.
  { intros ? ? []. }
  exists v0, p. split; [exact Hin|]. split; [exact Hp|]. cbv zeta.
  unfold classify, get_serializer, get_deserializer in *.
  destruct (is_serializable_to_json (resolve_annotation getattr (param_annotation p))).
  - right. destruct v0 as [j| |]; try discriminate.
    injection Hcl as _ _ <-. exists j. split; [reflexivity|].
    split; [intros ->; discriminate|]. split; [reflexivity|].
    split; [reflexivity|]. split; [reflexivity|].
    intros Hwf. unfold json_loads, VStr. rewrite (JsonFacts.loads_dumps j Hwf). reflexivity.
  - left. destruct (is_PipelineParam v0) eqn:Hpp; [|discriminate].
    split; [reflexivity|]. split; [reflexivity|].
    destruct (is_mb_sdk_resource_noun_type _).
    + destruct (map_resource_to_metadata_type _) as [[? ?]|]; [|discriminate].
      injection Hcl as _ _ <-. reflexivity.
    + injection Hcl as _ _ <-. reflexivity.
Qed.

End InputProperties.

Lemma component_yaml_generator_declares_witness :
  exists final entries,
    process_kwargs sample_getattr sample_component initial_state sample_deploy_kwargs
      = Ok final /\
    inputs final = "inputs:" :: map declared_line entries /\
    map declared_key entries = ["project"; "endpoint"; "model"].
Proof.
  assert (Hm : component_yaml_generator sample_getattr sample_str sample_component
                 sample_deploy_kwargs
               = Ok (mkManifest
                       (render sample_str sample_component
                          (match process_kwargs sample_getattr sample_component
                                   initial_state sample_deploy_kwargs with
                           | Ok st => st
                           | Raise _ => initial_state
                           end))
                       [ ("project", VPipelineParam "project");
                         ("endpoint", VPipelineParam "endpoint");
                         ("model", VPipelineParam "model") ])).
  { vm_compute. reflexivity. }
  assert (Hnodup : NoDup (dict_keys sample_deploy_kwargs)).
  { apply (bool_decide_unpack _). vm_compute. exact I. }
  destruct (component_yaml_generator_declares _ _ _ _ _ Hnodup Hm)
    as (final & entries & Hrun & _ & Hin & _ & Hkeys & _).
  exists final, entries. split; [exact Hrun|]. split; [exact Hin|].
  rewrite <- Hkeys. reflexivity.
Defined.

Lemma component_yaml_generator_passes_witness :
  exists text,
    json_loads (VStr text) = Some (Ok (VData sample_labels)) /\
    Json.dumps sample_labels = text.
Proof.
  destruct (component_yaml_generator sample_getattr sample_str sample_component
              sample_labelled_kwargs) as [m|] eqn:Hm; [|vm_compute in Hm; discriminate].
  assert (Hin : In ("labels", VStr (Json.dumps sample_labels)) (loaded_with m)).
  { vm_compute in Hm. injection Hm as <-. vm_compute. auto. }
  destruct (component_yaml_generator_passes _ _ _ _ _ _ _ Hm Hin)
    as (v0 & p & Hv0 & _ & [(_ & _ & Heq)|(j & -> & _ & Hv & _ & _ & Hloads)]).
  - exfalso. subst v0. simpl in Hv0. destruct Hv0 as [[=]|[[=]|[]]].
  - simpl in Hv0. destruct Hv0 as [[=]|[[= <-]|[]]].
    exists (Json.dumps sample_labels). split; [|reflexivity].
    apply Hloads. cbn. repeat split. repeat constructor.
    + intros [[=]|[]].
    + intros [].
Defined.

(** ** Calls that raise *)

Section FailureProperties.

Variable getattr : string -> annotation.
Variable py_str : value -> string.
Variable c : component.

Local Abbreviation step := (process_kwarg getattr c).
Local Abbreviation run := (process_kwargs getattr c).

(** Whether a turn of the loop raises does not depend on the turns
    before it. *)
Lemma step_raises_anywhere st st' key v e :
  step st key v = Raise e -> step st' key v = Raise e.
Proof.
  rewrite !process_kwarg_unfold.
  destruct (is_None v); [discriminate|].
  destruct (lookup_parameter (signature_of c key) key) as [p|e']; [|auto].
  cbn [bind_result].
  destruct (classify _ v) as [[ty binding passed|]|]; [discriminate|discriminate|auto].
Qed.

Lemma call_raises before key v after e :
  step initial_state key v = Raise e ->
  (exists e', component_yaml_generator getattr py_str c (before ++ (key, v) :: after)
              = Raise e') /\
  (forall st, run initial_state before = Ok st ->
     component_yaml_generator getattr py_str c (before ++ (key, v) :: after) = Raise e).
Proof.
  intros Hstep. unfold component_yaml_generator.
  rewrite process_kwargs_app.
  destruct (run initial_state before) as [st|e0] eqn:Hbefore.
  - cbn [bind_result process_kwargs].
    rewrite (step_raises_anywhere _ st _ _ _ Hstep). cbn [bind_result].
    split; [eauto|]. intros st' [= <-]. reflexivity.
  - cbn [bind_result]. split; [eauto|]. intros st' [=].
Qed.


(** X16: a keyword argument that is not [None] and names no parameter
    of the signature of its partition makes the call raise; the
    exception is the [KeyError] of the lookup in the signature, raised
    before the signatures are bound, when the arguments before it raise
    none. *)
Theorem component_yaml_generator_unknown_key (before after : dict value)
    (key : string) (v : value) :
  is_None v = false ->
  ~ In key (map param_name (parameters (signature_of c key))) ->
  (exists e, component_yaml_generator getattr py_str c (before ++ (key, v) :: after)
             = Raise e) /\
  (forall st, run initial_state before = Ok st ->
     component_yaml_generator getattr py_str c (before ++ (key, v) :: after)
     = Raise KeyError).
Proof.
  intros Hnone Hkey. apply call_raises.
  rewrite process_kwarg_unfold, Hnone.
  unfold lookup_parameter.
  destruct (find _ _) as [p|] eqn:Hfind; [|reflexivity].
  exfalso. apply find_some in Hfind as [Hin Hname].
  apply String.eqb_eq in Hname. apply Hkey.
  apply in_map_iff. exists p. split; assumption.
Qed.

(** X17: a pipeline parameter given for a parameter whose resolved type
    is a resource-noun class with no superclass in the mapping table
    makes the call raise: the mapper returns [None], and subscripting
    it is a [TypeError]. *)
Theorem component_yaml_generator_unmapped_resource (before after : dict value)
    (key name : string) (p : Param) (cls : pyclass) :
  lookup_parameter (signature_of c key) key = Ok p ->
  resolve_annotation getattr (param_annotation p) = AClass cls ->
  issubclass cls AiPlatformResourceNoun = true ->
  (forall k label, In (k, label) RESOURCE_TO_METADATA_TYPE -> issubclass cls k = false) ->
  (exists e, component_yaml_generator getattr py_str c
               (before ++ (key, VPipelineParam name) :: after) = Raise e) /\
  (forall st, run initial_state before = Ok st ->
     component_yaml_generator getattr py_str c
       (before ++ (key, VPipelineParam name) :: after) = Raise TypeError).
Proof.
  intros Hp Hres Hnoun Htable. apply call_raises.
  rewrite process_kwarg_unfold. cbn [is_None]. rewrite Hp. cbn [bind_result].
  rewrite Hres. unfold classify. cbn [is_serializable_to_json is_PipelineParam].
  unfold is_mb_sdk_resource_noun_type, is_subclass_of. rewrite Hnoun.
  unfold map_resource_to_metadata_type, is_mb_sdk_resource_noun_type, is_subclass_of.
  rewrite Hnoun.
  assert (Hnone : first_matching_key cls RESOURCE_TO_METADATA_TYPE = None).
  { destruct (first_matching_key cls RESOURCE_TO_METADATA_TYPE) as [[n l]|] eqn:Hf;
      [|reflexivity].
    apply first_matching_key_Some in Hf as (k & Hin & Hsub & _).
    rewrite (Htable _ _ Hin) in Hsub. discriminate. }
  rewrite Hnone. reflexivity.
Qed.

End FailureProperties.


Lemma component_yaml_generator_unknown_key_witness :
  component_yaml_generator sample_getattr sample_str sample_export_component
    [("verbose", VData (JBool true))]
  = Raise KeyError.
Proof.
  refine (proj2 (component_yaml_generator_unknown_key sample_getattr sample_str
                   sample_export_component [] [] "verbose" (VData (JBool true)) _ _) _ _).
  - reflexivity.
  - vm_compute. intros [H|[]]. discriminate.
  - reflexivity.
Defined.

Lemma component_yaml_generator_unmapped_resource_witness :
  component_yaml_generator sample_getattr sample_str sample_cancel_component
    [("job", VPipelineParam "job")]
  = Raise TypeError.
Proof.
  refine (proj2 (component_yaml_generator_unmapped_resource sample_getattr sample_str
                   sample_cancel_component [] [] "job" "job"
                   (required "job" (AClass CustomJob_class)) CustomJob_class _ _ _ _) _ _);
    try reflexivity.
  intros k label Hin. simpl in Hin.
  destruct Hin as [[= <- <-]|[[= <- <-]|[[= <- <-]|[[= <- <-]|[]]]]]; reflexivity.
Defined.

Lemma has_default_negb (default : option value) :
  bool_decide (default <> None) = negb (bool_decide (default = None)).
Proof.
  destruct default as [d|].
  - rewrite (bool_decide_eq_true_2 (Some d <> None)) by discriminate.
    rewrite (bool_decide_eq_false_2 (Some d = None)) by discriminate. reflexivity.
  - rewrite (bool_decide_eq_false_2 (@None value <> None)) by congruence.
    rewrite (bool_decide_eq_true_2 (@None value = None)) by reflexivity. reflexivity.
Qed.

Lemma bind_keywords_nothing params : forall kwargs_param,
  bind_keywords params [] kwargs_param
  = if forallb (fun p => is_variadic (param_kind p)
                         || bool_decide (param_default p <> None)) params
    then Ok ([], kwargs_param || existsb (fun p => kind_eqb (param_kind p) VAR_KEYWORD) params)
    else Raise TypeError.
Proof.
  induction params as [|p params IH]; intros b; simpl.
  - rewrite orb_false_r. reflexivity.
  - rewrite has_default_negb.
    destruct (param_kind p) eqn:Hk; simpl;
      try (destruct (bool_decide (param_default p = None)); simpl; rewrite ?IH; reflexivity).
    rewrite IH, orb_true_r. destruct (forallb _ params); reflexivity.
Qed.

Lemma Signature_bind_nothing sig :
  Signature_bind sig [] = if all_optional sig then Ok tt else Raise TypeError.
Proof.
  unfold Signature_bind, all_optional, bind_first.
  destruct (parameters sig) as [|p params]; [reflexivity|].
  cbn [dict_get forallb].
  rewrite (bool_decide_eq_false_2 (@None value <> None)) by congruence.
  rewrite !has_default_negb.
  destruct (param_kind p) eqn:Hk; cbn [kind_eqb kind_rank Nat.eqb is_variadic orb andb];
    try (destruct (bool_decide (param_default p = None)) eqn:Hd; cbn [negb andb];
         [reflexivity|];
         cbn [bind_result]; rewrite bind_keywords_nothing; cbn [forallb];
         rewrite has_default_negb, Hk, Hd; cbn [is_variadic orb negb andb];
         destruct (forallb _ params); reflexivity).
  - cbn [bind_result]. rewrite bind_keywords_nothing.
    destruct (forallb _ params); reflexivity.
  - cbn [bind_result]. rewrite bind_keywords_nothing. cbn [forallb].
    rewrite Hk. cbn [is_variadic orb andb].
    destruct (forallb _ params); reflexivity.
Qed.

(** X18: called without arguments, the wrapper returns the manifest
    with an empty inputs line, no static and no input arguments, and
    nothing for the loaded component, when every parameter of the
    method (and of the constructor, when it is serialized) other than
    [*args] and [**kwargs] has a default; otherwise the binding raises
    [TypeError]. *)
Theorem component_yaml_generator_no_arguments (getattr : string -> annotation)
    (py_str : value -> string) (c : component) :
  component_yaml_generator getattr py_str c []
  = if (negb (should_serialize_init c) || all_optional (init_signature c))
       && all_optional (method_signature c)
    then Ok (mkManifest
               (join nl
                  [ "name: " +:+ cls_name c +:+ "-" +:+ method_name c;
                    "";
                    outputs c;
                    "implementation:";
                    "  container:";
                    "    image: " +:+ DEFAULT_CONTAINER_IMAGE;
                    "    command:";
                    "    - python3";
                    "    - -m";
                    "    - google_cloud_components.aiplatform.remote_runner";
                    "    - --cls_name=" +:+ cls_name c;
                    "    - --method_name=" +:+ method_name c;
                    "";
                    "    args:";
                    output_args c;
                    "" ])
               [])
    else Raise TypeError.
Proof.
  unfold component_yaml_generator. cbn [process_kwargs bind_result].
  unfold validate. cbn [init_kwargs method_kwargs initial_state].
  rewrite !Signature_bind_nothing.
  destruct (should_serialize_init c); cbn [negb orb].
  - destruct (all_optional (init_signature c)); cbn [bind_result andb]; [|reflexivity].
    destruct (all_optional (method_signature c)); reflexivity.
  - cbn [bind_result andb].
    destruct (all_optional (method_signature c)); reflexivity.
Qed.

(** ** The order of the keyword arguments *)

Lemma without_key_absent {V} (d : dict V) k :
  ~ In k (dict_keys d) -> without_key k d = d.
Proof.
  induction d as [|[k0 v0] d IH]; simpl; [reflexivity|].
  intros Hk. destruct (String.eqb_spec k0 k) as [->|Hne]; [tauto|].
  simpl. rewrite IH by tauto. reflexivity.
Qed.

Lemma dict_pop_without {V} (d : dict V) k v d' :
  List.NoDup (dict_keys d) ->
  dict_pop d k = Some (v, d') -> d' = without_key k d.
Proof.
  revert d'. induction d as [|[k0 v0] d IH]; intros d' Hnodup; simpl; [discriminate|].
  simpl in Hnodup. apply List.NoDup_cons_iff in Hnodup as [Hk0 Hnodup].
  destruct (String.eqb_spec k0 k) as [->|Hne]; simpl.
  - intros [= <- <-]. symmetry. apply without_key_absent. exact Hk0.
  - destruct (dict_pop d k) as [[v1 d1]|]; [|discriminate].
    intros [= <- <-]. rewrite (IH d1 Hnodup eq_refl). reflexivity.
Qed.

Lemma without_key_Permutation {V} (d1 d2 : dict V) k :
  d1 ≡ₚ d2 -> without_key k d1 ≡ₚ without_key k d2.
Proof.
  unfold without_key. induction 1 as [|x l l' _ IH|x y l|l l' l'' _ IH1 _ IH2]; simpl.
  - reflexivity.
  - destruct (negb _); [constructor|]; exact IH.
  - destruct (negb (String.eqb (fst x) k)), (negb (String.eqb (fst y) k));
      try reflexivity. constructor.
  - etrans; eassumption.
Qed.

Lemma without_key_keys {V} (d : dict V) k :
  dict_keys (without_key k d)
  = List.filter (fun k' => negb (String.eqb k' k)) (dict_keys d).
Proof.
  induction d as [|[k0 v0] d IH]; simpl; [reflexivity|].
  destruct (negb (String.eqb k0 k)); simpl; rewrite IH; reflexivity.
Qed.

Lemma without_key_NoDup {V} (d : dict V) k :
  List.NoDup (dict_keys d) -> List.NoDup (dict_keys (without_key k d)).
Proof. rewrite without_key_keys. apply List.NoDup_filter. Qed.

Lemma dict_keys_Permutation {V} (d1 d2 : dict V) :
  d1 ≡ₚ d2 -> dict_keys d1 ≡ₚ dict_keys d2.
Proof. apply Permutation_map. Qed.

Lemma dict_pop_Permutation {V} (d1 d2 : dict V) k :
  d1 ≡ₚ d2 -> List.NoDup (dict_keys d1) ->
  match dict_pop d1 k, dict_pop d2 k with
  | Some (_, r1), Some (_, r2) => r1 ≡ₚ r2 /\ List.NoDup (dict_keys r1)
  | None, None => True
  | _, _ => False
  end.
Proof.
  intros Hperm Hnodup.
  assert (Hnodup2 : List.NoDup (dict_keys d2)).
  { eapply Permutation_NoDup; [|exact Hnodup]. apply dict_keys_Permutation, Hperm. }
  assert (Hkeys : In k (dict_keys d1) <-> In k (dict_keys d2)).
  { split; apply Permutation_in; [|symmetry]; apply dict_keys_Permutation, Hperm. }
  destruct (dict_pop d1 k) as [[v1 r1]|] eqn:H1, (dict_pop d2 k) as [[v2 r2]|] eqn:H2.
  - rewrite (dict_pop_without _ _ _ _ Hnodup H1), (dict_pop_without _ _ _ _ Hnodup2 H2).
    split; [apply without_key_Permutation, Hperm|apply without_key_NoDup, Hnodup].
  - apply dict_pop_None in H2. apply H2, Hkeys.
    destruct (dict_pop_None d1 k) as [_ Hn].
    destruct (in_dec string_dec k (dict_keys d1)) as [|Hout]; [assumption|].
    rewrite (Hn Hout) in H1. discriminate.
  - apply dict_pop_None in H1. apply H1, Hkeys.
    destruct (dict_pop_None d2 k) as [_ Hn].
    destruct (in_dec string_dec k (dict_keys d2)) as [|Hout]; [assumption|].
    rewrite (Hn Hout) in H2. discriminate.
  - exact I.
Qed.

Lemma bind_keywords_Permutation params : forall (kw1 kw2 : dict value) b,
  kw1 ≡ₚ kw2 -> List.NoDup (dict_keys kw1) ->
  match bind_keywords params kw1 b, bind_keywords params kw2 b with
  | Ok (u1, b1), Ok (u2, b2) => u1 ≡ₚ u2 /\ b1 = b2
  | Raise e1, Raise e2 => e1 = e2
  | _, _ => False
  end.
Proof.
  induction params as [|p params IH]; intros kw1 kw2 b Hperm Hnodup.
  - simpl. auto.
  - simpl.
    pose proof (dict_pop_Permutation kw1 kw2 (param_name p) Hperm Hnodup) as Hpop.
    destruct (param_kind p); try (apply IH; assumption);
      (destruct (dict_pop kw1 (param_name p)) as [[v1 r1]|],
                (dict_pop kw2 (param_name p)) as [[v2 r2]|]; try contradiction;
       [ destruct Hpop as [Hr Hn]; cbn [kind_eqb kind_rank Nat.eqb];
         try reflexivity; apply IH; assumption
       | destruct (bool_decide (param_default p = None)); [reflexivity|];
         apply IH; assumption ]).
Qed.

Lemma dict_get_Permutation {V} (d1 d2 : dict V) k :
  d1 ≡ₚ d2 -> (dict_get d1 k = None <-> dict_get d2 k = None).
Proof.
  intros Hperm.
  assert (Hkeys : In k (dict_keys d1) <-> In k (dict_keys d2)).
  { split; apply Permutation_in; [|symmetry]; apply dict_keys_Permutation, Hperm. }
  rewrite !dict_get_keys_In in Hkeys.
  destruct (dict_get d1 k), (dict_get d2 k); split; try congruence; intros _; exfalso.
  - assert (@None V <> None) by (apply Hkeys; discriminate). congruence.
  - assert (@None V <> None) by (apply Hkeys; discriminate). congruence.
Qed.

Lemma Signature_bind_Permutation sig (kw1 kw2 : dict value) :
  kw1 ≡ₚ kw2 -> List.NoDup (dict_keys kw1) ->
  Signature_bind sig kw1 = Signature_bind sig kw2.
Proof.
  intros Hperm Hnodup. unfold Signature_bind.
  assert (Hfirst : bind_first (parameters sig) kw1 = bind_first (parameters sig) kw2).
  { unfold bind_first. destruct (parameters sig) as [|p params]; [reflexivity|].
    destruct (kind_eqb (param_kind p) VAR_POSITIONAL); [reflexivity|].
    pose proof (dict_get_Permutation kw1 kw2 (param_name p) Hperm) as Hget.
    destruct (dict_get kw1 (param_name p)) as [v1|], (dict_get kw2 (param_name p)) as [v2|].
    - rewrite !bool_decide_eq_true_2 by discriminate. reflexivity.
    - destruct Hget as [_ Hget]. specialize (Hget eq_refl). discriminate.
    - destruct Hget as [Hget _]. specialize (Hget eq_refl). discriminate.
    - reflexivity. }
  rewrite Hfirst.
  destruct (bind_first (parameters sig) kw2) as [params|e]; [|reflexivity].
  cbn [bind_result].
  pose proof (bind_keywords_Permutation params kw1 kw2 false Hperm Hnodup) as Hbind.
  destruct (bind_keywords params kw1 false) as [[u1 b1]|e1],
           (bind_keywords params kw2 false) as [[u2 b2]|e2]; try contradiction.
  - destruct Hbind as [Hu ->]. cbn [bind_result].
    destruct u1 as [|x u1], u2 as [|y u2]; try reflexivity.
    + apply Permutation_nil_l in Hu. discriminate.
    + symmetry in Hu. apply Permutation_nil_l in Hu. discriminate.
  - subst. reflexivity.
Qed.

Section OrderProperties.

Variable getattr : string -> annotation.
Variable py_str : value -> string.
Variable c : component.

Local Abbreviation step := (process_kwarg getattr c).
Local Abbreviation run := (process_kwargs getattr c).

Lemma step_accepted st key v : is_ok (step st key v) = accepted getattr c (key, v).
Proof.
  unfold accepted. cbn [fst snd]. rewrite !process_kwarg_unfold.
  destruct (is_None v); [reflexivity|].
  destruct (lookup_parameter _ key) as [p|]; [|reflexivity]. cbn [bind_result].
  destruct (classify _ v) as [[? ? ?|]|]; reflexivity.
Qed.

Lemma run_accepted kwargs : forall st,
  is_ok (run st kwargs) = forallb (accepted getattr c) kwargs.
Proof.
  induction kwargs as [|[key v] kwargs IH]; intros st; [reflexivity|].
  simpl. rewrite <- (step_accepted st key v).
  destruct (step st key v) as [st1|e]; cbn [bind_result is_ok andb]; [apply IH|reflexivity].
Qed.

Lemma step_passed st key v st' :
  step st key v = Ok st' ->
  input_kwargs st'
  = match passed_input getattr c (key, v) with
    | Some (k, passed) => dict_set (input_kwargs st) k passed
    | None => input_kwargs st
    end.
Proof.
  unfold passed_input. cbn [fst snd]. rewrite process_kwarg_unfold.
  destruct (is_None v).
  { intros [= <-]. unfold with_kwarg. destruct (is_init_key c key); reflexivity. }
  destruct (lookup_parameter _ key) as [p|]; [|discriminate]. cbn [bind_result].
  destruct (classify _ v) as [[ty binding passed|]|]; [| |discriminate];
    intros [= <-]; unfold with_input, with_static, with_kwarg;
    destruct (is_init_key c key); reflexivity.
Qed.

Lemma passed_input_key kv k passed :
  passed_input getattr c kv = Some (k, passed) -> k = fst kv.
Proof.
  unfold passed_input. destruct (is_None (snd kv)); [discriminate|].
  destruct (lookup_parameter _ _) as [p|]; [|discriminate].
  destruct (classify _ _) as [[? ? ?|]|]; [|discriminate..].
  intros [= <- _]. reflexivity.
Qed.

Lemma run_passed (kwargs : list (string * value)) : forall st st',
  List.NoDup (dict_keys (input_kwargs st) ++ dict_keys kwargs) ->
  run st kwargs = Ok st' ->
  input_kwargs st' = input_kwargs st ++ omap (passed_input getattr c) kwargs.
Proof.
  induction kwargs as [|[key v] kwargs IH]; intros st st' Hnodup.
  - simpl. intros [= <-]. rewrite app_nil_r. reflexivity.
  - simpl. destruct (step st key v) as [st1|] eqn:Hstep; [|discriminate].
    cbn [bind_result]. intros Hrun.
    pose proof (step_passed _ _ _ _ Hstep) as Hst1.
    simpl in Hnodup.
    assert (Hkey : ~ In key (dict_keys (input_kwargs st))).
    { intros Hin. apply NoDup_remove_2 in Hnodup. apply Hnodup, in_or_app. left. exact Hin. }
    destruct (passed_input getattr c (key, v)) as [[k passed]|] eqn:Hp.
    + pose proof (passed_input_key _ _ _ Hp) as ->. cbn [fst] in *.
      rewrite dict_set_fresh in Hst1 by exact Hkey.
      rewrite (IH st1 st'); [rewrite Hst1, <- app_assoc; reflexivity| |exact Hrun].
      rewrite Hst1. unfold dict_keys. rewrite map_app. simpl. rewrite <- app_assoc.
      exact Hnodup.
    + rewrite (IH st1 st'); [rewrite Hst1; reflexivity| |exact Hrun].
      rewrite Hst1. apply NoDup_remove_1 in Hnodup. exact Hnodup.
Qed.

Lemma partition_Permutation (kwargs1 kwargs2 : dict value) :
  kwargs1 ≡ₚ kwargs2 ->
  init_partition c kwargs1 ≡ₚ init_partition c kwargs2 /\
  method_partition c kwargs1 ≡ₚ method_partition c kwargs2.
Proof.
  unfold init_partition, method_partition.
  induction 1 as [|x l l' _ [IH1 IH2]|x y l|l l' l'' _ [IH1 IH2] _ [IH3 IH4]]; simpl.
  - split; reflexivity.
  - destruct (is_init_key c (fst x)); simpl; split; try constructor; assumption.
  - destruct (is_init_key c (fst x)), (is_init_key c (fst y)); simpl; split;
      try reflexivity; constructor.
  - split; etrans; eassumption.
Qed.

Lemma partition_NoDup (kwargs : dict value) :
  List.NoDup (dict_keys kwargs) ->
  List.NoDup (dict_keys (init_partition c kwargs)) /\
  List.NoDup (dict_keys (method_partition c kwargs)).
Proof.
  unfold init_partition, method_partition.
  induction kwargs as [|[k v] kwargs IH]; simpl; [split; constructor|].
  intros Hnodup. apply List.NoDup_cons_iff in Hnodup as [Hk Hnodup].
  destruct (IH Hnodup) as [IH1 IH2].
  assert (Hsub : forall f, In k (dict_keys (List.filter f kwargs)) -> In k (dict_keys kwargs)).
  { intros f Hin. unfold dict_keys in *. apply in_map_iff in Hin as (kv & <- & Hin).
    apply filter_In in Hin as [Hin _]. apply in_map. exact Hin. }
  destruct (is_init_key c k); simpl; split; try assumption;
    constructor; try assumption; intros Hin; apply Hk; eapply Hsub; exact Hin.
Qed.

(** X19: passing the same keyword arguments, with distinct keys, in
    another order changes neither whether the call returns nor, up to
    order, the arguments handed to the loaded component. *)
Theorem component_yaml_generator_any_order (kwargs1 kwargs2 : dict value) :
  kwargs1 ≡ₚ kwargs2 ->
  NoDup (dict_keys kwargs1) ->
  match component_yaml_generator getattr py_str c kwargs1,
        component_yaml_generator getattr py_str c kwargs2 with
  | Ok m1, Ok m2 => loaded_with m1 ≡ₚ loaded_with m2
  | Raise _, Raise _ => True
  | _, _ => False
  end.
Proof.
  intros Hperm Hnodup1.
  assert (Hnodup2 : NoDup (dict_keys kwargs2)).
  { rewrite <- (dict_keys_Permutation _ _ Hperm). exact Hnodup1. }
  assert (Hok : is_ok (run initial_state kwargs1) = is_ok (run initial_state kwargs2)).
  { rewrite !run_accepted. apply eq_true_iff_eq.
    rewrite !forallb_forall. split; intros H x Hx; apply H;
      [symmetry in Hperm|]; eapply (Permutation_in _ Hperm); exact Hx. }
  unfold component_yaml_generator.
  destruct (run initial_state kwargs1) as [st1|e1] eqn:Hrun1,
           (run initial_state kwargs2) as [st2|e2] eqn:Hrun2;
    try discriminate; cbn [bind_result]; [|exact I].
  destruct (run_partition getattr py_str c kwargs1 initial_state st1 Hnodup1) as [Hi1 Hm1];
    [intros k _; split; intros [] | exact Hrun1 |].
  destruct (run_partition getattr py_str c kwargs2 initial_state st2 Hnodup2) as [Hi2 Hm2];
    [intros k _; split; intros [] | exact Hrun2 |].
  cbn [initial_state init_kwargs method_kwargs app] in Hi1, Hm1, Hi2, Hm2.
  destruct (partition_Permutation _ _ Hperm) as [Hpi Hpm].
  apply NoDup_ListNoDup in Hnodup1, Hnodup2.
  destruct (partition_NoDup _ Hnodup1) as [Hni Hnm].
  assert (Hval : validate c st1 = validate c st2).
  { unfold validate. rewrite Hi1, Hm1, Hi2, Hm2.
    rewrite (Signature_bind_Permutation (init_signature c) _ _ Hpi Hni).
    rewrite (Signature_bind_Permutation (method_signature c) _ _ Hpm Hnm).
    reflexivity. }
  rewrite Hval. destruct (validate c st2) as [[]|e]; cbn [bind_result]; [|exact I].
  cbn [loaded_with].
  rewrite (run_passed kwargs1 initial_state st1) by (try exact Hrun1; exact Hnodup1).
  rewrite (run_passed kwargs2 initial_state st2) by (try exact Hrun2; exact Hnodup2).
  cbn [initial_state input_kwargs app].
  rewrite Hperm. reflexivity.
Qed.

End OrderProperties.

Lemma component_yaml_generator_any_order_witness :
  match component_yaml_generator sample_getattr sample_str sample_component
          sample_deploy_kwargs,
        component_yaml_generator sample_getattr sample_str sample_component
          (rev sample_deploy_kwargs) with
  | Ok m1, Ok m2 => loaded_with m1 ≡ₚ loaded_with m2
  | Raise _, Raise _ => True
  | _, _ => False
  end.
Proof.
  apply component_yaml_generator_any_order.
  - apply Permutation_rev.
  - apply (bool_decide_unpack _). vm_compute. exact I.
Defined.

(** ** Docstrings *)

Lemma find_app_first {A} (f : A -> bool) (l1 l2 : list A) :
  find f (l1 ++ l2) = match find f l1 with Some x => Some x | None => find f l2 end.
Proof.
  induction l1 as [|x l1 IH]; [reflexivity|].
  simpl. destruct (f x); [reflexivity|exact IH].
Qed.

Lemma args_dict_described_from (params : list DocstringParam) :
  forall (d : dict (option string)) name,
    dict_get (fold_left (fun d p => dict_set d (arg_name p) (param_description p)) params d)
             name
    = match find (fun p => String.eqb (arg_name p) name) (rev params) with
      | Some p => Some (param_description p)
      | None => dict_get d name
      end.
Proof.
  induction params as [|p params IH]; intros d name; [reflexivity|].
  simpl. rewrite IH. rewrite find_app_first.
  destruct (find _ (rev params)) as [q|]; [reflexivity|].
  simpl. rewrite dict_get_set. destruct (String.eqb (arg_name p) name); reflexivity.
Qed.

Lemma args_dict_described parsed name d :
  dict_get (args_dict_of parsed) name = Some (Some d) <-> described parsed name = Some d.
Proof.
  unfold args_dict_of, described. rewrite args_dict_described_from.
  destruct (find _ _) as [p|]; simpl; [|split; discriminate].
  split; congruence.
Qed.

Lemma filter_docstring_params_entries parsed is_init params :
  forall new_args_dict,
    (forall k d, In (k, d) (filter_docstring_params params is_init (args_dict_of parsed)
                              new_args_dict) ->
       In (k, d) new_args_dict \/
       exists p, In p params /\ component_name is_init p = k /\ documented parsed p d) /\
    (forall k, In k (dict_keys new_args_dict) ->
       In k (dict_keys (filter_docstring_params params is_init (args_dict_of parsed)
                          new_args_dict))) /\
    (forall p d, In p params -> documented parsed p d ->
       In (component_name is_init p)
          (dict_keys (filter_docstring_params params is_init (args_dict_of parsed)
                        new_args_dict))).
Proof.
  induction params as [|p params IH]; intros new_args_dict.
  - simpl. split; [auto|]. split; [auto|]. intros p d [].
  - cbn [filter_docstring_params].
    destruct (bool_decide_reflect (param_name p ∈ PARAMS_TO_REMOVE)) as [Hrem|Hkept].
    { destruct (IH new_args_dict) as (IH1 & IH2 & IH3).
      split; [|split; [exact IH2|]].
      - intros k d Hin. destruct (IH1 k d Hin) as [?|(q & ? & ?)]; [auto|].
        right. exists q. simpl. auto.
      - intros q d [<-|Hq] Hdoc; [|eapply IH3; eassumption].
        destruct Hdoc as (Hk & _). contradiction. }
    fold (is_renamed is_init p). fold (component_name is_init p).
    destruct (dict_get (args_dict_of parsed) (param_name p)) as [[description|]|] eqn:Hget.
    + apply args_dict_described in Hget.
      destruct (String.eqb_spec description "") as [->|Hne].
      * destruct (IH new_args_dict) as (IH1 & IH2 & IH3).
        split; [|split; [exact IH2|]].
        -- intros k d Hin. destruct (IH1 k d Hin) as [?|(q & ? & ?)]; [auto|].
           right. exists q. simpl. auto.
        -- intros q d [<-|Hq] Hdoc; [|eapply IH3; eassumption].
           destruct Hdoc as (_ & Hd & Hne). congruence.
      * destruct (IH (dict_set new_args_dict (component_name is_init p) description))
          as (IH1 & IH2 & IH3).
        split; [|split].
        -- intros k d Hin. destruct (IH1 k d Hin) as [Hset|(q & ? & ?)].
           ++ apply dict_set_In_inv in Hset as [[-> ->]|?]; [|auto].
              right. exists p. split; [left; reflexivity|].
              split; [reflexivity|]. split; [exact Hkept|]. split; assumption.
           ++ right. exists q. simpl. auto.
        -- intros k Hk. apply IH2, dict_set_keys. right. exact Hk.
        -- intros q d [<-|Hq] Hdoc; [|eapply IH3; eassumption].
           apply IH2, dict_set_keys. left. reflexivity.
    + assert (Hnone : forall d, described parsed (param_name p) <> Some d).
      { intros d Hd. apply args_dict_described in Hd. congruence. }
      destruct (IH new_args_dict) as (IH1 & IH2 & IH3).
      split; [|split; [exact IH2|]].
      * intros k d Hin. destruct (IH1 k d Hin) as [?|(q & ? & ?)]; [auto|].
        right. exists q. simpl. auto.
      * intros q d [<-|Hq] Hdoc; [|eapply IH3; eassumption].
        destruct Hdoc as (_ & Hd & _). exfalso. apply (Hnone _ Hd).
    + assert (Hnone : forall d, described parsed (param_name p) <> Some d).
      { intros d Hd. apply args_dict_described in Hd. congruence. }
      destruct (IH new_args_dict) as (IH1 & IH2 & IH3).
      split; [|split; [exact IH2|]].
      * intros k d Hin. destruct (IH1 k d Hin) as [?|(q & ? & ?)]; [auto|].
        right. exists q. simpl. auto.
      * intros q d [<-|Hq] Hdoc; [|eapply IH3; eassumption].
        destruct Hdoc as (_ & Hd & _). exfalso. apply (Hnone _ Hd).
Qed.

(** X20: the entries of the filtered Args dictionary are the kept
    parameters of the signature that the docstring describes with a
    text that is not empty (the last description of a name counts),
    under their component names; a docstring the parser rejects with
    [ValueError] gives the empty dictionary, and another exception of
    the parser is passed on. *)
Theorem filter_docstring_args_entries (parse : option string -> result Docstring)
    (sig : Signature) (docstring : option string) (is_init : bool) :
  match parse docstring with
  | Ok parsed =>
      exists new_args_dict,
        filter_docstring_args parse sig docstring is_init = Ok new_args_dict /\
        (forall k d, In (k, d) new_args_dict ->
           exists p, In p (parameters sig) /\ component_name is_init p = k /\
                     documented parsed p d) /\
        (forall p d, In p (parameters sig) -> documented parsed p d ->
           In (component_name is_init p) (dict_keys new_args_dict))
  | Raise ValueError => filter_docstring_args parse sig docstring is_init = Ok []
  | Raise e => filter_docstring_args parse sig docstring is_init = Raise e
  end.
Proof.
  unfold filter_docstring_args.
  destruct (parse docstring) as [parsed|e]; [|destruct e; reflexivity].
  eexists. split; [reflexivity|].
  destruct (filter_docstring_params_entries parsed is_init (parameters sig) [])
    as (H1 & _ & H3).
  split; [|exact H3].
  intros k d Hin. destruct (H1 k d Hin) as [[]|H]. exact H.
Qed.

Lemma filter_docstring_args_entries_witness :
  exists new_args_dict,
    filter_docstring_args (fun _ => Ok sample_init_docstring)
      (class_init_signature sample_Model) None true = Ok new_args_dict /\
    In "model" (dict_keys new_args_dict) /\
    ~ In "credentials" (dict_keys new_args_dict).
Proof.
  pose proof (filter_docstring_args_entries (fun _ => Ok sample_init_docstring)
                (class_init_signature sample_Model) None true) as H.
  cbv beta iota in H. destruct H as (new_args_dict & Hrun & Hsound & Hcomplete).
  exists new_args_dict. split; [exact Hrun|]. split.
  - apply (Hcomplete (required "model_name" (AClass str_class))
             "Required. A fully-qualified model resource name.").
    + simpl. auto.
    + split; [apply (bool_decide_unpack _); vm_compute; exact I|].
      split; [reflexivity|discriminate].
  - intros Hin. apply in_map_iff in Hin as ([k d] & Hk & Hin). simpl in Hk. subst k.
    destruct (Hsound _ _ Hin) as (p & Hp & Hname & Hkept & _).
    simpl in Hp.
    destruct Hp as [<-|[<-|[<-|[<-|[<-|[]]]]]]; try (vm_compute in Hname; discriminate).
    revert Hkept. apply (bool_decide_unpack _). vm_compute. exact I.
Defined.

Lemma add_entries_append args_dict : forall doc,
  add_entries doc args_dict = doc +:+ add_entries "" args_dict.
Proof.
  unfold add_entries.
  induction args_dict as [|kv args_dict IH]; intros doc; simpl.
  - rewrite JsonFacts.append_nil_r. reflexivity.
  - rewrite IH. rewrite (IH ("" +:+ docstring_entry kv)).
    rewrite JsonFacts.append_nil_l. rewrite JsonFacts.append_assoc. reflexivity.
Qed.

(** X21: for a docstring with a Raises section (and a Returns section,
    if any, with a description) the generated text is the short
    description, the long description if there is one, the Args
    section, the Returns section, and a Raises section that lists the
    arguments once more, not the exceptions. *)
Theorem generate_docstring_raises (parse : option string -> result Docstring)
    (args_dict : dict string) (sig : Signature) (method_docstring : option string)
    (parsed : Docstring) :
  parse method_docstring = Ok parsed ->
  docstring_raises parsed <> [] ->
  (forall returns, docstring_returns parsed = Some returns ->
                  returns_description returns <> None) ->
  exists head returns,
    head = str_of_optional (short_description parsed) +:+ nl
           +:+ (if truthy_str (long_description parsed)
                then str_of_optional (long_description parsed) +:+ nl else "") /\
    returns = match docstring_returns parsed with
              | Some (mkDocstringReturns (Some description)) =>
                  "Returns:" +:+ nl +:+ "        "
                  +:+ indent_continuation description +:+ nl
              | _ => ""
              end /\
    generate_docstring parse args_dict sig method_docstring
    = inl (Some (head
                 +:+ (match args_dict with [] => "" | _ :: _ => "Args:" +:+ nl end)
                 +:+ add_entries "" args_dict
                 +:+ returns
                 +:+ "Raises:" +:+ nl
                 +:+ add_entries "" args_dict)).
Proof.
  intros Hparse Hraises Hreturns. eexists _, _. split; [reflexivity|]. split; [reflexivity|].
  unfold generate_docstring. rewrite Hparse.
  destruct (docstring_raises parsed) as [|r raises]; [congruence|].
  destruct (docstring_returns parsed) as [[[description|]]|];
    [| exfalso; apply (Hreturns _ eq_refl); reflexivity |];
    destruct (truthy_str (long_description parsed));
    destruct args_dict as [|kv args_dict];
    cbv zeta; f_equal; f_equal;
    rewrite ?(add_entries_append (kv :: args_dict) (_ +:+ _));
    rewrite ?JsonFacts.append_assoc, ?JsonFacts.append_nil_l, ?JsonFacts.append_nil_r;
    reflexivity.
Qed.

Lemma generate_docstring_raises_witness :
  exists doc,
    generate_docstring (fun _ => Ok sample_deploy_docstring)
      [("endpoint", "Optional. Endpoint to deploy model to.")]
      (method_signature sample_component) None
    = inl (Some doc) /\
    doc = "Deploys model to endpoint." +:+ nl
          +:+ "Args:" +:+ nl
          +:+ "    endpoint:" +:+ nl
          +:+ "        Optional. Endpoint to deploy model to." +:+ nl
          +:+ "Returns:" +:+ nl
          +:+ "        endpoint: Endpoint with the deployed model." +:+ nl
          +:+ "Raises:" +:+ nl
          +:+ "    endpoint:" +:+ nl
          +:+ "        Optional. Endpoint to deploy model to." +:+ nl.
Proof.
  destruct (generate_docstring_raises (fun _ => Ok sample_deploy_docstring)
              [("endpoint", "Optional. Endpoint to deploy model to.")]
              (method_signature sample_component) None sample_deploy_docstring eq_refl)
    as (head & returns & -> & -> & H).
  - discriminate.
  - intros returns [= <-]. discriminate.
  - eexists. split; [exact H|]. vm_compute. reflexivity.
Defined.
